(** * Binary Ninja MCP bridge: routing, retry, cache and envelope layer

    A shallow embedding of [bridge/bn_mcp_bridge_multi_http.py] (and of the
    functions it shares with [bridge/bn_mcp_bridge_http.py]) together with the
    properties of the discovery registry, the retrying client, the TTL cache,
    the envelope normaliser and the filename selector.

    Conventions of the embedding
    - Python [float] seconds ([time.time()], [time.monotonic()], timeouts,
      backoff) are exact rationals [Q].
    - Python [int] is [Z]; [str] is [string], compared bytewise.
    - JSON values and the dictionaries the tools return are [pyval]s; a
      dictionary keeps its insertion order, as Python's does.
    - The process-wide objects ([server_registry], [ttl_cache]), the clocks and
      the network are fields of an explicit [State] threaded by a state monad;
      every HTTP call, sleep and registry lookup is appended to a trace.
    - Logging calls have no effect on that state and are left out. *)

From Stdlib Require Import ZArith QArith Lqa String Ascii List Bool Lia.
From Stdlib Require Import Sorted Permutation DecimalString DecimalPos DecimalZ.
From stdpp Require Import base gmap strings.
Import ListNotations.

Local Open Scope Z_scope.
Local Open Scope string_scope.
Local Open Scope list_scope.

(** ** Python values *)

#[local] Set Warnings "-register-all".

Inductive pyval : Type :=
| PNone
| PBool (b : bool)
| PInt (z : Z)
| PFloat (q : Q)
| PStr (s : string)
| PList (l : list pyval)
| PDict (d : list (string * pyval)).

(** [bool(x)] *)
Definition truthy (v : pyval) : bool :=
  match v with
  | PNone => false
  | PBool b => b
  | PInt z => negb (z =? 0)%Z
  | PFloat q => negb (Qeq_bool q 0)
  | PStr s => negb (String.eqb s "")
  | PList l => match l with [] => false | _ => true end
  | PDict d => match d with [] => false | _ => true end
  end.

(** [str(n)] for an [int]. *)
Definition str_of_Z (z : Z) : string := NilZero.string_of_int (Z.to_int z).

(** ** Insertion-ordered dictionaries with string keys *)

Section Dict.
Context {V : Type}.

Fixpoint dict_get (k : string) (d : list (string * V)) : option V :=
  match d with
  | [] => None
  | (k', v) :: d' => if String.eqb k k' then Some v else dict_get k d'
  end.

Definition dict_mem (k : string) (d : list (string * V)) : bool :=
  match dict_get k d with Some _ => true | None => false end.

(** [d[k] = v]: an existing key keeps its position, a new one goes last. *)
Fixpoint dict_set (k : string) (v : V) (d : list (string * V)) : list (string * V) :=
  match d with
  | [] => [(k, v)]
  | (k', v') :: d' =>
      if String.eqb k k' then (k', v) :: d' else (k', v') :: dict_set k v d'
  end.

(** [{**d, **e}] *)
Definition dict_update (d e : list (string * V)) : list (string * V) :=
  fold_left (fun acc kv => dict_set (fst kv) (snd kv) acc) e d.

(** [d.setdefault(k, v)] *)
Definition dict_setdefault (k : string) (v : V) (d : list (string * V)) : list (string * V) :=
  if dict_mem k d then d else dict_set k v d.

Definition dict_values (d : list (string * V)) : list V := map snd d.
End Dict.

(** [d.get(k, dflt)] on a JSON object. *)
Definition dict_get_default (k : string) (dflt : pyval) (d : list (string * pyval)) : pyval :=
  match dict_get k d with Some v => v | None => dflt end.

(** ** Strings *)

(** [needle in hay] *)
Fixpoint str_in (needle hay : string) : bool :=
  String.prefix needle hay ||
  match hay with
  | EmptyString => false
  | String _ hay' => str_in needle hay'
  end.

(** The library functions the bridge calls on strings and JSON text. *)
Class PyRuntime := {
  str_lower : string -> string;            (* s.lower() *)
  str_strip : string -> string;            (* s.strip() *)
  str_splitlines : string -> list string;  (* s.splitlines() *)
  json_loads : string -> pyval + string;   (* json.loads(s), or str(e) of the error raised *)
  json_dumps : pyval -> string             (* json.dumps(v) *)
}.

(** ** Tunables *)

Definition BINJA_BASE_URL : string := "http://localhost".
Definition BINJA_BASE_PORT : Z := 9009.
Definition MAX_SERVERS : nat := 10.
Definition CONNECT_TIMEOUT : Q := 1.
Definition READ_TIMEOUT : Q := 8.
Definition MAX_RETRIES : nat := 2.
Definition RETRY_BACKOFF_BASE : Q := 2 # 10.
Definition DEFAULT_LIMIT : Z := 100.
Definition MAX_LIMIT : Z := 1000.
Definition CACHE_TTL : Q := 3.

(** ** Pagination clamp *)

(** [x or dflt] for [x : int | None] *)
Definition int_or (x : option Z) (dflt : Z) : Z :=
  match x with
  | None => dflt
  | Some z => if (z =? 0)%Z then dflt else z
  end.

Definition _clamp_paging (offset limit : option Z) : Z * Z :=
  let o := Z.max 0 (int_or offset 0) in
  let l := Z.min MAX_LIMIT (Z.max 1 (int_or limit DEFAULT_LIMIT)) in
  (o, l).

(** ** HTTP, as the [requests] library presents it to the bridge *)

(** The [timeout=] keyword of a [requests] call: [None], one float, or a
    [(connect, read)] pair. *)
Inductive Timeout : Type :=
| NoTimeout
| TimeoutBoth (seconds : Q)
| TimeoutPair (connect read : Q).

(** Values the bridge puts in query parameters: [int] and [str]. *)
Inductive qval : Type :=
| QInt (z : Z)
| QStr (s : string).

#[global] Instance qval_eq_dec : EqDecision qval.
Proof. solve_decision. Defined.

#[global] Instance qval_countable : Countable qval.
Proof.
  refine (inj_countable'
            (fun v => match v with QInt z => inl z | QStr s => inr s end)
            (fun x => match x with inl z => QInt z | inr s => QStr s end) _).
  intros []; reflexivity.
Defined.

Definition Params : Type := list (string * qval).

(** A response object: [r.status_code], [r.reason], the outcome of [r.json()]
    ([None] when it raises [JSONDecodeError]) and [r.text]. *)
Record Response : Type := {
  status_code : Z;
  reason : string;
  json : option pyval;
  text : string
}.

(** What one HTTP call does: raise ([msg] is [str(e)]) or return a response. *)
Inductive HttpOutcome : Type :=
| Raises (msg : string)
| Replies (r : Response).

Inductive Event : Type :=
| EvHttp (method url : string) (params : option Params) (data : option string)
         (timeout : Timeout)
| EvSleep (seconds : Q)
| EvGetServerById (binary_id : string)
| EvGetDefaultServer.

(** ** Process state *)

Record ServerInfo : Type := {
  url : string;
  port : Z;
  filename : pyval;
  status : pyval;
  last_seen : Q
}.

Record BinaryServerRegistry : Type := {
  servers : list (string * ServerInfo);
  last_discovery : Q;
  discovery_interval : Q
}.

Definition CacheKey : Type := string * list (string * qval).

Record TTLCache : Type := {
  ttl : Q;
  store : gmap (string * list (string * qval)) (Q * pyval)
}.

Record State : Type := {
  net : nat -> HttpOutcome;      (* outcome of the n-th HTTP call *)
  n_http : nat;
  wall_clock : nat -> Q;         (* n-th reading of time.time() *)
  n_wall : nat;
  mono_clock : nat -> Q;         (* n-th reading of time.monotonic() *)
  n_mono : nat;
  server_registry : BinaryServerRegistry;
  ttl_cache : TTLCache;
  trace : list Event
}.

Definition set_registry (r : BinaryServerRegistry) (s : State) : State :=
  {| net := net s; n_http := n_http s; wall_clock := wall_clock s; n_wall := n_wall s;
     mono_clock := mono_clock s; n_mono := n_mono s;
     server_registry := r; ttl_cache := ttl_cache s; trace := trace s |}.

Definition set_cache (c : TTLCache) (s : State) : State :=
  {| net := net s; n_http := n_http s; wall_clock := wall_clock s; n_wall := n_wall s;
     mono_clock := mono_clock s; n_mono := n_mono s;
     server_registry := server_registry s; ttl_cache := c; trace := trace s |}.

Definition log_event (e : Event) (s : State) : State :=
  {| net := net s; n_http := n_http s; wall_clock := wall_clock s; n_wall := n_wall s;
     mono_clock := mono_clock s; n_mono := n_mono s;
     server_registry := server_registry s; ttl_cache := ttl_cache s;
     trace := trace s ++ [e] |}.

(** ** The state monad *)

Definition M (A : Type) : Type := State -> A * State.

Definition ret {A : Type} (a : A) : M A := fun s => (a, s).

Definition bind {A B : Type} (m : M A) (k : A -> M B) : M B :=
  fun s => let (a, s') := m s in k a s'.

Notation "x <- m ;; k" := (bind m (fun x => k))
  (at level 100, m at next level, right associativity).
Notation "m ;;; k" := (bind m (fun _ => k))
  (at level 100, right associativity).

(** [time.time()] *)
Definition time_time : M Q := fun s =>
  (wall_clock s (n_wall s),
   {| net := net s; n_http := n_http s; wall_clock := wall_clock s; n_wall := S (n_wall s);
      mono_clock := mono_clock s; n_mono := n_mono s;
      server_registry := server_registry s; ttl_cache := ttl_cache s; trace := trace s |}).

(** [_now()], that is [time.monotonic()] *)
Definition _now : M Q := fun s =>
  (mono_clock s (n_mono s),
   {| net := net s; n_http := n_http s; wall_clock := wall_clock s; n_wall := n_wall s;
      mono_clock := mono_clock s; n_mono := S (n_mono s);
      server_registry := server_registry s; ttl_cache := ttl_cache s; trace := trace s |}).

(** [time.sleep(d)] *)
Definition time_sleep (d : Q) : M unit := fun s => (tt, log_event (EvSleep d) s).

Definition http_call (e : Event) : M HttpOutcome := fun s =>
  (net s (n_http s),
   {| net := net s; n_http := S (n_http s); wall_clock := wall_clock s; n_wall := n_wall s;
      mono_clock := mono_clock s; n_mono := n_mono s;
      server_registry := server_registry s; ttl_cache := ttl_cache s;
      trace := trace s ++ [e] |}).

(** [requests.get(url, timeout=t)] *)
Definition requests_get (u : string) (t : Timeout) : M HttpOutcome :=
  http_call (EvHttp "GET" u None None t).

(** A [requests.Session] carrying the attribute the bridge assigns to it.
    [Session.request(method, url, params=None, data=None, ..., timeout=None)]
    passes its own [timeout] keyword to the transport; [requests] reads no
    [timeout] attribute from the session object. *)
Record Session : Type := { session_timeout : option (Q * Q) }.

Definition Session_request (sess : Session) (method u : string)
    (params : option Params) (data : option string) (timeout : Timeout) : M HttpOutcome :=
  http_call (EvHttp method u params data timeout).

(** [session.get(url, params=params)] and [session.post(url, data=data)], with
    the [timeout] keyword left at its default. *)
Definition session_get (sess : Session) (u : string) (params : option Params) : M HttpOutcome :=
  Session_request sess "GET" u params None NoTimeout.

Definition session_post (sess : Session) (u : string) (data : option string) : M HttpOutcome :=
  Session_request sess "POST" u None data NoTimeout.

(** ** BinaryServerRegistry *)

Definition probe_port (now : Q) (port_offset : nat)
    (discovered : list (string * ServerInfo)) : M (list (string * ServerInfo)) :=
  let p := BINJA_BASE_PORT + Z.of_nat port_offset in
  let u := BINJA_BASE_URL +:+ ":" +:+ str_of_Z p in
  o <- requests_get (u +:+ "/status") (TimeoutBoth 2) ;;
  ret match o with
      | Raises _ => discovered
      | Replies r =>
          if (status_code r =? 200)%Z then
            match json r with
            | Some (PDict st) =>
                if truthy (dict_get_default "loaded" PNone st) then
                  dict_set ("port_" +:+ str_of_Z p)
                    {| url := u; port := p;
                       filename := dict_get_default "filename" (PStr "unknown") st;
                       status := PDict st; last_seen := now |}
                    discovered
                else discovered
            | _ => discovered   (* response.json() or status.get raised *)
            end
          else discovered
      end.

Fixpoint probe_ports (now : Q) (offsets : list nat)
    (discovered : list (string * ServerInfo)) : M (list (string * ServerInfo)) :=
  match offsets with
  | [] => ret discovered
  | o :: rest => d <- probe_port now o discovered ;; probe_ports now rest d
  end.

Definition discover_servers : M unit :=
  now <- time_time ;;
  fun s =>
    let reg := server_registry s in
    if Qlt_le_dec (now - last_discovery reg) (discovery_interval reg) then (tt, s)
    else
      let (discovered, s') := probe_ports now (seq 0 MAX_SERVERS) [] s in
      (tt, set_registry {| servers := discovered; last_discovery := now;
                           discovery_interval := discovery_interval reg |} s').

Definition get_servers : M (list (string * ServerInfo)) :=
  discover_servers ;;;
  fun s => (servers (server_registry s), s).

Definition get_server_by_id (binary_id : string) : M (option ServerInfo) :=
  (fun s => (tt, log_event (EvGetServerById binary_id) s)) ;;;
  discover_servers ;;;
  fun s => (dict_get binary_id (servers (server_registry s)), s).

Definition get_default_server : M (option ServerInfo) :=
  (fun s => (tt, log_event EvGetDefaultServer s)) ;;;
  svs <- get_servers ;;
  ret (head (dict_values svs)).

(** ** Stable sorting, as [sorted] and [list.sort] do it *)

Section Sorting.
Context {A : Type} (le : A -> A -> bool).

Fixpoint sort_insert (x : A) (l : list A) : list A :=
  match l with
  | [] => [x]
  | y :: l' => if le x y then x :: l else y :: sort_insert x l'
  end.

(** Elements are inserted from the right, each before the first element
    that is not smaller: equal keys keep their original order. *)
Definition py_sorted (l : list A) : list A := fold_right sort_insert [] l.
End Sorting.

(** ** TTLCache *)

(** Order of [(key, value)] items under [sorted]: the keys of one dictionary
    are distinct, so comparing two items is decided by their keys. *)
Definition item_le (a b : string * qval) : bool := String.leb (fst a) (fst b).

Definition TTLCache__key (name : string) (params : Params) : CacheKey :=
  (name, py_sorted item_le params).

Definition TTLCache_get (name : string) (params : Params) (c : TTLCache)
  : M (pyval * TTLCache) :=
  let k := TTLCache__key name params in
  match store c !! k with
  | None => ret (PNone, c)
  | Some (t, val) =>
      now <- _now ;;
      if Qlt_le_dec (ttl c) (now - t)
      then ret (PNone, {| ttl := ttl c; store := delete k (store c) |})
      else ret (val, c)
  end.

Definition TTLCache_set (name : string) (params : Params) (value : pyval) (c : TTLCache)
  : M TTLCache :=
  let k := TTLCache__key name params in
  now <- _now ;;
  ret {| ttl := ttl c; store := <[k := (now, value)]> (store c) |}.

(** The two methods on the process-wide [ttl_cache = TTLCache(CACHE_TTL)]. *)
Definition ttl_cache_get (name : string) (params : Params) : M pyval := fun s =>
  let '((v, c), s') := TTLCache_get name params (ttl_cache s) s in (v, set_cache c s').

Definition ttl_cache_set (name : string) (params : Params) (value : pyval) : M unit := fun s =>
  let '(c, s') := TTLCache_set name params value (ttl_cache s) s in (tt, set_cache c s').

(** ** Small Python idioms *)

(** [bool(s)] for [s : str | None] *)
Definition str_truthy (s : option string) : bool :=
  match s with
  | Some x => negb (String.eqb x "")
  | None => false
  end.

(** [s or d] for [s : str | None] and a string [d] *)
Definition str_or (s : option string) (d : string) : string :=
  match s with
  | Some x => if String.eqb x "" then d else x
  | None => d
  end.

(** [s or None] for [s : str] *)
Definition str_or_None (s : string) : option string :=
  if String.eqb s "" then None else Some s.

(** [type(v).__name__] *)
Definition type_name (v : pyval) : string :=
  match v with
  | PNone => "NoneType"
  | PBool _ => "bool"
  | PInt _ => "int"
  | PFloat _ => "float"
  | PStr _ => "str"
  | PList _ => "list"
  | PDict _ => "dict"
  end.

Definition opt_str_py (s : option string) : pyval :=
  match s with
  | Some x => PStr x
  | None => PNone
  end.

Section Bridge.
Context {py : PyRuntime}.

(** ** The resilient client *)

(** The body handling of a 2xx response: [r.json()], else [json.loads] of a
    body that looks like JSON, else the lines of the body.  [inr msg] is an
    exception raised on the way. *)
Definition decode_body (r : Response) : pyval + string :=
  match json r with
  | Some v => inl v
  | None =>
      let txt := str_strip (text r) in
      if String.prefix "{" txt || String.prefix "[" txt then json_loads txt
      else inl (PList (map PStr (str_splitlines txt)))
  end.

(** The [for attempt in range(MAX_RETRIES + 1)] loop of [_request] and the
    [return] that follows it. *)
Fixpoint request_attempts (sess : Session) (method u : string)
    (params : option Params) (data : option string)
    (attempts : list nat) (last_err : option string) : M (pyval * option string) :=
  match attempts with
  | [] => ret (PNone, Some (str_or last_err "unknown error"))
  | attempt :: rest =>
      let on_exception (e : string) : M (pyval * option string) :=
        (if (attempt <? MAX_RETRIES)%nat
         then time_sleep (RETRY_BACKOFF_BASE * inject_Z (Z.of_nat attempt + 1))
         else ret tt) ;;;
        request_attempts sess method u params data rest (Some e) in
      o <- (if String.eqb method "GET"
            then session_get sess u params
            else session_post sess u data) ;;
      match o with
      | Raises e => on_exception e
      | Replies r =>
          if (200 <=? status_code r)%Z && (status_code r <? 300)%Z then
            match decode_body r with
            | inl v => ret (v, None)
            | inr e => on_exception e
            end
          else ret (PNone, Some (str_of_Z (status_code r) +:+ " " +:+ reason r))
      end
  end.

(** The target resolution at the head of [_request]: the base URL, or the
    error message returned. *)
Definition resolve_target (binary_id : option string) : M (string + string) :=
  if str_truthy binary_id then
    let id := default "" binary_id in
    server_info <- get_server_by_id id ;;
    ret match server_info with
        | None => inr ("Binary server '" +:+ id +:+ "' not found")
        | Some i => inl (url i)
        end
  else
    server_info <- get_default_server ;;
    ret match server_info with
        | None => inr "No Binary Ninja servers available"
        | Some i => inl (url i)
        end.

Definition _request (method endpoint : string) (params : option Params)
    (data : option string) (binary_id : option string) : M (pyval * option string) :=
  target <- resolve_target binary_id ;;
  match target with
  | inr e => ret (PNone, Some e)
  | inl base_url =>
      let session := {| session_timeout := Some (CONNECT_TIMEOUT, READ_TIMEOUT) |} in
      request_attempts session method (base_url +:+ "/" +:+ endpoint) params data
        (seq 0 (MAX_RETRIES + 1)) None
  end.

(** ** The list reader *)

Definition _list_endpoint (endpoint : string) (offset limit : Z)
    (extra : option Params) (binary_id : option string) : M pyval :=
  let params := dict_update [("offset", QInt offset); ("limit", QInt limit)]
                            (default [] extra) in
  let cache_key := endpoint +:+ "_" +:+ str_or binary_id "default" in
  cached <- ttl_cache_get cache_key params ;;
  match cached with
  | PNone =>
      r <- _request "GET" endpoint (Some params) None binary_id ;;
      let '(data, err) := r in
      if str_truthy err then
        let resp := PDict [("ok", PBool false); ("error", opt_str_py err);
                           ("items", PList []); ("hasMore", PBool false)] in
        ttl_cache_set cache_key params resp ;;;
        ret resp
      else
        let '(items, has_more) :=
          match data with
          | PDict d =>
              if dict_mem "items" d
              then (dict_get_default "items" (PList []) d,
                    truthy (dict_get_default "hasMore" (PBool false) d))
              else (PList [data], false)
          | PList l => (data, (limit <=? Z.of_nat (length l))%Z)
          | _ => (PList [data], false)
          end in
        let resp := PDict [("ok", PBool true); ("items", items);
                           ("hasMore", PBool has_more)] in
        ttl_cache_set cache_key params resp ;;;
        ret resp
  | _ => ret cached
  end.

(** ** Tools

    A tool's [binary_id: str = ""] parameter is an [option string]: [None]
    when the caller leaves it out, so that the default applies. *)

(** The matches gathered by the loop of [select_binary_by_filename]; [inr]
    carries [str(e)] of the [AttributeError] raised by [.lower()] on a
    filename that is not a string. *)
Record Match : Type := {
  m_binary_id : string;
  m_filename : string;
  m_port : Z;
  m_exact_match : bool
}.

Fixpoint collect_matches (fn : string) (svs : list (string * ServerInfo))
    (matches : list Match) : list Match + string :=
  match svs with
  | [] => inl matches
  | (binary_id, info) :: rest =>
      match filename info with
      | PStr server_filename =>
          collect_matches fn rest
            (if str_in (str_lower fn) (str_lower server_filename)
             then matches ++ [ {| m_binary_id := binary_id;
                                  m_filename := server_filename;
                                  m_port := port info;
                                  m_exact_match :=
                                    String.eqb (str_lower fn) (str_lower server_filename) |} ]
             else matches)
      | v => inr ("'" +:+ type_name v +:+ "' object has no attribute 'lower'")
      end
  end.

(** Order of the sort key [(not x["exact_match"], x["filename"])]. *)
Definition match_le (a b : Match) : bool :=
  if Bool.eqb (m_exact_match a) (m_exact_match b)
  then String.leb (m_filename a) (m_filename b)
  else m_exact_match a.

Definition match_to_py (m : Match) : pyval :=
  PDict [("binary_id", PStr (m_binary_id m)); ("filename", PStr (m_filename m));
         ("port", PInt (m_port m)); ("exact_match", PBool (m_exact_match m))].

Definition select_binary_by_filename (fn : string) : M pyval :=
  svs <- get_servers ;;
  ret match collect_matches fn svs [] with
      | inr e => PDict [("ok", PBool false); ("error", PStr e)]
      | inl [] =>
          PDict [("ok", PBool false);
                 ("error", PStr ("No binary found matching filename '" +:+ fn +:+ "'"));
                 ("available_binaries", PList (map filename (dict_values svs)))]
      | inl matches =>
          let matches := py_sorted match_le matches in
          PDict [("ok", PBool true);
                 ("matches", PList (map match_to_py matches));
                 ("selected", match matches with
                              | m :: _ => PStr (m_binary_id m)
                              | [] => PNone
                              end);
                 ("message", PStr ("Found " +:+ str_of_Z (Z.of_nat (length matches))
                                   +:+ " match(es) for '" +:+ fn +:+ "'"))]
      end.

Definition health (binary_id : option string) : M pyval :=
  let binary_id := default "" binary_id in
  r <- _request "GET" "status" None None (str_or_None binary_id) ;;
  let '(status, err) := r in
  ret (PDict [("ok", PBool (match err with None => true | Some _ => false end));
              ("error", opt_str_py err);
              ("status", match status with
                         | PStr _ | PDict _ => status
                         | _ => PNone
                         end);
              ("binary_id", PStr (str_or (Some binary_id) "default"))]).

Definition valid_kinds : list string :=
  ["methods"; "classes"; "segments"; "imports"; "exports"; "data"; "namespaces"].

Definition list_entities (kind : string) (offset limit : Z) (query : string)
    (binary_id : option string) : M pyval :=
  let binary_id := default "" binary_id in
  if negb (existsb (String.eqb kind) valid_kinds) then
    ret (PDict [("ok", PBool false);
                ("error", PStr ("Invalid kind. Must be one of: "
                                +:+ String.concat ", " valid_kinds));
                ("items", PList []); ("hasMore", PBool false)])
  else
    let '(o, l) := _clamp_paging (Some offset) (Some limit) in
    if negb (String.eqb query "") && String.eqb kind "methods" then
      _list_endpoint "searchFunctions" o l (Some [("query", QStr query)])
        (str_or_None binary_id)
    else
      let extra := if negb (String.eqb query "") then [("query", QStr query)] else [] in
      _list_endpoint kind o l (Some extra) (str_or_None binary_id).

(** The four [setdefault] calls of [list_data] on one item. *)
Definition fill_item_defaults (item : pyval) : pyval :=
  match item with
  | PDict d =>
      PDict (dict_setdefault "type" (PStr "unknown")
               (dict_setdefault "size" (PInt 0)
                  (dict_setdefault "address" PNone
                     (dict_setdefault "name" (PStr "unnamed") d))))
  | _ => item
  end.

(** The enhancement loop of [list_data] on the envelope it received: the
    envelope after the loop, or [str(e)] of the exception raised. *)
Definition enhance_result (result : pyval) : pyval + string :=
  match result with
  | PDict d =>
      if truthy (dict_get_default "ok" PNone d)
         && truthy (dict_get_default "items" PNone d) then
        match dict_get_default "items" PNone d with
        | PList l => inl (PDict (dict_set "items" (PList (map fill_item_defaults l)) d))
        | PDict _ | PStr _ => inl result   (* iterates keys or characters *)
        | v => inr ("'" +:+ type_name v +:+ "' object is not iterable")
        end
      else inl result
  | v => inr ("'" +:+ type_name v +:+ "' object has no attribute 'get'")
  end.

Definition list_data (offset limit : Z) (query filter_type : string)
    (binary_id : option string) : M pyval :=
  let binary_id := default "" binary_id in
  let '(o, l) := _clamp_paging (Some offset) (Some limit) in
  let extra := if negb (String.eqb query "") then [("query", QStr query)] else [] in
  let extra := if negb (String.eqb filter_type "")
               then dict_set "type" (QStr filter_type) extra else extra in
  result <- _list_endpoint "data" o l (Some extra) (str_or_None binary_id) ;;
  match enhance_result result with
  | inl result' =>
      (* the items were changed in place: the cached envelope is the same
         object and changes with them *)
      let k := TTLCache__key ("data_" +:+ str_or (str_or_None binary_id) "default")
                 (dict_update [("offset", QInt o); ("limit", QInt l)] extra) in
      fun s =>
        (result',
         set_cache {| ttl := ttl (ttl_cache s);
                      store := alter (fun tv => (fst tv, result')) k
                                     (store (ttl_cache s)) |} s)
  | inr e =>
      ret (PDict [("ok", PBool false); ("error", PStr e);
                  ("items", PList []); ("hasMore", PBool false)])
  end.

Definition get_data_item (name address : string) (binary_id : option string) : M pyval :=
  let binary_id := default "" binary_id in
  if String.eqb name "" && String.eqb address "" then
    ret (PDict [("ok", PBool false);
                ("error", PStr "Either name or address must be provided")])
  else
    let params := if negb (String.eqb name "") then [("name", QStr (str_strip name))] else [] in
    let params := if negb (String.eqb address "")
                  then dict_set "address" (QStr (str_strip address)) params else params in
    r <- _request "GET" "data/item" (Some params) None (str_or_None binary_id) ;;
    let '(data, err) := r in
    if str_truthy err then ret (PDict [("ok", PBool false); ("error", opt_str_py err)])
    else ret match data with
             | PDict d => PDict (dict_update [("ok", PBool true)] d)
             | _ => PDict [("ok", PBool true); ("data", data)]
             end.

Definition read_memory (address : string) (size : Z) (format : string)
    (binary_id : option string) : M pyval :=
  let binary_id := default "" binary_id in
  if String.eqb address "" then
    ret (PDict [("ok", PBool false); ("error", PStr "Address is required")])
  else if (size <=? 0)%Z || (4096 <? size)%Z then
    ret (PDict [("ok", PBool false);
                ("error", PStr "Size must be between 1 and 4096 bytes")])
  else
    let params := [("address", QStr (str_strip address)); ("size", QInt size);
                   ("format", QStr format)] in
    r <- _request "GET" "memory" (Some params) None (str_or_None binary_id) ;;
    let '(data, err) := r in
    if str_truthy err then ret (PDict [("ok", PBool false); ("error", opt_str_py err)])
    else ret (PDict [("ok", PBool true); ("address", PStr address); ("size", PInt size);
                     ("format", PStr format); ("data", data);
                     ("binary_id", PStr (str_or (Some binary_id) "default"))]).

Definition search_data_references (address pattern : string)
    (binary_id : option string) : M pyval :=
  let binary_id := default "" binary_id in
  if String.eqb address "" && String.eqb pattern "" then
    ret (PDict [("ok", PBool false);
                ("error", PStr "Either address or pattern must be provided")])
  else
    let params := if negb (String.eqb address "")
                  then [("address", QStr (str_strip address))] else [] in
    let params := if negb (String.eqb pattern "")
                  then dict_set "pattern" (QStr (str_strip pattern)) params else params in
    r <- _request "GET" "data/references" (Some params) None (str_or_None binary_id) ;;
    let '(data, err) := r in
    let echo := PStr (str_or (Some binary_id) "default") in
    if str_truthy err then ret (PDict [("ok", PBool false); ("error", opt_str_py err)])
    else ret match data with
             | PList _ => PDict [("ok", PBool true); ("references", data);
                                 ("binary_id", echo)]
             | PDict d => PDict (dict_update [("ok", PBool true); ("binary_id", echo)] d)
             | _ => PDict [("ok", PBool true); ("references", PList []);
                           ("binary_id", echo)]
             end.

Definition decompile_function (name : string) (binary_id : option string) : M pyval :=
  let binary_id := default "" binary_id in
  if String.eqb name "" || String.eqb (str_strip name) "" then
    ret (PDict [("ok", PBool false); ("error", PStr "Function name cannot be empty")])
  else
    r <- _request "POST" "decompile" None (Some (str_strip name)) (str_or_None binary_id) ;;
    let '(data, err) := r in
    if str_truthy err then ret (PDict [("ok", PBool false); ("error", opt_str_py err)])
    else
      let code := match data with PStr c => c | _ => json_dumps data end in
      ret (PDict [("ok", PBool true); ("code", PStr code);
                  ("binary_id", PStr (str_or (Some binary_id) "default"))]).

Definition overview (binary_id : option string) : M pyval :=
  let binary_id := default "" binary_id in
  r <- _request "GET" "overview" None None (str_or_None binary_id) ;;
  let '(data, err) := r in
  if str_truthy err then ret (PDict [("ok", PBool false); ("error", opt_str_py err)])
  else ret (PDict [("ok", PBool true); ("overview", data);
                   ("binary_id", PStr (str_or (Some binary_id) "default"))]).

Definition get_binary_status (binary_id : option string) : M pyval :=
  let binary_id := default "" binary_id in
  r <- _request "GET" "binary" None None (str_or_None binary_id) ;;
  let '(data, err) := r in
  if str_truthy err then ret (PDict [("ok", PBool false); ("error", opt_str_py err)])
  else ret (PDict [("ok", PBool true); ("binary", data);
                   ("binary_id", PStr (str_or (Some binary_id) "default"))]).
End Bridge.

(** ** The remaining tools of the multi-binary bridge *)

(** A registry record as the dictionary [discover_servers] builds. *)
Definition server_info_py (i : ServerInfo) : pyval :=
  PDict [("url", PStr (url i)); ("port", PInt (port i)); ("filename", filename i);
         ("status", status i); ("last_seen", PFloat (last_seen i))].

Section RegistryTools.
Context {py : PyRuntime}.

(** The entry [list_binary_servers] shows when [binary/info] is not to be had. *)
Definition plain_server_entry (binary_id : string) (info : ServerInfo) : pyval :=
  PDict [("binary_id", PStr binary_id); ("filename", filename info);
         ("port", PInt (port info)); ("url", PStr (url info));
         ("last_seen", PFloat (last_seen info)); ("loaded", PBool true)].

(** The four fields the instance's own [binary/info] dictionary is merged over. *)
Definition server_entry_base (binary_id : string) (info : ServerInfo)
  : list (string * pyval) :=
  [("binary_id", PStr binary_id); ("port", PInt (port info));
   ("url", PStr (url info)); ("last_seen", PFloat (last_seen info))].

(** The [for binary_id, info in servers.items()] loop of [list_binary_servers]. *)
Fixpoint list_servers_loop (svs : list (string * ServerInfo)) (server_list : list pyval)
  : M (list pyval) :=
  match svs with
  | [] => ret server_list
  | (binary_id, info) :: rest =>
      r <- _request "GET" "binary/info" None None (Some binary_id) ;;
      let '(binary_info, err) := r in
      let enhanced_info :=
        match binary_info with
        | PDict d =>
            if negb (str_truthy err)
            then PDict (dict_update (server_entry_base binary_id info) d)
            else plain_server_entry binary_id info
        | _ => plain_server_entry binary_id info
        end in
      list_servers_loop rest (server_list ++ [enhanced_info])
  end.

Definition list_binary_servers : M pyval :=
  svs <- get_servers ;;
  server_list <- list_servers_loop svs [] ;;
  ret (PDict [("ok", PBool true); ("servers", PList server_list);
              ("count", PInt (Z.of_nat (length server_list)))]).

Definition get_binary_info (binary_id : string) : M pyval :=
  if String.eqb binary_id "" then
    ret (PDict [("ok", PBool false); ("error", PStr "binary_id is required")])
  else
    server_info <- get_server_by_id binary_id ;;
    match server_info with
    | None =>
        ret (PDict [("ok", PBool false);
                    ("error", PStr ("Binary server '" +:+ binary_id +:+ "' not found"))])
    | Some info =>
        r <- _request "GET" "binary/info" None None (Some binary_id) ;;
        let '(binary_info, err) := r in
        if str_truthy err then
          ret (PDict [("ok", PBool false);
                      ("error", PStr ("Failed to get binary info: " +:+ str_or err ""))])
        else
          ret (PDict [("ok", PBool true); ("binary_id", PStr binary_id);
                      ("server_info", server_info_py info);
                      ("binary_info", binary_info)])
    end.
End RegistryTools.

(** ** The single-binary bridge, [bridge/bn_mcp_bridge_http.py]

    Its [_clamp_paging], [TTLCache] and retry loop are those above; it has
    one fixed target and no registry. *)

Module Single.

Definition BINJA_URL : string := "http://localhost:9009".

Section SingleBridge.
Context {py : PyRuntime}.

Definition _request (method endpoint : string) (params : option Params)
    (data : option string) : M (pyval * option string) :=
  let session := {| session_timeout := Some (CONNECT_TIMEOUT, READ_TIMEOUT) |} in
  request_attempts session method (BINJA_URL +:+ "/" +:+ endpoint) params data
    (seq 0 (MAX_RETRIES + 1)) None.

Definition _list_endpoint (endpoint : string) (offset limit : Z)
    (extra : option Params) : M pyval :=
  let params := dict_update [("offset", QInt offset); ("limit", QInt limit)]
                            (default [] extra) in
  cached <- ttl_cache_get endpoint params ;;
  match cached with
  | PNone =>
      r <- _request "GET" endpoint (Some params) None ;;
      let '(data, err) := r in
      if str_truthy err then
        let resp := PDict [("ok", PBool false); ("error", opt_str_py err);
                           ("items", PList []); ("hasMore", PBool false)] in
        ttl_cache_set endpoint params resp ;;;
        ret resp
      else
        let '(items, has_more) :=
          match data with
          | PDict d =>
              if dict_mem "items" d
              then (dict_get_default "items" (PList []) d,
                    truthy (dict_get_default "hasMore" (PBool false) d))
              else (PList [data], false)
          | PList l => (data, (limit <=? Z.of_nat (length l))%Z)
          | _ => (PList [data], false)
          end in
        let resp := PDict [("ok", PBool true); ("items", items);
                           ("hasMore", PBool has_more)] in
        ttl_cache_set endpoint params resp ;;;
        ret resp
  | _ => ret cached
  end.

Definition health : M pyval :=
  r <- _request "GET" "status" None None ;;
  let '(status, err) := r in
  ret (PDict [("ok", PBool (match err with None => true | Some _ => false end));
              ("error", opt_str_py err);
              ("status", match status with
                         | PStr _ | PDict _ => status
                         | _ => PNone
                         end)]).

Definition list_entities (kind : string) (offset limit : Z) (query : string) : M pyval :=
  if negb (existsb (String.eqb kind) valid_kinds) then
    ret (PDict [("ok", PBool false);
                ("error", PStr ("Invalid kind. Must be one of: "
                                +:+ String.concat ", " valid_kinds));
                ("items", PList []); ("hasMore", PBool false)])
  else
    let '(o, l) := _clamp_paging (Some offset) (Some limit) in
    if negb (String.eqb query "") && String.eqb kind "methods" then
      _list_endpoint "searchFunctions" o l (Some [("query", QStr query)])
    else
      let extra := if negb (String.eqb query "") then [("query", QStr query)] else [] in
      _list_endpoint kind o l (Some extra).

Definition decompile_function (name : string) : M pyval :=
  if String.eqb name "" || String.eqb (str_strip name) "" then
    ret (PDict [("ok", PBool false); ("error", PStr "Function name cannot be empty")])
  else
    r <- _request "POST" "decompile" None (Some (str_strip name)) ;;
    let '(data, err) := r in
    if str_truthy err then ret (PDict [("ok", PBool false); ("error", opt_str_py err)])
    else
      let code := match data with PStr c => c | _ => json_dumps data end in
      ret (PDict [("ok", PBool true); ("code", PStr code)]).

Definition overview : M pyval :=
  r <- _request "GET" "overview" None None ;;
  let '(data, err) := r in
  if str_truthy err then ret (PDict [("ok", PBool false); ("error", opt_str_py err)])
  else ret (PDict [("ok", PBool true); ("overview", data)]).

Definition get_binary_status : M pyval :=
  r <- _request "GET" "binary" None None ;;
  let '(data, err) := r in
  if str_truthy err then ret (PDict [("ok", PBool false); ("error", opt_str_py err)])
  else ret (PDict [("ok", PBool true); ("binary", data)]).
End SingleBridge.

End Single.

(** ** The plugin's registry of running servers, [plugin/core/config.py]

    Every method runs under the registry's lock; the model is the sequential
    effect of one method call on the registry. *)

(** [del d[k]] for a key that is present *)
Fixpoint dict_del {V : Type} (k : string) (d : list (string * V)) : list (string * V) :=
  match d with
  | [] => []
  | (k', v) :: d' => if String.eqb k k' then d' else (k', v) :: dict_del k d'
  end.

Module Plugin.

Record MultiBinaryServerConfig : Type := {
  host : string;
  base_port : Z;
  max_servers : Z;
  debug : bool
}.

Definition MultiBinaryServerConfig_default : MultiBinaryServerConfig :=
  {| host := "localhost"; base_port := 9009; max_servers := 10; debug := false |}.

Definition get_port_for_index (config : MultiBinaryServerConfig) (index : Z) : Z :=
  base_port config + index.

Section Registry.
(** Binary views and server instances are Binary Ninja's and the HTTP
    server's objects; the registry only stores them, tests a view for truth
    and reads its [file.filename]. *)
Context {View Server : Type}.
Variable view_truthy : View -> bool.
Variable view_filename : View -> string.

Record ServerEntry : Type := {
  binary_view : View;
  server : Server;
  port : Z;
  filename : option string
}.

Record MultiBinaryRegistry : Type := {
  _servers : list (string * ServerEntry);
  _port_to_binary : gmap Z string;
  _next_port_index : Z
}.

Definition MultiBinaryRegistry_init : MultiBinaryRegistry :=
  {| _servers := []; _port_to_binary := ∅; _next_port_index := 0 |}.

Definition register_binary (binary_id : string) (bv : View) (server_instance : Server)
    (p : Z) (reg : MultiBinaryRegistry) : MultiBinaryRegistry :=
  {| _servers :=
       dict_set binary_id
         {| binary_view := bv; server := server_instance; port := p;
            filename := if view_truthy bv then Some (view_filename bv) else None |}
         (_servers reg);
     _port_to_binary := <[p := binary_id]> (_port_to_binary reg);
     _next_port_index := _next_port_index reg |}.

Definition unregister_binary (binary_id : string) (reg : MultiBinaryRegistry)
  : MultiBinaryRegistry :=
  match dict_get binary_id (_servers reg) with
  | None => reg
  | Some info =>
      {| _servers := dict_del binary_id (_servers reg);
         _port_to_binary := delete (port info) (_port_to_binary reg);
         _next_port_index := _next_port_index reg |}
  end.

Definition get_binary_info (binary_id : string) (reg : MultiBinaryRegistry)
  : option ServerEntry :=
  dict_get binary_id (_servers reg).

Definition get_binary_by_port (p : Z) (reg : MultiBinaryRegistry) : option string :=
  _port_to_binary reg !! p.

(** One dictionary of [list_binaries]: [binary_id], [filename], [port]. *)
Definition list_binaries (reg : MultiBinaryRegistry) : list (string * option string * Z) :=
  map (fun e => (fst e, filename (snd e), port (snd e))) (_servers reg).

Definition is_port_available (p : Z) (reg : MultiBinaryRegistry) : bool :=
  match _port_to_binary reg !! p with
  | None => true
  | Some _ => false
  end.

(** The [while] loop of [get_next_port] and the [raise] after it: the port
    returned or [str(e)] of the [RuntimeError], with the registry as the call
    leaves it; [None] when [fuel] iterations did not finish the loop. *)
Fixpoint next_port_loop (fuel : nat) (config : MultiBinaryServerConfig)
    (reg : MultiBinaryRegistry) : option ((Z + string) * MultiBinaryRegistry) :=
  if (_next_port_index reg <? max_servers config)%Z then
    match fuel with
    | O => None
    | S fuel' =>
        let p := get_port_for_index config (_next_port_index reg) in
        let reg' := {| _servers := _servers reg;
                       _port_to_binary := _port_to_binary reg;
                       _next_port_index := _next_port_index reg + 1 |} in
        if is_port_available p reg then Some (inl p, reg')
        else next_port_loop fuel' config reg'
    end
  else
    Some (inr ("No available ports (max " +:+ str_of_Z (max_servers config)
               +:+ " servers)"), reg).

(** The loop runs at most [max_servers - _next_port_index] times. *)
Definition get_next_port (config : MultiBinaryServerConfig) (reg : MultiBinaryRegistry)
  : option ((Z + string) * MultiBinaryRegistry) :=
  next_port_loop (Z.to_nat (max_servers config - _next_port_index reg)) config reg.
End Registry.

End Plugin.

(** * Vocabulary of the properties *)

(** Every event a computation appends to the trace satisfies [P]. *)
Definition emits {A : Type} (P : Event -> Prop) (m : M A) : Prop :=
  forall s, exists evs, trace (snd (m s)) = trace s ++ evs /\ Forall P evs.

Definition is_http (e : Event) : bool :=
  match e with
  | EvHttp _ _ _ _ _ => true
  | _ => false
  end.

Definition http_count (evs : list Event) : nat := length (List.filter is_http evs).

(** The durations slept, in order. *)
Definition sleeps (evs : list Event) : list Q :=
  flat_map (fun e => match e with EvSleep d => [d] | _ => [] end) evs.

(** The call one attempt of [_request] issues. *)
Definition attempt_event (method u : string) (params : option Params)
    (data : option string) : Event :=
  if String.eqb method "GET" then EvHttp "GET" u params None NoTimeout
  else EvHttp "POST" u None data NoTimeout.

(** The events of [k] failed attempts numbered [a], [a+1], ...: each call is
    followed by its backoff sleep. *)
Definition retry_events (ev : Event) (a k : nat) : list Event :=
  flat_map (fun i => [ev; EvSleep (RETRY_BACKOFF_BASE * inject_Z (Z.of_nat i + 1))])
           (seq a k).

(** The events [_request] can append, by origin. *)
Inductive request_event (method : string) (params : option Params)
    (data : option string) (binary_id : option string) : Event -> Prop :=
| RE_by_id : str_truthy binary_id = true ->
    request_event method params data binary_id (EvGetServerById (default "" binary_id))
| RE_default : str_truthy binary_id = false ->
    request_event method params data binary_id EvGetDefaultServer
| RE_probe u :
    request_event method params data binary_id
      (EvHttp "GET" u None None (TimeoutBoth 2))
| RE_sleep d :
    request_event method params data binary_id (EvSleep d)
| RE_attempt u :
    request_event method params data binary_id (attempt_event method u params data).

(** The status dictionary a probe reports when its instance counts as live:
    status 200, a JSON object, and a truthy ["loaded"]. *)
Definition live_status (o : HttpOutcome) : option (list (string * pyval)) :=
  match o with
  | Raises _ => None
  | Replies r =>
      if (status_code r =? 200)%Z then
        match json r with
        | Some (PDict st) =>
            if truthy (dict_get_default "loaded" PNone st) then Some st else None
        | _ => None
        end
      else None
  end.

(** The registry entry of the live instance at [BINJA_BASE_PORT + port_offset]. *)
Definition server_record (now : Q) (port_offset : nat) (st : list (string * pyval))
  : string * ServerInfo :=
  let p := BINJA_BASE_PORT + Z.of_nat port_offset in
  ("port_" +:+ str_of_Z p,
   {| url := BINJA_BASE_URL +:+ ":" +:+ str_of_Z p;
      port := p;
      filename := dict_get_default "filename" (PStr "unknown") st;
      status := PDict st;
      last_seen := now |}).

(** What a sweep of [n] ports from offset [a] finds, [outcome i] being the
    outcome of its [i]-th probe: the entries of the live ports, in port order. *)
Fixpoint sweep_from (now : Q) (outcome : nat -> HttpOutcome) (a n : nat)
  : list (string * ServerInfo) :=
  match n with
  | O => []
  | S n' =>
      match live_status (outcome O) with
      | Some st => [server_record now a st]
      | None => []
      end ++ sweep_from now (fun i => outcome (S i)) (S a) n'
  end.

(** Two default records name the same instance: they agree on everything
    but the time of the sweep that saw them. *)
Definition same_instance (r1 r2 : option ServerInfo) : Prop :=
  match r1, r2 with
  | None, None => True
  | Some a, Some b =>
      url a = url b /\ port a = port b /\ filename a = filename b /\ status a = status b
  | _, _ => False
  end.



(** [r.get(k)] on a tool result. *)
Definition result_field (k : string) (r : pyval) : option pyval :=
  match r with
  | PDict d => dict_get k d
  | _ => None
  end.


(** An HTTP call with query parameters carries the page [(offset, limit)]. *)
Definition carries_paging (page : Z * Z) (e : Event) : Prop :=
  forall m u p d t, e = EvHttp m u (Some p) d t ->
    dict_get "offset" p = Some (QInt (fst page)) /\
    dict_get "limit" p = Some (QInt (snd page)).

Section Vocabulary.
Context {py : PyRuntime}.

(** What [_request] returns from an attempt with outcome [o], or [None]
    when the attempt ends in the [except] branch. *)
Definition attempt_result (o : HttpOutcome) : option (pyval * option string) :=
  match o with
  | Raises _ => None
  | Replies r =>
      if (200 <=? status_code r)%Z && (status_code r <? 300)%Z then
        match decode_body r with
        | inl v => Some (v, None)
        | inr _ => None
        end
      else Some (PNone, Some (str_of_Z (status_code r) +:+ " " +:+ reason r))
  end.

(** The registry entry's display filename contains the query, case folded. *)
Definition matches_query (q : string) (entry : string * ServerInfo) : bool :=
  match filename (snd entry) with
  | PStr fn => str_in (str_lower q) (str_lower fn)
  | _ => false
  end.

(** The candidate [select_binary_by_filename] builds from a registry entry. *)
Definition match_of (q : string) (entry : string * ServerInfo) : Match :=
  let fn := match filename (snd entry) with PStr fn => fn | _ => "" end in
  {| m_binary_id := fst entry;
     m_filename := fn;
     m_port := port (snd entry);
     m_exact_match := String.eqb (str_lower q) (str_lower fn) |}.
End Vocabulary.

(** ** Further vocabulary *)

(** From a state that satisfies [I], the computation ends in a state that
    satisfies [I] with a result that satisfies [Q], and every event it
    appends satisfies [P]. *)
Definition hoare {A : Type} (I : State -> Prop) (P : Event -> Prop) (m : M A)
    (Q : A -> Prop) : Prop :=
  forall s, I s ->
    I (snd (m s)) /\ Q (fst (m s)) /\
    exists evs, trace (snd (m s)) = trace s ++ evs /\ Forall P evs.

(** The computation leaves the component [f] of the state as it found it. *)
Definition keeps {A B : Type} (f : State -> B) (m : M A) : Prop :=
  forall s, f (snd (m s)) = f s.

(** The status probe of the port at [port_offset]. *)
Definition probe_event (port_offset : nat) : Event :=
  EvHttp "GET"
    ((BINJA_BASE_URL +:+ ":" +:+ str_of_Z (BINJA_BASE_PORT + Z.of_nat port_offset))
       +:+ "/status")
    None None (TimeoutBoth 2).

(** The calls of one attempt: the request, and the backoff sleep unless the
    attempt is the last one. *)
Definition failed_attempt_events (ev : Event) (attempt : nat) : list Event :=
  ev :: (if (attempt <? MAX_RETRIES)%nat
         then [EvSleep (RETRY_BACKOFF_BASE * inject_Z (Z.of_nat attempt + 1))]
         else []).

(** Every entry of a registry mapping is the record of one port of the
    probed range, under that port's id. *)
Definition registry_ok (s : State) : Prop :=
  forall id info, In (id, info) (servers (server_registry s)) ->
    exists i, (i < MAX_SERVERS)%nat /\
      port info = (BINJA_BASE_PORT + Z.of_nat i)%Z /\
      url info = BINJA_BASE_URL +:+ ":" +:+ str_of_Z (BINJA_BASE_PORT + Z.of_nat i) /\
      id = "port_" +:+ str_of_Z (BINJA_BASE_PORT + Z.of_nat i).

(** A record handed out by the registry points to a port of the range. *)
Definition local_record (info : ServerInfo) : Prop :=
  exists i, (i < MAX_SERVERS)%nat /\
    url info = BINJA_BASE_URL +:+ ":" +:+ str_of_Z (BINJA_BASE_PORT + Z.of_nat i).

(** An HTTP call goes to [http://localhost] on a port of the probed range. *)
Definition local_call (e : Event) : Prop :=
  forall m u p d t, e = EvHttp m u p d t ->
    exists i path, (i < MAX_SERVERS)%nat /\
      u = (BINJA_BASE_URL +:+ ":" +:+ str_of_Z (BINJA_BASE_PORT + Z.of_nat i))
            +:+ "/" +:+ path.

(** The uniform envelope of the list tools: boolean [ok] and [hasMore], an
    [items] field, and a string [error] when [ok] is false. *)
Definition is_envelope (v : pyval) : Prop :=
  exists d b h items,
    v = PDict d /\
    dict_get "ok" d = Some (PBool b) /\
    dict_get "items" d = Some items /\
    dict_get "hasMore" d = Some (PBool h) /\
    (b = false -> exists e, dict_get "error" d = Some (PStr e)).

(** Every value in the process-wide cache is an envelope. *)
Definition cache_ok (s : State) : Prop :=
  forall k t v, store (ttl_cache s) !! k = Some (t, v) -> is_envelope v.


Section FurtherVocabulary.
Context {py : PyRuntime}.

(** [str(e)] of the exception that ends a failed attempt. *)
Definition failure_message (o : HttpOutcome) : string :=
  match o with
  | Raises e => e
  | Replies r =>
      match decode_body r with
      | inr e => e
      | inl _ => ""
      end
  end.
End FurtherVocabulary.

(** ** The plugin's registry *)

Section PluginVocabulary.
Context {View Server : Type}.
Variable view_truthy : View -> bool.
Variable view_filename : View -> string.

(** The two dictionaries of the plugin's registry describe the same
    assignment: every registered binary owns the port of its entry, and every
    reserved port belongs to a registered binary with that port. *)
Definition registry_consistent (reg : @Plugin.MultiBinaryRegistry View Server) : Prop :=
  NoDup (map fst (Plugin._servers reg)) /\
  (forall binary_id e, dict_get binary_id (Plugin._servers reg) = Some e ->
     Plugin._port_to_binary reg !! Plugin.port e = Some binary_id) /\
  (forall p binary_id, Plugin._port_to_binary reg !! p = Some binary_id ->
     exists e, dict_get binary_id (Plugin._servers reg) = Some e /\ Plugin.port e = p).

(** A call of one of the registry's mutating methods. *)
Inductive RegistryCall : Type :=
  | CallRegister (binary_id : string) (bv : View) (server_instance : Server) (p : Z)
  | CallUnregister (binary_id : string)
  | CallNextPort.

(** The registry after a call, and after a series of calls. *)
Definition run_call (config : Plugin.MultiBinaryServerConfig) (c : RegistryCall)
    (reg : @Plugin.MultiBinaryRegistry View Server) : @Plugin.MultiBinaryRegistry View Server :=
  match c with
  | CallRegister binary_id bv server_instance p =>
      Plugin.register_binary view_truthy view_filename binary_id bv server_instance p reg
  | CallUnregister binary_id => Plugin.unregister_binary binary_id reg
  | CallNextPort =>
      match Plugin.get_next_port config reg with
      | Some (_, reg') => reg'
      | None => reg
      end
  end.

Definition run_calls (config : Plugin.MultiBinaryServerConfig) (calls : list RegistryCall)
    (reg : @Plugin.MultiBinaryRegistry View Server) : @Plugin.MultiBinaryRegistry View Server :=
  fold_left (fun r c => run_call config c r) calls reg.
End PluginVocabulary.

(** ** The tools' requests and listings *)


Section ListingVocabulary.
Context {py : PyRuntime}.

End ListingVocabulary.

(** An event of the single-binary bridge: a backoff sleep, or a call of the
    one backend at [BINJA_URL], passed no timeout. *)
Definition single_call (e : Event) : Prop :=
  (exists d, e = EvSleep d) \/
  exists m path p d, e = EvHttp m (Single.BINJA_URL +:+ "/" +:+ path) p d NoTimeout.

(** ** The tools' answers *)




(** * A runtime and process states for the worked examples *)

Definition ascii_lower (c : ascii) : ascii :=
  let n := N_of_ascii c in
  if (65 <=? n)%N && (n <=? 90)%N then ascii_of_N (n + 32) else c.

Fixpoint string_map (f : ascii -> ascii) (s : string) : string :=
  match s with
  | EmptyString => EmptyString
  | String c s' => String (f c) (string_map f s')
  end.

Definition is_blank (c : ascii) : bool :=
  let n := N_of_ascii c in ((9 <=? n)%N && (n <=? 13)%N) || (n =? 32)%N.

Fixpoint lstrip (s : string) : string :=
  match s with
  | EmptyString => EmptyString
  | String c s' => if is_blank c then lstrip s' else s
  end.

Fixpoint rstrip (s : string) : string :=
  match s with
  | EmptyString => EmptyString
  | String c s' =>
      let r := rstrip s' in
      if is_blank c && String.eqb r "" then EmptyString else String c r
  end.

(** Lines of a text, split at LF. *)
Fixpoint lines_from (cur : string) (s : string) : list string :=
  match s with
  | EmptyString => if String.eqb cur "" then [] else [cur]
  | String c s' =>
      if (N_of_ascii c =? 10)%N then cur :: lines_from "" s'
      else lines_from (cur +:+ String c "") s'
  end.

(** ASCII case folding and blanks, LF line ends.  The examples carry their
    JSON bodies decoded already and decompile nothing, so the JSON codec of
    this runtime is a stand-in: it reads the empty object and the empty list
    and writes the scalars. *)
Definition ascii_runtime : PyRuntime :=
  {| str_lower := string_map ascii_lower;
     str_strip := fun s => rstrip (lstrip s);
     str_splitlines := lines_from "";
     json_loads := fun s =>
       if String.eqb s "{}" then inl (PDict [])
       else if String.eqb s "[]" then inl (PList [])
       else inr "Expecting value: line 1 column 1 (char 0)";
     json_dumps := fun v =>
       match v with
       | PNone => "null"
       | PBool true => "true"
       | PBool false => "false"
       | PInt z => str_of_Z z
       | PStr x => String.concat "" [String (ascii_of_N 34) ""; x; String (ascii_of_N 34) ""]
       | PList [] => "[]"
       | PDict [] => "{}"
       | _ => "null"
       end |}.

Definition BinaryServerRegistry_init : BinaryServerRegistry :=
  {| servers := []; last_discovery := 0; discovery_interval := 30 |}.

(** A fresh process whose wall clock starts at [wall0] seconds and whose
    monotonic clock has been read [mono0] times, each clock advancing one
    second per reading; its HTTP calls meet the given outcomes in turn, and
    refused connections after them. *)
Definition process (wall0 : Z) (mono0 : nat) (outcomes : list HttpOutcome) : State :=
  {| net := fun n => nth n outcomes (Raises "Connection refused");
     n_http := 0;
     wall_clock := fun n => inject_Z (wall0 + Z.of_nat n);
     n_wall := 0;
     mono_clock := fun n => inject_Z (Z.of_nat n);
     n_mono := mono0;
     server_registry := BinaryServerRegistry_init;
     ttl_cache := {| ttl := CACHE_TTL; store := ∅ |};
     trace := [] |}.

Definition process_with (outcomes : list HttpOutcome) : State := process 1000 0 outcomes.

Definition reply (code : Z) (why : string) (body : option pyval) : HttpOutcome :=
  Replies {| status_code := code; reason := why; json := body; text := "" |}.

(** The status reply of an instance that has [fn] loaded. *)
Definition loaded (fn : string) : HttpOutcome :=
  reply 200 "OK" (Some (PDict [("loaded", PBool true); ("filename", PStr fn)])).

Definition refused : HttpOutcome := Raises "Connection refused".

Definition numbers : pyval := PList [PInt 1; PInt 2; PInt 3].

(** A sweep that finds one instance, on the base port. *)
Definition one_live : list HttpOutcome := loaded "a.exe" :: repeat refused 9.

(** * Properties *)

(** ** Strings *)

Lemma str_of_Z_inj (a b : Z) : str_of_Z a = str_of_Z b -> a = b.
Proof.
  unfold str_of_Z. intros E.
  assert (N : forall z, Z.to_int z <> Decimal.Pos Decimal.Nil
                        /\ Z.to_int z <> Decimal.Neg Decimal.Nil).
  { intros [|p|p]; simpl; split; try discriminate;
      intros [= E']; exact (DecimalPos.Unsigned.to_uint_nonnil p E'). }
  apply DecimalZ.to_int_inj.
  assert (S1 := NilZero.isi (Z.to_int a) (proj1 (N a)) (proj2 (N a))).
  assert (S2 := NilZero.isi (Z.to_int b) (proj1 (N b)) (proj2 (N b))).
  rewrite E in S1. rewrite S1 in S2. now injection S2.
Qed.

Lemma append_nonempty_r (a b : string) : b <> "" -> a +:+ b <> "".
Proof. destruct a; simpl; [easy | discriminate]. Qed.

Lemma append_cons (x : ascii) (a b : string) : String x a +:+ b = String x (a +:+ b).
Proof. reflexivity. Qed.

Lemma prefix_spec (a b : string) :
  String.prefix a b = true <-> exists post, b = a +:+ post.
Proof.
  revert b. induction a as [|x a IH]; intros b.
  - destruct b; simpl; split; eauto.
  - destruct b as [|y b]; simpl.
    + split; [discriminate | intros [p E]; rewrite append_cons in E; discriminate].
    + destruct (ascii_dec x y) as [->|N].
      * rewrite IH. split; intros [p E]; exists p;
          [now rewrite append_cons, E | rewrite append_cons in E; now injection E].
      * split; [discriminate | intros [p E]; rewrite append_cons in E;
                                injection E as E _; congruence].
Qed.

(** [str_in] decides the substring relation. *)
Lemma str_in_spec (a b : string) :
  str_in a b = true <-> exists pre post, b = pre +:+ a +:+ post.
Proof.
  induction b as [|y b IH]; cbn [str_in].
  - rewrite orb_false_r, prefix_spec. split.
    + intros [p E]. exists "", p. exact E.
    + intros [pre [post E]]. destruct pre; [now exists post | discriminate].
  - rewrite orb_true_iff, prefix_spec, IH. split.
    + intros [[p E] | [pre [post E]]].
      * exists "", p. exact E.
      * exists (String y pre), post. now rewrite append_cons, E.
    + intros [pre [post E]]. destruct pre as [|z pre].
      * left. now exists post.
      * right. rewrite append_cons in E. injection E as _ E. now exists pre, post.
Qed.

Lemma string_leb_trans (a b c : string) :
  String.leb a b = true -> String.leb b c = true -> String.leb a c = true.
Proof.
  intros H1 H2. apply Is_true_true.
  apply (PreOrder_Transitive (R := String.le) a b c); now apply Is_true_true.
Qed.


(** ** Sorting *)

Section SortingFacts.
Context {A : Type} (le : A -> A -> bool).

Lemma sort_insert_perm (x : A) (l : list A) : Permutation (sort_insert le x l) (x :: l).
Proof.
  induction l as [|y l IH]; simpl; [reflexivity|].
  destruct (le x y); [reflexivity|].
  rewrite IH. apply perm_swap.
Qed.

Lemma py_sorted_perm (l : list A) : Permutation (py_sorted le l) l.
Proof.
  induction l as [|x l IH]; simpl; [reflexivity|].
  rewrite sort_insert_perm. now constructor.
Qed.

Lemma sort_insert_sorted (x : A) (l : list A) :
  (forall a b, le a b = true \/ le b a = true) ->
  (forall a b c, le a b = true -> le b c = true -> le a c = true) ->
  StronglySorted (fun a b => le a b = true) l ->
  StronglySorted (fun a b => le a b = true) (sort_insert le x l).
Proof.
  intros total trans. induction 1 as [|y l Hs IH Hy]; simpl.
  - repeat constructor.
  - destruct (le x y) eqn:E.
    + constructor; [now constructor|].
      constructor; [exact E|].
      eapply List.Forall_impl; [|exact Hy]. intros z Hz. now apply (trans x y z).
    + constructor; [exact IH|].
      assert (Hyx : le y x = true) by (destruct (total x y); congruence).
      rewrite (sort_insert_perm x l). now constructor.
Qed.

Lemma py_sorted_sorted (l : list A) :
  (forall a b, le a b = true \/ le b a = true) ->
  (forall a b c, le a b = true -> le b c = true -> le a c = true) ->
  StronglySorted (fun a b => le a b = true) (py_sorted le l).
Proof.
  intros total trans. induction l as [|x l IH]; simpl.
  - constructor.
  - now apply sort_insert_sorted.
Qed.

(** Two elements that the order tells apart can be inserted in either order. *)
Lemma sort_insert_comm (x y : A) (l : list A) :
  (forall a b, le a b = true \/ le b a = true) ->
  (forall a b c, le a b = true -> le b c = true -> le a c = true) ->
  ~ (le x y = true /\ le y x = true) ->
  sort_insert le x (sort_insert le y l) = sort_insert le y (sort_insert le x l).
Proof.
  intros total trans apart. induction l as [|z l IH]; simpl.
  - destruct (le x y) eqn:Exy, (le y x) eqn:Eyx; simpl; rewrite ?Exy, ?Eyx; try reflexivity.
    + exfalso. now apply apart.
    + destruct (total x y); congruence.
  - destruct (le y z) eqn:Eyz, (le x z) eqn:Exz; simpl;
      destruct (le x y) eqn:Exy, (le y x) eqn:Eyx;
      rewrite ?Eyz, ?Exz, ?Exy, ?Eyx; try reflexivity;
      try (exfalso; now apply apart);
      try (destruct (total x y); congruence);
      try (rewrite (trans x y z Exy Eyz) in Exz; discriminate);
      try (rewrite (trans y x z Eyx Exz) in Eyz; discriminate);
      now rewrite IH.
Qed.

Lemma strongly_sorted_app_inv (l1 l2 : list A) (a b : A) (l3 : list A) :
  StronglySorted (fun a b => le a b = true) (l1 ++ a :: l2 ++ b :: l3) -> le a b = true.
Proof.
  induction l1 as [|x l1 IH]; simpl; intros Hs.
  - apply StronglySorted_inv in Hs as [_ Hall].
    rewrite List.Forall_forall in Hall. apply Hall.
    apply in_or_app. right. now left.
  - apply StronglySorted_inv in Hs as [Hs _]. now apply IH.
Qed.
End SortingFacts.

(** ** Pagination clamp: arithmetic *)

Lemma clamp_paging_bounds (offset limit : option Z) :
  (0 <= fst (_clamp_paging offset limit))%Z /\
  (1 <= snd (_clamp_paging offset limit) <= MAX_LIMIT)%Z.
Proof. unfold _clamp_paging, MAX_LIMIT; simpl. lia. Qed.

Lemma clamp_paging_int (o l : Z) :
  fst (_clamp_paging (Some o) (Some l)) = Z.max 0 o /\
  ((1 <= l <= MAX_LIMIT)%Z -> snd (_clamp_paging (Some o) (Some l)) = l).
Proof.
  unfold _clamp_paging, int_or, MAX_LIMIT, DEFAULT_LIMIT; simpl.
  destruct (Z.eqb_spec o 0), (Z.eqb_spec l 0); lia.
Qed.

(** ** TTL cache *)

Lemma item_le_total (a b : string * qval) : item_le a b = true \/ item_le b a = true.
Proof. apply String.leb_total. Qed.

Lemma item_le_trans (a b c : string * qval) :
  item_le a b = true -> item_le b c = true -> item_le a c = true.
Proof. apply string_leb_trans. Qed.

Lemma sorted_items_perm (p1 p2 : Params) :
  NoDup (map fst p1) -> Permutation p1 p2 ->
  py_sorted item_le p1 = py_sorted item_le p2.
Proof.
  intros Hnd Hp. induction Hp as [|x l l' Hp IH|x y l|l l' l'' Hp1 IH1 Hp2 IH2].
  - reflexivity.
  - simpl. rewrite IH; [reflexivity|]. now inversion Hnd.
  - simpl. apply sort_insert_comm; [apply item_le_total | apply item_le_trans |].
    intros [H1 H2]. apply (String.leb_antisym _ _ H1) in H2.
    simpl in Hnd. inversion Hnd as [|? ? Hnotin _]; subst.
    apply Hnotin. rewrite H2. now left.
  - rewrite IH1 by exact Hnd. apply IH2.
    now rewrite <- (Permutation_map fst Hp1).
Qed.

Lemma TTLCache_get_hit (name : string) (params : Params) (c : TTLCache) (s : State)
    (t : Q) (v : pyval) :
  store c !! TTLCache__key name params = Some (t, v) ->
  (mono_clock s (n_mono s) - t <= ttl c)%Q ->
  TTLCache_get name params c s = ((v, c), snd (_now s)).
Proof.
  intros Hk Hle. unfold TTLCache_get. rewrite Hk. unfold bind; simpl.
  destruct (Qlt_le_dec _ _) as [Hlt|_]; [|reflexivity].
  exfalso. exact (Qlt_not_le _ _ Hlt Hle).
Qed.



(** ** Traces *)

Lemma emits_ret {A : Type} (P : Event -> Prop) (a : A) : emits P (ret a).
Proof. intros s. exists []. simpl. now rewrite app_nil_r. Qed.

Lemma emits_bind {A B : Type} (P : Event -> Prop) (m : M A) (k : A -> M B) :
  emits P m -> (forall a, emits P (k a)) -> emits P (bind m k).
Proof.
  intros Hm Hk s. unfold bind. destruct (Hm s) as [e1 [E1 F1]].
  destruct (m s) as [a s1]. destruct (Hk a s1) as [e2 [E2 F2]].
  exists (e1 ++ e2). split.
  - rewrite E2. simpl in E1. rewrite E1. now rewrite app_assoc.
  - now apply Forall_app.
Qed.

Lemma emits_weaken {A : Type} (P Q : Event -> Prop) (m : M A) :
  (forall e, P e -> Q e) -> emits P m -> emits Q m.
Proof.
  intros HPQ Hm s. destruct (Hm s) as [evs [E F]]. exists evs. split; [exact E|].
  eapply List.Forall_impl; [exact HPQ | exact F].
Qed.

Lemma emits_silent {A : Type} (P : Event -> Prop) (m : M A) :
  (forall s, trace (snd (m s)) = trace s) -> emits P m.
Proof. intros Hm s. exists []. rewrite Hm. now rewrite app_nil_r. Qed.

Lemma emits_one {A : Type} (P : Event -> Prop) (m : M A) (e : Event) :
  P e -> (forall s, trace (snd (m s)) = trace s ++ [e]) -> emits P m.
Proof. intros He Hm s. exists [e]. split; [apply Hm | now constructor]. Qed.

Lemma probe_ports_emits (P : Event -> Prop) (now : Q) (offsets : list nat)
    (d : list (string * ServerInfo)) :
  (forall u, P (EvHttp "GET" u None None (TimeoutBoth 2))) ->
  emits P (probe_ports now offsets d).
Proof.
  intros HP. revert d. induction offsets as [|o rest IH]; intros d; simpl.
  - apply emits_ret.
  - apply emits_bind; [|intros a; apply IH].
    unfold probe_port. apply emits_bind; [|intros a; apply emits_ret].
    eapply emits_one; [apply HP | reflexivity].
Qed.

Lemma discover_servers_emits (P : Event -> Prop) :
  (forall u, P (EvHttp "GET" u None None (TimeoutBoth 2))) ->
  emits P discover_servers.
Proof.
  intros HP. unfold discover_servers.
  apply emits_bind; [now apply emits_silent|]. intros now s.
  destruct (Qlt_le_dec _ _).
  - exists []. simpl. now rewrite app_nil_r.
  - destruct (probe_ports_emits P now (seq 0 MAX_SERVERS) [] HP s) as [evs [E F]].
    destruct (probe_ports now (seq 0 MAX_SERVERS) [] s) as [d s']. now exists evs.
Qed.

Lemma get_servers_emits (P : Event -> Prop) :
  (forall u, P (EvHttp "GET" u None None (TimeoutBoth 2))) ->
  emits P get_servers.
Proof.
  intros HP. unfold get_servers.
  apply emits_bind; [now apply discover_servers_emits|].
  intros _. now apply emits_silent.
Qed.

Lemma get_server_by_id_emits (P : Event -> Prop) (id : string) :
  (forall u, P (EvHttp "GET" u None None (TimeoutBoth 2))) ->
  P (EvGetServerById id) ->
  emits P (get_server_by_id id).
Proof.
  intros HP Hid. unfold get_server_by_id.
  apply emits_bind; [eapply emits_one; [exact Hid | reflexivity]|]. intros _.
  apply emits_bind; [now apply discover_servers_emits|].
  intros _. now apply emits_silent.
Qed.

Lemma get_default_server_emits (P : Event -> Prop) :
  (forall u, P (EvHttp "GET" u None None (TimeoutBoth 2))) ->
  P EvGetDefaultServer ->
  emits P get_default_server.
Proof.
  intros HP Hd. unfold get_default_server.
  apply emits_bind; [eapply emits_one; [exact Hd | reflexivity]|]. intros _.
  apply emits_bind; [now apply get_servers_emits|].
  intros svs. apply emits_ret.
Qed.

(** ** The retry loop *)

Section ClientFacts.
Context {py : PyRuntime}.

(** One iteration of the loop: the call is issued, then either the attempt
    returns, or the [except] branch sleeps (unless this was the last attempt)
    and the loop goes on. *)
Lemma request_attempts_cons (sess : Session) (method u : string)
    (params : option Params) (data : option string)
    (attempt : nat) (rest : list nat) (last_err : option string) (s : State) :
  let s1 := snd (http_call (attempt_event method u params data) s) in
  match attempt_result (net s (n_http s)) with
  | Some res =>
      request_attempts sess method u params data (attempt :: rest) last_err s = (res, s1)
  | None =>
      exists e,
        request_attempts sess method u params data (attempt :: rest) last_err s =
        request_attempts sess method u params data rest (Some e)
          (if (attempt <? MAX_RETRIES)%nat
           then log_event (EvSleep (RETRY_BACKOFF_BASE * inject_Z (Z.of_nat attempt + 1))) s1
           else s1)
  end.
Proof.
  cbn zeta. unfold attempt_event.
  cbn [request_attempts].
  unfold bind, session_get, session_post, Session_request, http_call, time_sleep, ret.
  destruct (String.eqb method "GET"); cbv beta iota; cbn [snd];
    (destruct (net s (n_http s)) as [e|r]; cbn [attempt_result];
     [ exists e; destruct (attempt <? MAX_RETRIES)%nat; reflexivity
     | destruct ((200 <=? status_code r)%Z && (status_code r <? 300)%Z);
       [ destruct (decode_body r) as [v|e];
         [ reflexivity
         | exists e; destruct (attempt <? MAX_RETRIES)%nat; reflexivity ]
       | reflexivity ] ]).
Qed.

Lemma request_attempts_emits (sess : Session) (method u : string)
    (params : option Params) (data : option string)
    (attempts : list nat) (last_err : option string) (s : State) :
  exists evs,
    trace (snd (request_attempts sess method u params data attempts last_err s))
      = trace s ++ evs /\
    Forall (fun e => e = attempt_event method u params data \/ exists d, e = EvSleep d) evs /\
    (http_count evs <= length attempts)%nat.
Proof.
  revert last_err s. induction attempts as [|a rest IH]; intros last_err s.
  - exists []. simpl. rewrite app_nil_r.
    split; [reflexivity | split; [constructor | unfold http_count; simpl; lia]].
  - pose proof (request_attempts_cons sess method u params data a rest last_err s) as Hc.
    cbn zeta in Hc.
    destruct (attempt_result (net s (n_http s))) as [res|].
    + rewrite Hc. exists [attempt_event method u params data]. cbn [snd http_call trace].
      split; [reflexivity | split].
      * constructor; [now left | constructor].
      * unfold http_count, attempt_event. destruct (String.eqb method "GET"); simpl; lia.
    + destruct Hc as [e Hc]. rewrite Hc.
      match goal with |- context [request_attempts _ _ _ _ _ rest (Some e) ?s'] =>
        destruct (IH (Some e) s') as [evs [E [F C]]]; rewrite E end.
      assert (Hh : http_count [attempt_event method u params data] = 1%nat).
      { unfold http_count, attempt_event. now destruct (String.eqb method "GET"). }
      destruct (a <? MAX_RETRIES)%nat; cbn [log_event http_call snd trace].
      * exists (attempt_event method u params data
                 :: EvSleep (RETRY_BACKOFF_BASE * inject_Z (Z.of_nat a + 1)) :: evs).
        split; [|split].
        -- now rewrite <- !app_assoc.
        -- constructor; [now left|]. constructor; [right; eauto | exact F].
        -- unfold http_count in *. unfold attempt_event.
           destruct (String.eqb method "GET"); simpl; lia.
      * exists (attempt_event method u params data :: evs).
        split; [|split].
        -- now rewrite <- !app_assoc.
        -- constructor; [now left | exact F].
        -- unfold http_count in *. unfold attempt_event.
           destruct (String.eqb method "GET"); simpl; lia.
Qed.

(** [k] attempts that end in the [except] branch, then one that returns. *)
Lemma request_attempts_run (sess : Session) (method u : string)
    (params : option Params) (data : option string)
    (k : nat) : forall (n a : nat) (last_err : option string) (s : State)
    (res : pyval * option string),
  (k < n)%nat ->
  (a + k <= MAX_RETRIES)%nat ->
  (forall i, (i < k)%nat -> attempt_result (net s (n_http s + i)) = None) ->
  attempt_result (net s (n_http s + k)) = Some res ->
  let ev := attempt_event method u params data in
  let out := request_attempts sess method u params data (seq a n) last_err s in
  fst out = res /\
  trace (snd out) = trace s ++ retry_events ev a k ++ [ev].
Proof.
  induction k as [|k IH]; intros n a last_err s res Hn Ha Hfail Hres ev out; subst out.
  - destruct n as [|n]; [lia|]. cbn [seq].
    pose proof (request_attempts_cons sess method u params data a (seq (S a) n) last_err s) as Hc.
    cbn zeta in Hc. rewrite Nat.add_0_r in Hres. rewrite Hres in Hc. rewrite Hc.
    split; reflexivity.
  - destruct n as [|n]; [lia|]. cbn [seq].
    pose proof (request_attempts_cons sess method u params data a (seq (S a) n) last_err s) as Hc.
    cbn zeta in Hc.
    pose proof (Hfail 0%nat ltac:(lia)) as H0. rewrite Nat.add_0_r in H0. rewrite H0 in Hc.
    destruct Hc as [e Hc]. rewrite Hc.
    assert (Hlt : (a <? MAX_RETRIES)%nat = true) by (apply Nat.ltb_lt; lia).
    rewrite Hlt.
    match goal with |- context [request_attempts _ _ _ _ _ _ (Some e) ?s'] =>
      set (s2 := s') end.
    assert (Hs2 : net s2 = net s /\ n_http s2 = S (n_http s) /\
                  trace s2 = trace s ++ [ev; EvSleep (RETRY_BACKOFF_BASE
                                                       * inject_Z (Z.of_nat a + 1))]).
    { subst s2. cbn [log_event http_call snd n_http net trace].
      rewrite <- app_assoc. auto. }
    destruct Hs2 as [Hnet [Hn_http Htrace]].
    destruct (IH n (S a) (Some e) s2 res) as [IH1 IH2].
    + lia.
    + lia.
    + intros i Hi. rewrite Hnet, Hn_http.
      replace (S (n_http s) + i)%nat with (n_http s + S i)%nat by lia.
      apply Hfail. lia.
    + rewrite Hnet, Hn_http.
      replace (S (n_http s) + k)%nat with (n_http s + S k)%nat by lia. exact Hres.
    + split; [exact IH1|]. rewrite IH2, Htrace.
      unfold retry_events. cbn [seq flat_map]. fold ev.
      rewrite <- !app_assoc. reflexivity.
Qed.

Lemma retry_events_sleeps (ev : Event) (a k : nat) :
  is_http ev = true ->
  sleeps (retry_events ev a k ++ [ev]) =
    map (fun i => (RETRY_BACKOFF_BASE * inject_Z (Z.of_nat i + 1))%Q) (seq a k).
Proof.
  intros Hev. unfold retry_events. revert a.
  induction k as [|k IH]; intros a; cbn [seq flat_map map].
  - destruct ev; try discriminate. reflexivity.
  - rewrite <- app_assoc. cbn [app]. unfold sleeps in *. cbn [flat_map].
    rewrite IH. destruct ev; try discriminate. reflexivity.
Qed.

Lemma retry_events_http_count (ev : Event) (a k : nat) :
  is_http ev = true ->
  http_count (retry_events ev a k ++ [ev]) = (k + 1)%nat.
Proof.
  intros Hev. unfold retry_events, http_count. revert a.
  induction k as [|k IH]; intros a; cbn [seq flat_map].
  - simpl. now rewrite Hev.
  - rewrite <- app_assoc. cbn [app List.filter]. rewrite Hev. cbn [is_http length].
    now rewrite IH.
Qed.

Lemma attempt_event_is_http (method u : string) (params : option Params)
    (data : option string) : is_http (attempt_event method u params data) = true.
Proof. unfold attempt_event. now destruct (String.eqb method "GET"). Qed.

Lemma backoff_durations (N : nat) :
  map (fun i => (RETRY_BACKOFF_BASE * inject_Z (Z.of_nat i + 1))%Q) (seq 0 N) =
  map (fun k => (RETRY_BACKOFF_BASE * inject_Z (Z.of_nat k))%Q) (seq 1 N).
Proof.
  rewrite <- seq_shift, map_map. apply map_ext. intros i.
  now rewrite Nat2Z.inj_succ, <- Z.add_1_r.
Qed.

(** C1. Once the target is resolved, [_request] issues at most
    [MAX_RETRIES + 1] HTTP attempts in every execution; and when the first
    [N <= MAX_RETRIES] attempts raise and the next one answers 2xx with a
    body that decodes to [v], it returns [(v, None)] after exactly [N + 1]
    attempts and [N] sleeps, of [RETRY_BACKOFF_BASE * k] seconds for
    [k = 1..N].  Without a target no attempt is made. *)
Theorem request_retry_bound (method endpoint : string) (params : option Params)
    (data : option string) (binary_id : option string) (s : State) :
  let out := _request method endpoint params data binary_id s in
  (forall base_url s1, resolve_target binary_id s = (inl base_url, s1) ->
     let ev := attempt_event method (base_url +:+ "/" +:+ endpoint) params data in
     (exists evs, trace (snd out) = trace s1 ++ evs /\
                  (http_count evs <= MAX_RETRIES + 1)%nat) /\
     (forall (N : nat) (r : Response) (v : pyval),
        (N <= MAX_RETRIES)%nat ->
        (forall i, (i < N)%nat -> exists msg, net s1 (n_http s1 + i) = Raises msg) ->
        net s1 (n_http s1 + N) = Replies r ->
        (200 <= status_code r < 300)%Z ->
        decode_body r = inl v ->
        fst out = (v, None) /\
        trace (snd out) = trace s1 ++ retry_events ev 0 N ++ [ev] /\
        sleeps (retry_events ev 0 N ++ [ev]) =
          map (fun k => (RETRY_BACKOFF_BASE * inject_Z (Z.of_nat k))%Q) (seq 1 N) /\
        http_count (retry_events ev 0 N ++ [ev]) = (N + 1)%nat)) /\
  (forall e s1, resolve_target binary_id s = (inr e, s1) -> snd out = s1).
Proof.
  intros out. subst out. unfold _request, bind. split.
  - intros base_url s1 Hres. cbv zeta. rewrite Hres. split.
    + destruct (request_attempts_emits
                  {| session_timeout := Some (CONNECT_TIMEOUT, READ_TIMEOUT) |}
                  method (base_url +:+ "/" +:+ endpoint) params data
                  (seq 0 (MAX_RETRIES + 1)) None s1) as [evs [E [_ C]]].
      exists evs. split; [exact E|]. now rewrite length_seq in C.
    + intros N r v HN Hraise Hreply Hstatus Hdecode.
      destruct (request_attempts_run
                  {| session_timeout := Some (CONNECT_TIMEOUT, READ_TIMEOUT) |}
                  method (base_url +:+ "/" +:+ endpoint) params data
                  N (MAX_RETRIES + 1) 0 None s1 (v, None)) as [R1 R2].
      * lia.
      * lia.
      * intros i Hi. destruct (Hraise i Hi) as [msg Hm]. now rewrite Hm.
      * rewrite Hreply. cbn [attempt_result].
        replace ((200 <=? status_code r)%Z && (status_code r <? 300)%Z) with true
          by (symmetry; apply andb_true_iff; split;
              [apply Z.leb_le | apply Z.ltb_lt]; lia).
        now rewrite Hdecode.
      * split; [exact R1|]. split; [exact R2|]. split.
        -- rewrite retry_events_sleeps by apply attempt_event_is_http.
           apply backoff_durations.
        -- apply retry_events_http_count, attempt_event_is_http.
  - intros e s1 Hres. now rewrite Hres.
Qed.

(** C2. An attempt of [_request] that completes with a status code outside
    [200, 300) makes it return [(None, "<status_code> <reason>")] at once:
    the call of that attempt is the last event of the run.  When it is the
    first attempt, it is the only event. *)
Theorem request_status_error_no_retry (method endpoint : string)
    (params : option Params) (data : option string) (binary_id : option string)
    (s s1 : State) (base_url : string) (k : nat) (r : Response) :
  resolve_target binary_id s = (inl base_url, s1) ->
  (k <= MAX_RETRIES)%nat ->
  (forall i, (i < k)%nat -> attempt_result (net s1 (n_http s1 + i)) = None) ->
  net s1 (n_http s1 + k) = Replies r ->
  ~ (200 <= status_code r < 300)%Z ->
  let ev := attempt_event method (base_url +:+ "/" +:+ endpoint) params data in
  let out := _request method endpoint params data binary_id s in
  fst out = (PNone, Some (str_of_Z (status_code r) +:+ " " +:+ reason r)) /\
  trace (snd out) = trace s1 ++ retry_events ev 0 k ++ [ev] /\
  http_count (retry_events ev 0 k ++ [ev]) = (k + 1)%nat /\
  length (sleeps (retry_events ev 0 k ++ [ev])) = k /\
  (k = 0%nat -> trace (snd out) = trace s1 ++ [ev]).
Proof.
  intros Hres Hk Hfail Hreply Hstatus ev out. subst out.
  unfold _request, bind. rewrite Hres.
  destruct (request_attempts_run
              {| session_timeout := Some (CONNECT_TIMEOUT, READ_TIMEOUT) |}
              method (base_url +:+ "/" +:+ endpoint) params data
              k (MAX_RETRIES + 1) 0 None s1
              (PNone, Some (str_of_Z (status_code r) +:+ " " +:+ reason r)))
    as [R1 R2].
  - lia.
  - lia.
  - exact Hfail.
  - rewrite Hreply. cbn [attempt_result].
    replace ((200 <=? status_code r)%Z && (status_code r <? 300)%Z) with false;
      [reflexivity|].
    symmetry. apply andb_false_iff.
    destruct (Z.leb_spec 200 (status_code r)); [right | now left].
    apply Z.ltb_ge. lia.
  - split; [exact R1|]. split; [exact R2|]. split; [|split].
    + apply retry_events_http_count, attempt_event_is_http.
    + rewrite retry_events_sleeps by apply attempt_event_is_http.
      now rewrite length_map, length_seq.
    + intros ->. exact R2.
Qed.

(** C9, as the code has it: every call the retry loop issues through the
    session carries no timeout, whatever the session's [timeout] attribute. *)
Theorem session_calls_carry_no_timeout (sess : Session) (method u : string)
    (params : option Params) (data : option string)
    (attempts : list nat) (last_err : option string) (s : State) :
  exists evs,
    trace (snd (request_attempts sess method u params data attempts last_err s))
      = trace s ++ evs /\
    Forall (fun e => forall m' u' p' d' t, e = EvHttp m' u' p' d' t -> t = NoTimeout) evs.
Proof.
  destruct (request_attempts_emits sess method u params data attempts last_err s)
    as [evs [E [F _]]].
  exists evs. split; [exact E|].
  eapply List.Forall_impl; [|exact F].
  intros e [-> | [d ->]] m' u' p' d' t; [|discriminate].
  unfold attempt_event. destruct (String.eqb method "GET"); now intros [= _ _ _ _ <-].
Qed.
End ClientFacts.

(** ** [_request] as a whole *)

Section RequestFacts.
Context {py : PyRuntime}.

Lemma resolve_target_emits (method : string) (params : option Params)
    (data : option string) (binary_id : option string) :
  emits (request_event method params data binary_id) (resolve_target binary_id).
Proof.
  unfold resolve_target. destruct (str_truthy binary_id) eqn:E.
  - apply emits_bind; [|intros a; apply emits_ret].
    apply get_server_by_id_emits; [intros u; apply RE_probe | now apply RE_by_id].
  - apply emits_bind; [|intros a; apply emits_ret].
    apply get_default_server_emits; [intros u; apply RE_probe | now apply RE_default].
Qed.

Lemma request_emits (method endpoint : string) (params : option Params)
    (data : option string) (binary_id : option string) :
  emits (request_event method params data binary_id)
        (_request method endpoint params data binary_id).
Proof.
  unfold _request. apply emits_bind; [apply resolve_target_emits|].
  intros [base_url|e]; [|apply emits_ret]. intros s.
  destruct (request_attempts_emits
              {| session_timeout := Some (CONNECT_TIMEOUT, READ_TIMEOUT) |}
              method (base_url +:+ "/" +:+ endpoint) params data
              (seq 0 (MAX_RETRIES + 1)) None s) as [evs [E [F _]]].
  exists evs. split; [exact E|].
  eapply List.Forall_impl; [|exact F].
  intros e [-> | [d ->]]; [apply RE_attempt | apply RE_sleep].
Qed.

Lemma attempt_result_error (o : HttpOutcome) (res : pyval * option string) :
  attempt_result o = Some res -> snd res <> Some "".
Proof.
  destruct o as [e|r]; cbn [attempt_result]; [discriminate|].
  destruct ((200 <=? status_code r)%Z && (status_code r <? 300)%Z).
  - destruct (decode_body r); [|discriminate]. now intros [= <-].
  - intros [= <-]. cbn [snd]. intros [= E]. revert E.
    apply append_nonempty_r. discriminate.
Qed.

Lemma request_attempts_error (sess : Session) (method u : string)
    (params : option Params) (data : option string)
    (attempts : list nat) (last_err : option string) (s : State) :
  snd (fst (request_attempts sess method u params data attempts last_err s)) <> Some "".
Proof.
  revert last_err s. induction attempts as [|a rest IH]; intros last_err s.
  - cbn [request_attempts ret fst snd]. destruct last_err as [e|]; cbn [str_or].
    + destruct (String.eqb_spec e ""); [discriminate | congruence].
    + discriminate.
  - pose proof (request_attempts_cons sess method u params data a rest last_err s) as Hc.
    cbn zeta in Hc.
    destruct (attempt_result (net s (n_http s))) as [res|] eqn:E.
    + rewrite Hc. cbn [fst]. exact (attempt_result_error _ _ E).
    + destruct Hc as [e Hc]. rewrite Hc. apply IH.
Qed.

(** The error [_request] returns is [None] or a non-empty message. *)
Lemma request_error_nonempty (method endpoint : string) (params : option Params)
    (data : option string) (binary_id : option string) (s : State) :
  snd (fst (_request method endpoint params data binary_id s)) <> Some "".
Proof.
  unfold _request, bind.
  destruct (resolve_target binary_id s) as [[base_url|e] s1] eqn:Hres.
  - apply request_attempts_error.
  - cbn [ret fst snd]. intros [= ->].
    unfold resolve_target, bind in Hres.
    destruct (str_truthy binary_id).
    + destruct (get_server_by_id (default "" binary_id) s) as [[i|] s'];
        cbn [ret] in Hres; [discriminate|].
      injection Hres as Hres _. discriminate.
    + destruct (get_default_server s) as [[i|] s']; cbn [ret] in Hres; discriminate.
Qed.
End RequestFacts.

(** ** The list reader *)

Section ListFacts.
Context {py : PyRuntime}.

(** C3. When the cache misses and [_request] returns the payload [P] with
    no error, the envelope of [_list_endpoint] has [ok = True] and
    - [items = P["items"]], [hasMore = bool(P.get("hasMore", False))] when
      [P] is a dictionary with an ["items"] key;
    - [items = P], [hasMore = (len(P) >= limit)] when [P] is a list;
    - [items = [P]], [hasMore = False] otherwise. *)
Theorem list_endpoint_envelope (endpoint : string) (offset limit : Z)
    (extra : option Params) (binary_id : option string)
    (s s1 s2 : State) (P : pyval) :
  let params := dict_update [("offset", QInt offset); ("limit", QInt limit)]
                            (default [] extra) in
  let cache_key := endpoint +:+ "_" +:+ str_or binary_id "default" in
  ttl_cache_get cache_key params s = (PNone, s1) ->
  _request "GET" endpoint (Some params) None binary_id s1 = ((P, None), s2) ->
  let resp := fst (_list_endpoint endpoint offset limit extra binary_id s) in
  (forall d items, P = PDict d -> dict_get "items" d = Some items ->
     resp = PDict [("ok", PBool true); ("items", items);
                   ("hasMore", PBool (truthy (dict_get_default "hasMore" (PBool false) d)))]) /\
  (forall l, P = PList l ->
     resp = PDict [("ok", PBool true); ("items", P);
                   ("hasMore", PBool (limit <=? Z.of_nat (length l))%Z)]) /\
  ((forall l, P <> PList l) ->
   (forall d, P = PDict d -> dict_get "items" d = None) ->
     resp = PDict [("ok", PBool true); ("items", PList [P]); ("hasMore", PBool false)]).
Proof.
  intros params cache_key Hmiss Hreq resp. subst resp.
  unfold _list_endpoint, bind. fold params. fold cache_key.
  rewrite Hmiss. cbn iota. rewrite Hreq. cbn [str_truthy].
  unfold ttl_cache_set, TTLCache_set, bind, ret. cbn [fst snd _now].
  split; [|split].
  - intros d items -> Hitems. unfold dict_mem, dict_get_default. now rewrite Hitems.
  - now intros l ->.
  - intros Hnl Hnd. destruct P as [| | | | |l|d]; try reflexivity.
    + now destruct (Hnl l).
    + unfold dict_mem. now rewrite (Hnd d eq_refl).
Qed.

(** C4. When the cache misses and [_request] returns an error message,
    [_list_endpoint] returns the envelope [{ok: False, error: message,
    items: [], hasMore: False}] and stores it under the request's key with
    the time of the store; and from any state that holds this entry, a call
    with the same arguments whose clock reading is within [CACHE_TTL] of that
    time returns the stored envelope and adds nothing to the trace: no HTTP
    call, no registry lookup. *)
Theorem list_endpoint_error_cached (endpoint : string) (offset limit : Z)
    (extra : option Params) (binary_id : option string)
    (s s1 s2 : State) (data : pyval) (e : string) :
  let params := dict_update [("offset", QInt offset); ("limit", QInt limit)]
                            (default [] extra) in
  let cache_key := endpoint +:+ "_" +:+ str_or binary_id "default" in
  let resp := PDict [("ok", PBool false); ("error", PStr e);
                     ("items", PList []); ("hasMore", PBool false)] in
  ttl_cache_get cache_key params s = (PNone, s1) ->
  _request "GET" endpoint (Some params) None binary_id s1 = ((data, Some e), s2) ->
  let out := _list_endpoint endpoint offset limit extra binary_id s in
  let t := mono_clock s2 (n_mono s2) in
  fst out = resp /\
  store (ttl_cache (snd out)) !! TTLCache__key cache_key params = Some (t, resp) /\
  trace (snd out) = trace s2 /\
  (forall s', store (ttl_cache s') !! TTLCache__key cache_key params = Some (t, resp) ->
              ttl (ttl_cache s') = CACHE_TTL ->
              (mono_clock s' (n_mono s') - t <= CACHE_TTL)%Q ->
              let out' := _list_endpoint endpoint offset limit extra binary_id s' in
              fst out' = resp /\
              trace (snd out') = trace s' /\
              n_http (snd out') = n_http s').
Proof.
  intros params cache_key resp Hmiss Hreq out t. subst out.
  assert (He : str_truthy (Some e) = true).
  { pose proof (request_error_nonempty "GET" endpoint (Some params) None binary_id s1) as Hn.
    rewrite Hreq in Hn. cbn [fst snd] in Hn. cbn [str_truthy].
    destruct (String.eqb_spec e ""); [subst; contradiction | reflexivity]. }
  split; [|split; [|split]].
  - unfold _list_endpoint, bind. fold params. fold cache_key.
    rewrite Hmiss. cbn iota. rewrite Hreq. rewrite He. reflexivity.
  - unfold _list_endpoint, bind. fold params. fold cache_key.
    rewrite Hmiss. cbn iota. rewrite Hreq. rewrite He.
    unfold ttl_cache_set, TTLCache_set, bind, ret.
    cbn [fst snd _now set_cache ttl_cache store opt_str_py]. apply lookup_insert_eq.
  - unfold _list_endpoint, bind. fold params. fold cache_key.
    rewrite Hmiss. cbn iota. rewrite Hreq. rewrite He. reflexivity.
  - intros s' Hentry Httl Hfresh out'. subst out'.
    unfold _list_endpoint, bind. fold params. fold cache_key.
    unfold ttl_cache_get.
    rewrite (TTLCache_get_hit cache_key params (ttl_cache s') s' t resp Hentry)
      by now rewrite Httl.
    cbn iota. unfold resp. cbn [ret fst snd]. repeat split.
Qed.
End ListFacts.

(** ** Pagination clamp on the way to the network *)

Section PagingFacts.
Context {py : PyRuntime}.

Lemma ttl_cache_get_trace (name : string) (params : Params) (s : State) :
  trace (snd (ttl_cache_get name params s)) = trace s.
Proof.
  unfold ttl_cache_get, TTLCache_get.
  destruct (store (ttl_cache s) !! TTLCache__key name params) as [[t v]|];
    [|reflexivity].
  unfold bind, _now, ret. cbv beta iota. destruct (Qlt_le_dec _ _); reflexivity.
Qed.

Lemma ttl_cache_set_trace (name : string) (params : Params) (v : pyval) (s : State) :
  trace (snd (ttl_cache_set name params v s)) = trace s.
Proof. reflexivity. Qed.

Lemma list_endpoint_emits (endpoint : string) (offset limit : Z)
    (extra : option Params) (binary_id : option string) :
  emits (request_event "GET"
           (Some (dict_update [("offset", QInt offset); ("limit", QInt limit)]
                              (default [] extra)))
           None binary_id)
        (_list_endpoint endpoint offset limit extra binary_id).
Proof.
  unfold _list_endpoint.
  apply emits_bind; [apply emits_silent, ttl_cache_get_trace|].
  intros cached. destruct cached; try apply emits_ret.
  apply emits_bind; [apply request_emits|].
  intros [data err]. destruct (str_truthy err).
  - apply emits_bind; [apply emits_silent, ttl_cache_set_trace | intros _; apply emits_ret].
  - match goal with |- context [let '(_, _) := ?x in _] => destruct x as [items has_more] end.
    apply emits_bind; [apply emits_silent, ttl_cache_set_trace | intros _; apply emits_ret].
Qed.

Lemma request_event_paging (params : Params) (o l : Z) (binary_id : option string)
    (e : Event) :
  dict_get "offset" params = Some (QInt o) ->
  dict_get "limit" params = Some (QInt l) ->
  request_event "GET" (Some params) None binary_id e ->
  carries_paging (o, l) e.
Proof.
  intros Ho Hl He m u p d t Heq. destruct He; try discriminate.
  unfold attempt_event in Heq. cbn in Heq. injection Heq as _ _ <- _ _.
  now split.
Qed.

Lemma list_entities_paging (kind : string) (offset limit : Z) (query : string)
    (binary_id : option string) :
  emits (carries_paging (_clamp_paging (Some offset) (Some limit)))
        (list_entities kind offset limit query binary_id).
Proof.
  unfold list_entities.
  destruct (negb (existsb (String.eqb kind) valid_kinds)).
  { apply emits_ret. }
  destruct (_clamp_paging (Some offset) (Some limit)) as [o l].
  destruct (negb (String.eqb query "") && String.eqb kind "methods").
  - eapply emits_weaken; [|apply list_endpoint_emits].
    intros e. now apply request_event_paging.
  - eapply emits_weaken; [|apply list_endpoint_emits].
    intros e. destruct (negb (String.eqb query "")); now apply request_event_paging.
Qed.

Lemma list_data_paging (offset limit : Z) (query filter_type : string)
    (binary_id : option string) :
  emits (carries_paging (_clamp_paging (Some offset) (Some limit)))
        (list_data offset limit query filter_type binary_id).
Proof.
  unfold list_data.
  destruct (_clamp_paging (Some offset) (Some limit)) as [o l].
  apply emits_bind.
  - eapply emits_weaken; [|apply list_endpoint_emits].
    intros e.
    destruct (negb (String.eqb query "")), (negb (String.eqb filter_type ""));
      now apply request_event_paging.
  - intros result. destruct (enhance_result result); [|apply emits_ret].
    now apply emits_silent.
Qed.

(** C5. [_clamp_paging(o, l)] is [(max(0, o or 0), min(MAX_LIMIT, max(1, l or
    DEFAULT_LIMIT)))]; the limit it returns lies in [1, MAX_LIMIT] and is [l]
    itself when [1 <= l <= MAX_LIMIT], the offset is [max(0, o)]; and the
    listing tools clamp before they call: every HTTP request with query
    parameters that [list_entities] or [list_data] sends carries the clamped
    offset and limit. *)
Theorem clamp_paging_spec :
  (forall offset limit : option Z,
     _clamp_paging offset limit =
       (Z.max 0 (int_or offset 0), Z.min MAX_LIMIT (Z.max 1 (int_or limit DEFAULT_LIMIT))) /\
     (1 <= snd (_clamp_paging offset limit) <= MAX_LIMIT)%Z) /\
  (forall o l : Z,
     fst (_clamp_paging (Some o) (Some l)) = Z.max 0 o /\
     ((1 <= l <= MAX_LIMIT)%Z -> snd (_clamp_paging (Some o) (Some l)) = l)) /\
  (forall kind offset limit query binary_id,
     emits (carries_paging (_clamp_paging (Some offset) (Some limit)))
           (list_entities kind offset limit query binary_id)) /\
  (forall offset limit query filter_type binary_id,
     emits (carries_paging (_clamp_paging (Some offset) (Some limit)))
           (list_data offset limit query filter_type binary_id)).
Proof.
  split; [|split; [|split]].
  - intros offset limit. split; [reflexivity | apply clamp_paging_bounds].
  - apply clamp_paging_int.
  - apply list_entities_paging.
  - apply list_data_paging.
Qed.
End PagingFacts.

(** ** The filename selector *)

Section SelectorFacts.
Context {py : PyRuntime}.

Lemma match_le_total (a b : Match) : match_le a b = true \/ match_le b a = true.
Proof.
  unfold match_le.
  destruct (m_exact_match a), (m_exact_match b); cbn; auto using String.leb_total.
Qed.

Lemma match_le_trans (a b c : Match) :
  match_le a b = true -> match_le b c = true -> match_le a c = true.
Proof.
  unfold match_le.
  destruct (m_exact_match a), (m_exact_match b), (m_exact_match c); cbn;
    try discriminate; auto; apply string_leb_trans.
Qed.

Lemma collect_matches_spec (q : string) (svs : list (string * ServerInfo)) :
  forall acc,
  (forall id info, In (id, info) svs -> exists fn, filename info = PStr fn) ->
  collect_matches q svs acc =
    inl (acc ++ map (match_of q) (List.filter (matches_query q) svs)).
Proof.
  induction svs as [|[id info] rest IH]; intros acc Hstr; cbn [collect_matches].
  - cbn. now rewrite app_nil_r.
  - destruct (Hstr id info (or_introl eq_refl)) as [fn Hfn]. rewrite Hfn.
    rewrite IH by (intros id' info' Hin; apply (Hstr id' info'); now right).
    cbn [List.filter]. unfold matches_query at 2. cbn [snd]. rewrite Hfn.
    destruct (str_in (str_lower q) (str_lower fn)); [|reflexivity].
    rewrite <- app_assoc. cbn [map app]. unfold match_of at 2. cbn [fst snd].
    now rewrite Hfn.
Qed.

(** C7. On a registry snapshot whose display filenames are strings,
    [select_binary_by_filename(q)] ranks exactly the instances whose
    filename contains [q], both in lower case; in the ranking an exact
    match (equal in lower case) never comes after a partial one, and among
    matches of the same kind filenames ascend; the selection is the first
    of the ranking; and without a match the result is [ok = False] with an
    error naming [q] and the filenames of all instances of the snapshot. *)
Theorem select_binary_by_filename_ranking (q : string) (s : State) :
  let svs := fst (get_servers s) in
  (forall id info, In (id, info) svs -> exists fn, filename info = PStr fn) ->
  exists ranked : list Match,
    Permutation ranked (map (match_of q) (List.filter (matches_query q) svs)) /\
    (forall entry, matches_query q entry = true <->
       exists fn pre post, filename (snd entry) = PStr fn /\
                           str_lower fn = pre +:+ str_lower q +:+ post) /\
    (forall m, In m ranked ->
       (m_exact_match m = true <-> str_lower q = str_lower (m_filename m))) /\
    (forall l1 a l2 b l3, ranked = l1 ++ a :: l2 ++ b :: l3 ->
       (m_exact_match b = true -> m_exact_match a = true) /\
       (m_exact_match a = m_exact_match b ->
        String.leb (m_filename a) (m_filename b) = true)) /\
    fst (select_binary_by_filename q s) =
      match ranked with
      | [] =>
          PDict [("ok", PBool false);
                 ("error", PStr ("No binary found matching filename '" +:+ q +:+ "'"));
                 ("available_binaries", PList (map filename (dict_values svs)))]
      | m :: _ =>
          PDict [("ok", PBool true);
                 ("matches", PList (map match_to_py ranked));
                 ("selected", PStr (m_binary_id m));
                 ("message", PStr ("Found " +:+ str_of_Z (Z.of_nat (length ranked))
                                   +:+ " match(es) for '" +:+ q +:+ "'"))]
      end.
Proof.
  intros svs Hstr.
  set (cands := map (match_of q) (List.filter (matches_query q) svs)).
  exists (py_sorted match_le cands).
  assert (Hperm : Permutation (py_sorted match_le cands) cands) by apply py_sorted_perm.
  split; [exact Hperm|]. split; [|split; [|split]].
  - intros [id info]. unfold matches_query. cbn [snd].
    destruct (filename info) as [| | | |fn| |]; try (split; [discriminate|]);
      try (intros [fn' [pre [post [[=] _]]]]).
    rewrite str_in_spec. split.
    + intros [pre [post E]]. now exists fn, pre, post.
    + intros [fn' [pre [post [[= <-] E]]]]. now exists pre, post.
  - intros m Hin. apply (Permutation_in _ Hperm) in Hin.
    unfold cands in Hin. apply in_map_iff in Hin as [[id info] [<- Hin]].
    apply filter_In in Hin as [Hin _].
    destruct (Hstr id info Hin) as [fn Hfn].
    unfold match_of. cbn [snd m_exact_match m_filename]. rewrite Hfn.
    apply String.eqb_eq.
  - intros l1 a l2 b l3 E.
    assert (Hle : match_le a b = true).
    { apply (strongly_sorted_app_inv match_le l1 l2 a b l3). rewrite <- E.
      apply py_sorted_sorted; [apply match_le_total | apply match_le_trans]. }
    unfold match_le in Hle.
    destruct (m_exact_match a), (m_exact_match b); cbn in Hle; split; auto; discriminate.
  - unfold select_binary_by_filename, bind. subst svs.
    destruct (get_servers s) as [svs s'] eqn:Hget. cbn [fst] in *.
    rewrite (collect_matches_spec q svs [] Hstr). cbn [app ret fst]. fold cands.
    destruct cands as [|c cs] eqn:Hc.
    + reflexivity.
    + destruct (py_sorted match_le (c :: cs)) as [|m ms] eqn:Hs.
      * apply Permutation_nil in Hperm. discriminate.
      * reflexivity.
Qed.
End SelectorFacts.

(** ** The discovery registry *)

Lemma dict_get_absent {V : Type} (k : string) (d : list (string * V)) :
  (forall k' v, In (k', v) d -> k' <> k) -> dict_get k d = None.
Proof.
  induction d as [|[k' v] d IH]; intros Hk; cbn [dict_get]; [reflexivity|].
  destruct (String.eqb_spec k k') as [->|_].
  - exfalso. apply (Hk k' v); [now left | reflexivity].
  - apply IH. intros k'' v' Hin. apply (Hk k'' v'). now right.
Qed.

Lemma dict_set_fresh {V : Type} (k : string) (v : V) (d : list (string * V)) :
  dict_get k d = None -> dict_set k v d = d ++ [(k, v)].
Proof.
  induction d as [|[k' v'] d IH]; cbn [dict_get dict_set app]; [reflexivity|].
  destruct (String.eqb k k'); [discriminate|]. intros Hd. now rewrite IH.
Qed.

Lemma server_record_key_inj (now now' : Q) (i j : nat) (st st' : list (string * pyval)) :
  fst (server_record now i st) = fst (server_record now' j st') -> i = j.
Proof.
  unfold server_record. cbn [fst]. intros E.
  apply (inj (String.append "port_")) in E. apply str_of_Z_inj in E. lia.
Qed.

Lemma probe_port_step (now : Q) (i : nat) (d : list (string * ServerInfo)) (s : State) :
  exists ev,
    probe_port now i d s =
    (match live_status (net s (n_http s)) with
     | Some st => dict_set (fst (server_record now i st)) (snd (server_record now i st)) d
     | None => d
     end,
     snd (http_call ev s)).
Proof.
  eexists. unfold probe_port, bind, requests_get, http_call, ret. cbv beta iota.
  cbn [snd]. f_equal.
  unfold live_status. destruct (net s (n_http s)) as [e|r]; [reflexivity|].
  destruct (status_code r =? 200)%Z; [|reflexivity].
  destruct (json r) as [[| | | | | |st]|]; try reflexivity.
  destruct (truthy (dict_get_default "loaded" PNone st)); reflexivity.
Qed.

Lemma sweep_from_ext (now : Q) (o1 o2 : nat -> HttpOutcome) (n : nat) :
  forall a, (forall i, (i < n)%nat -> o1 i = o2 i) ->
  sweep_from now o1 a n = sweep_from now o2 a n.
Proof.
  revert o1 o2. induction n as [|n IH]; intros o1 o2 a Ho; cbn [sweep_from]; [reflexivity|].
  rewrite (Ho 0%nat) by lia. f_equal. apply IH. intros i Hi. apply Ho. lia.
Qed.

Lemma probe_ports_sweep (now : Q) (n : nat) :
  forall (a : nat) (d : list (string * ServerInfo)) (s : State),
  (forall k v, In (k, v) d ->
     exists j st, (j < a)%nat /\ k = fst (server_record now j st)) ->
  fst (probe_ports now (seq a n) d s)
    = d ++ sweep_from now (fun i => net s (n_http s + i)%nat) a n.
Proof.
  induction n as [|n IH]; intros a d s Hd; cbn [seq probe_ports sweep_from].
  - cbn. now rewrite app_nil_r.
  - unfold bind. destruct (probe_port_step now a d s) as [ev Hstep]. rewrite Hstep.
    rewrite IH.
    + cbn [http_call snd n_http net]. rewrite Nat.add_0_r.
      rewrite (sweep_from_ext now (fun i => net s (S (n_http s) + i)%nat)
                 (fun i => net s (n_http s + S i)%nat)) by (intros; f_equal; lia).
      destruct (live_status (net s (n_http s))) as [st|]; [|reflexivity].
      rewrite dict_set_fresh; [now rewrite <- app_assoc|].
      apply dict_get_absent. intros k' v Hin E.
      destruct (Hd k' v Hin) as [j [st' [Hj ->]]].
      apply server_record_key_inj in E. lia.
    + intros k v Hin.
      destruct (live_status (net s (n_http s))) as [st|].
      * rewrite dict_set_fresh in Hin.
        -- apply in_app_or in Hin as [Hin|[[= <- _]|[]]].
           ++ destruct (Hd k v Hin) as [j [st' [Hj ->]]]. exists j, st'. split; [lia | reflexivity].
           ++ exists a, st. split; [lia | reflexivity].
        -- apply dict_get_absent. intros k' v' Hin' E.
           destruct (Hd k' v' Hin') as [j [st' [Hj ->]]].
           apply server_record_key_inj in E. lia.
      * destruct (Hd k v Hin) as [j [st' [Hj ->]]]. exists j, st'. split; [lia | reflexivity].
Qed.

(** A sweep that runs replaces the registry by what it found. *)
Lemma discover_servers_stale (s : State) :
  let now := wall_clock s (n_wall s) in
  (discovery_interval (server_registry s) <= now - last_discovery (server_registry s))%Q ->
  servers (server_registry (snd (discover_servers s)))
    = sweep_from now (fun i => net s (n_http s + i)%nat) 0 MAX_SERVERS.
Proof.
  intros now Hstale. unfold discover_servers, bind, time_time. cbv beta iota.
  cbn [server_registry]. fold now.
  destruct (Qlt_le_dec _ _) as [Hlt|_].
  { exfalso. exact (Qlt_not_le _ _ Hlt Hstale). }
  match goal with |- context [probe_ports now ?l ?d ?s0] =>
    pose proof (probe_ports_sweep now MAX_SERVERS 0 d s0) as Hs;
    destruct (probe_ports now l d s0) as [discovered s'] end.
  cbn [snd set_registry server_registry servers]. cbn [fst] in Hs.
  rewrite Hs; [reflexivity|]. intros k v [].
Qed.

Lemma head_sweep_from (now : Q) (n : nat) :
  forall (o : nat -> HttpOutcome) (a : nat) (e : string * ServerInfo),
  head (sweep_from now o a n) = Some e <->
  exists i st, (i < n)%nat /\ live_status (o i) = Some st /\
               (forall j, (j < i)%nat -> live_status (o j) = None) /\
               e = server_record now (a + i) st.
Proof.
  induction n as [|n IH]; intros o a e; cbn [sweep_from].
  - split; [discriminate | intros [i [st [Hi _]]]; lia].
  - destruct (live_status (o 0%nat)) as [st|] eqn:E0; cbn [app head].
    + split.
      * intros [= <-]. exists 0%nat, st. rewrite Nat.add_0_r.
        repeat split; [lia | exact E0 | intros j Hj; lia].
      * intros [i [st' [Hi [Hl [Hmin ->]]]]].
        destruct i as [|i].
        -- rewrite E0 in Hl. injection Hl as <-. now rewrite Nat.add_0_r.
        -- rewrite (Hmin 0%nat) in E0 by lia. discriminate.
    + rewrite IH. split.
      * intros [i [st [Hi [Hl [Hmin ->]]]]]. exists (S i), st.
        repeat split; [lia | exact Hl | | f_equal; lia].
        intros [|j] Hj; [exact E0 | apply Hmin; lia].
      * intros [i [st [Hi [Hl [Hmin ->]]]]].
        destruct i as [|i]; [rewrite E0 in Hl; discriminate|].
        exists i, st. repeat split; [lia | exact Hl | | f_equal; lia].
        intros j Hj. apply (Hmin (S j)). lia.
Qed.

Lemma head_sweep_same (now1 now2 : Q) (n : nat) :
  forall (o1 o2 : nat -> HttpOutcome) (a : nat),
  (forall i, (i < n)%nat -> live_status (o1 i) = live_status (o2 i)) ->
  same_instance (head (dict_values (sweep_from now1 o1 a n)))
                (head (dict_values (sweep_from now2 o2 a n))) /\
  (now1 = now2 -> sweep_from now1 o1 a n = sweep_from now2 o2 a n).
Proof.
  induction n as [|n IH]; intros o1 o2 a Ho; cbn [sweep_from].
  - split; [exact I | reflexivity].
  - rewrite <- (Ho 0%nat) by lia.
    destruct (IH (fun i => o1 (S i)) (fun i => o2 (S i)) (S a)) as [IH1 IH2].
    { intros i Hi. apply Ho. lia. }
    destruct (live_status (o1 0%nat)) as [st|]; cbn [app].
    + split; [cbn; auto|]. intros E. rewrite (IH2 E). now subst.
    + split; [exact IH1 | exact IH2].
Qed.

Lemma get_default_server_head (s : State) :
  fst (get_default_server s)
    = head (dict_values (servers (server_registry (snd (get_default_server s))))).
Proof.
  unfold get_default_server, get_servers, bind, ret. cbv beta iota.
  destruct (discover_servers (log_event EvGetDefaultServer s)) as [[] s']. reflexivity.
Qed.

Lemma get_default_server_sweep (s : State) :
  let now := wall_clock s (n_wall s) in
  (discovery_interval (server_registry s) <= now - last_discovery (server_registry s))%Q ->
  servers (server_registry (snd (get_default_server s)))
    = sweep_from now (fun i => net s (n_http s + i)%nat) 0 MAX_SERVERS.
Proof.
  intros now Hstale.
  pose proof (discover_servers_stale (log_event EvGetDefaultServer s) Hstale) as Hd.
  unfold get_default_server, get_servers, bind, ret. cbv beta iota.
  destruct (discover_servers (log_event EvGetDefaultServer s)) as [[] s']. exact Hd.
Qed.

(** C8. [get_default_server] returns [None] exactly when the registry, after
    the refresh the call may trigger, holds no instance, and otherwise the
    first entry of the registry.  When the call sweeps, the registry becomes
    the list of live ports in port order, so the default is the record of the
    lowest live port; and two sweeping runs that observe the same live ports
    with the same status payloads obtain the same instance: records equal in
    every field but [last_seen], and equal in that too when the sweeps read the
    same clock value. *)
Theorem get_default_server_deterministic :
  (forall s,
     let out := get_default_server s in
     (fst out = None <-> servers (server_registry (snd out)) = []) /\
     fst out = head (dict_values (servers (server_registry (snd out))))) /\
  (forall s,
     let now := wall_clock s (n_wall s) in
     (discovery_interval (server_registry s)
        <= now - last_discovery (server_registry s))%Q ->
     let out := get_default_server s in
     servers (server_registry (snd out))
       = sweep_from now (fun i => net s (n_http s + i)%nat) 0 MAX_SERVERS /\
     (forall info, fst out = Some info <->
        exists i st, (i < MAX_SERVERS)%nat /\
                     live_status (net s (n_http s + i)) = Some st /\
                     (forall j, (j < i)%nat -> live_status (net s (n_http s + j)) = None) /\
                     info = snd (server_record now i st))) /\
  (forall s1 s2,
     let now1 := wall_clock s1 (n_wall s1) in
     let now2 := wall_clock s2 (n_wall s2) in
     (discovery_interval (server_registry s1)
        <= now1 - last_discovery (server_registry s1))%Q ->
     (discovery_interval (server_registry s2)
        <= now2 - last_discovery (server_registry s2))%Q ->
     (forall i, (i < MAX_SERVERS)%nat ->
        live_status (net s1 (n_http s1 + i)) = live_status (net s2 (n_http s2 + i))) ->
     same_instance (fst (get_default_server s1)) (fst (get_default_server s2)) /\
     (now1 = now2 -> fst (get_default_server s1) = fst (get_default_server s2))).
Proof.
  split; [|split].
  - intros s out. subst out. split; [|apply get_default_server_head].
    rewrite get_default_server_head.
    destruct (servers (server_registry (snd (get_default_server s)))) as [|e l].
    + now split.
    + split; discriminate.
  - intros s now Hstale out. subst out.
    split; [now apply get_default_server_sweep|].
    intros info. rewrite get_default_server_head, (get_default_server_sweep s Hstale).
    fold now. unfold dict_values.
    destruct (sweep_from now (fun i => net s (n_http s + i)%nat) 0 MAX_SERVERS)
      as [|e l] eqn:Hsw.
    + split; [discriminate|].
      intros [i [st [Hi [Hl [Hmin ->]]]]].
      assert (Hh : head (sweep_from now (fun i => net s (n_http s + i)%nat) 0 MAX_SERVERS)
                   = Some (server_record now (0 + i) st)).
      { apply head_sweep_from. exists i, st. auto. }
      rewrite Hsw in Hh. discriminate.
    + assert (Hh : head (sweep_from now (fun i => net s (n_http s + i)%nat) 0 MAX_SERVERS)
                   = Some e) by now rewrite Hsw.
      apply head_sweep_from in Hh as [i [st [Hi [Hl [Hmin ->]]]]].
      cbn [map head]. split.
      * intros [= <-]. exists i, st. auto.
      * intros [i' [st' [Hi' [Hl' [Hmin' ->]]]]].
        assert (i' = i).
        { destruct (Nat.lt_trichotomy i' i) as [Hlt|[Heq|Hgt]]; [|exact Heq|].
          - rewrite (Hmin i' Hlt) in Hl'. discriminate.
          - rewrite (Hmin' i Hgt) in Hl. discriminate. }
        subst i'. rewrite Hl in Hl'. now injection Hl' as <-.
  - intros s1 s2 now1 now2 Hst1 Hst2 Hobs.
    rewrite !get_default_server_head.
    rewrite (get_default_server_sweep s1 Hst1), (get_default_server_sweep s2 Hst2).
    fold now1. fold now2.
    destruct (head_sweep_same now1 now2 MAX_SERVERS
                (fun i => net s1 (n_http s1 + i)%nat)
                (fun i => net s2 (n_http s2 + i)%nat) 0 Hobs) as [Hsame Heq].
    split; [exact Hsame|]. intros E. now rewrite (Heq E).
Qed.

(** ** The empty [binary_id] *)

Lemma dict_get_set_other {V : Type} (k k' : string) (v : V) (d : list (string * V)) :
  k <> k' -> dict_get k (dict_set k' v d) = dict_get k d.
Proof.
  intros Hk. induction d as [|[k0 v0] d IH]; cbn [dict_set dict_get].
  - destruct (String.eqb_spec k k'); [contradiction | reflexivity].
  - destruct (String.eqb_spec k' k0) as [->|Hn]; cbn [dict_get].
    + destruct (String.eqb_spec k k0); [contradiction | reflexivity].
    + destruct (String.eqb k k0); [reflexivity | exact IH].
Qed.


Section DefaultTargetFacts.
Context {py : PyRuntime}.






















End DefaultTargetFacts.

(** * Worked examples *)

(** Two refused connections, then an answer. *)
Lemma request_retry_bound_witness :
  let s := process_with (one_live ++ [refused; refused; reply 200 "OK" (Some numbers)]) in
  let s1 := snd (resolve_target None s) in
  let ev := EvHttp "GET" "http://localhost:9009/methods" None None NoTimeout in
  let out := _request (py:=ascii_runtime) "GET" "methods" None None None s in
  resolve_target None s = (inl "http://localhost:9009", s1) /\
  fst out = (numbers, None) /\
  trace (snd out) = trace s1 ++ [ev; EvSleep (2 # 10); ev; EvSleep (4 # 10); ev].
Proof.
  intros s s1 ev out.
  assert (Hres : resolve_target None s = (inl "http://localhost:9009", s1))
    by (vm_compute; reflexivity).
  split; [exact Hres|].
  destruct (proj1 (request_retry_bound (py:=ascii_runtime) "GET" "methods" None None None s)
              "http://localhost:9009" s1 Hres) as [_ Hrun].
  destruct (Hrun 2%nat
              {| status_code := 200; reason := "OK"; json := Some numbers; text := "" |}
              numbers) as [R1 [R2 _]].
  - unfold MAX_RETRIES. lia.
  - intros i Hi.
    destruct i as [|[|i]];
      [eexists; vm_compute; reflexivity | eexists; vm_compute; reflexivity | lia].
  - vm_compute. reflexivity.
  - cbn. lia.
  - vm_compute. reflexivity.
  - split; [exact R1 | exact R2].
Defined.

(** HTTP 500 on the first attempt. *)
Lemma request_status_error_no_retry_witness :
  let s := process_with (one_live ++ [reply 500 "Internal Server Error" None]) in
  let s1 := snd (resolve_target None s) in
  let out := _request (py:=ascii_runtime) "GET" "methods" None None None s in
  resolve_target None s = (inl "http://localhost:9009", s1) /\
  fst out = (PNone, Some "500 Internal Server Error") /\
  trace (snd out)
    = trace s1 ++ [EvHttp "GET" "http://localhost:9009/methods" None None NoTimeout].
Proof.
  intros s s1 out.
  assert (Hres : resolve_target None s = (inl "http://localhost:9009", s1))
    by (vm_compute; reflexivity).
  split; [exact Hres|].
  destruct (request_status_error_no_retry (py:=ascii_runtime)
              "GET" "methods" None None None s s1 "http://localhost:9009" 0
              {| status_code := 500; reason := "Internal Server Error";
                 json := None; text := "" |} Hres) as [R1 [_ [_ [_ R2]]]].
  - unfold MAX_RETRIES. lia.
  - intros i Hi. lia.
  - vm_compute. reflexivity.
  - cbn. lia.
  - split; [exact R1 | exact (R2 eq_refl)].
Defined.

(** The payload [[1, 2, 3]] under page limits 3 and 5. *)
Lemma list_endpoint_envelope_witness :
  let s := process_with (one_live ++ [reply 200 "OK" (Some numbers)]) in
  let page (l : Z) := fst (_list_endpoint (py:=ascii_runtime) "methods" 0 l None None s) in
  ttl_cache_get "methods_default" [("offset", QInt 0); ("limit", QInt 3)] s = (PNone, s) /\
  page 3 = PDict [("ok", PBool true); ("items", numbers); ("hasMore", PBool true)] /\
  page 5 = PDict [("ok", PBool true); ("items", numbers); ("hasMore", PBool false)].
Proof.
  intros s page.
  assert (Hmiss : forall l, ttl_cache_get "methods_default"
                              [("offset", QInt 0); ("limit", QInt l)] s = (PNone, s))
    by (intros l; vm_compute; reflexivity).
  split; [apply Hmiss|]. split.
  - refine (proj1 (proj2 (list_endpoint_envelope (py:=ascii_runtime)
              "methods" 0 3 None None s s _ numbers (Hmiss 3) _)) _ eq_refl).
    vm_compute. reflexivity.
  - refine (proj1 (proj2 (list_endpoint_envelope (py:=ascii_runtime)
              "methods" 0 5 None None s s _ numbers (Hmiss 5) _)) _ eq_refl).
    vm_compute. reflexivity.
Defined.


(** HTTP 500 behind a list call, and the same call again one second later. *)
Lemma list_endpoint_error_cached_witness :
  let s := process_with (one_live ++ [reply 500 "Internal Server Error" None]) in
  let resp := PDict [("ok", PBool false); ("error", PStr "500 Internal Server Error");
                     ("items", PList []); ("hasMore", PBool false)] in
  let out := _list_endpoint (py:=ascii_runtime) "methods" 0 100 None None s in
  let out' := _list_endpoint (py:=ascii_runtime) "methods" 0 100 None None (snd out) in
  ttl_cache_get "methods_default" [("offset", QInt 0); ("limit", QInt 100)] s = (PNone, s) /\
  fst out = resp /\
  fst out' = resp /\
  trace (snd out') = trace (snd out) /\
  n_http (snd out') = n_http (snd out).
Proof.
  intros s resp out out'.
  assert (Hmiss : ttl_cache_get "methods_default"
                    [("offset", QInt 0); ("limit", QInt 100)] s = (PNone, s))
    by (vm_compute; reflexivity).
  split; [exact Hmiss|].
  destruct (list_endpoint_error_cached (py:=ascii_runtime) "methods" 0 100 None None
              s s
              (snd (_request (py:=ascii_runtime) "GET" "methods"
                      (Some [("offset", QInt 0); ("limit", QInt 100)]) None None s))
              PNone "500 Internal Server Error" Hmiss)
    as [R1 [R2 [_ R4]]].
  - vm_compute. reflexivity.
  - split; [exact R1|].
    apply (R4 (snd out) R2).
    + vm_compute. reflexivity.
    + vm_compute. intros E. discriminate E.
Defined.

Lemma clamp_paging_spec_witness :
  (1 <= 50 <= MAX_LIMIT)%Z /\
  snd (_clamp_paging (Some 7) (Some 50)) = 50%Z /\
  _clamp_paging (Some (-5)%Z) (Some 5000%Z) = (0%Z, 1000%Z) /\
  _clamp_paging None None = (0%Z, 100%Z).
Proof.
  assert (Hl : (1 <= 50 <= MAX_LIMIT)%Z) by (unfold MAX_LIMIT; lia).
  split; [exact Hl|].
  destruct (clamp_paging_spec (py:=ascii_runtime)) as [A [B _]].
  split; [exact (proj2 (B 7%Z 50%Z) Hl)|].
  split; [exact (proj1 (A (Some (-5)%Z) (Some 5000%Z))) | exact (proj1 (A None None))].
Defined.


(** Three instances and the query ["a.exe"]. *)
Lemma select_binary_by_filename_ranking_witness :
  let s := process_with (loaded "xa.exe" :: loaded "a.exe" :: loaded "A.EXE"
                           :: repeat refused 7) in
  let svs := fst (get_servers s) in
  (forall id info, In (id, info) svs -> exists fn, filename info = PStr fn) /\
  exists ranked : list Match,
    Permutation ranked
      (map (match_of (py:=ascii_runtime) "a.exe")
           (List.filter (matches_query (py:=ascii_runtime) "a.exe") svs)) /\
    (forall l1 a l2 b l3, ranked = l1 ++ a :: l2 ++ b :: l3 ->
       (m_exact_match b = true -> m_exact_match a = true) /\
       (m_exact_match a = m_exact_match b ->
        String.leb (m_filename a) (m_filename b) = true)).
Proof.
  intros s svs.
  assert (Hstr : forall id info, In (id, info) svs -> exists fn, filename info = PStr fn).
  { intros id info Hin. vm_compute in Hin.
    destruct Hin as [E|[E|[E|[]]]]; injection E as _ <-; eexists; reflexivity. }
  split; [exact Hstr|].
  destruct (select_binary_by_filename_ranking (py:=ascii_runtime) "a.exe" s Hstr)
    as [ranked [Hperm [_ [_ [Hrank _]]]]].
  exists ranked. split; [exact Hperm | exact Hrank].
Defined.

(** Two sweeps, an hour apart, that both find ports 9010 and 9011 live. *)
Lemma get_default_server_deterministic_witness :
  let s1 := process 1000 0 (refused :: loaded "b.exe" :: loaded "c.exe"
                              :: repeat refused 7) in
  let s2 := process 4600 0 (reply 503 "Service Unavailable" None :: loaded "b.exe"
                              :: loaded "c.exe" :: repeat refused 7) in
  (discovery_interval (server_registry s1)
     <= wall_clock s1 (n_wall s1) - last_discovery (server_registry s1))%Q /\
  (discovery_interval (server_registry s2)
     <= wall_clock s2 (n_wall s2) - last_discovery (server_registry s2))%Q /\
  (forall i, (i < MAX_SERVERS)%nat ->
     live_status (net s1 (n_http s1 + i)) = live_status (net s2 (n_http s2 + i))) /\
  same_instance (fst (get_default_server s1)) (fst (get_default_server s2)).
Proof.
  intros s1 s2.
  assert (H1 : (discovery_interval (server_registry s1)
                  <= wall_clock s1 (n_wall s1) - last_discovery (server_registry s1))%Q)
    by (vm_compute; intros E; discriminate E).
  assert (H2 : (discovery_interval (server_registry s2)
                  <= wall_clock s2 (n_wall s2) - last_discovery (server_registry s2))%Q)
    by (vm_compute; intros E; discriminate E).
  assert (Hobs : forall i, (i < MAX_SERVERS)%nat ->
            live_status (net s1 (n_http s1 + i)) = live_status (net s2 (n_http s2 + i))).
  { intros i Hi. unfold MAX_SERVERS in Hi.
    do 10 (destruct i as [|i]; [vm_compute; reflexivity|]). lia. }
  split; [exact H1|]. split; [exact H2|]. split; [exact Hobs|].
  exact (proj1 (proj2 (proj2 get_default_server_deterministic) s1 s2 H1 H2 Hobs)).
Defined.

(** The status request of a process with one live instance: the session was
    given [timeout = (CONNECT_TIMEOUT, READ_TIMEOUT)], the call goes out with
    none. *)
Example status_request_goes_without_timeout :
  let s := process_with (one_live ++ [loaded "a.exe"]) in
  last (trace (snd (_request (py:=ascii_runtime) "GET" "status" None None None s)))
    = Some (EvHttp "GET" "http://localhost:9009/status" None None NoTimeout).
Proof. vm_compute. reflexivity. Qed.

(** The spec's selector example: ["a.exe"] and ["ab.exe"] under the query ["a"]. *)
Example select_a_before_ab :
  let s := process_with (loaded "ab.exe" :: loaded "a.exe" :: repeat refused 8) in
  result_field "selected" (fst (select_binary_by_filename (py:=ascii_runtime) "a" s))
    = Some (PStr "port_9010").
Proof. vm_compute. reflexivity. Qed.


(** * Further properties *)

(** ** The retry loop, exhausted *)

Section ExhaustionFacts.
Context {py : PyRuntime}.

Lemma request_attempts_fail_step (sess : Session) (method u : string)
    (params : option Params) (data : option string)
    (attempt : nat) (rest : list nat) (last_err : option string) (s : State) :
  attempt_result (net s (n_http s)) = None ->
  exists s',
    request_attempts sess method u params data (attempt :: rest) last_err s =
    request_attempts sess method u params data rest
      (Some (failure_message (net s (n_http s)))) s' /\
    net s' = net s /\ n_http s' = S (n_http s) /\
    trace s' = trace s ++ failed_attempt_events (attempt_event method u params data) attempt.
Proof.
  intros Hfail. unfold attempt_event, failed_attempt_events.
  cbn [request_attempts].
  unfold bind, session_get, session_post, Session_request, http_call, time_sleep, ret.
  destruct (String.eqb method "GET"); cbv beta iota;
    (destruct (net s (n_http s)) as [e|r]; cbn [attempt_result failure_message] in *;
     [ destruct (attempt <? MAX_RETRIES)%nat; eexists; (split; [reflexivity|]);
       cbn [log_event net n_http trace]; rewrite <- ?app_assoc; auto
     | destruct ((200 <=? status_code r)%Z && (status_code r <? 300)%Z); [|discriminate];
       destruct (decode_body r) as [v|e]; [discriminate|];
       destruct (attempt <? MAX_RETRIES)%nat; eexists; (split; [reflexivity|]);
       cbn [log_event net n_http trace]; rewrite <- ?app_assoc; auto ]).
Qed.

Lemma request_attempts_all_fail (sess : Session) (method u : string)
    (params : option Params) (data : option string) (n : nat) :
  forall (a : nat) (last_err : option string) (s : State),
  (forall i, (i < n)%nat -> attempt_result (net s (n_http s + i)) = None) ->
  let out := request_attempts sess method u params data (seq a n) last_err s in
  fst out = (PNone,
             Some (str_or match n with
                          | O => last_err
                          | S n' => Some (failure_message (net s (n_http s + n')))
                          end "unknown error")) /\
  trace (snd out)
    = trace s ++ flat_map (failed_attempt_events (attempt_event method u params data))
                          (seq a n).
Proof.
  induction n as [|n IH]; intros a last_err s Hfail out; subst out.
  - cbn. now rewrite app_nil_r.
  - cbn [seq].
    pose proof (Hfail 0%nat ltac:(lia)) as H0. rewrite Nat.add_0_r in H0.
    destruct (request_attempts_fail_step sess method u params data a (seq (S a) n)
                last_err s H0) as [s' [Hstep [Hnet [Hhttp Htrace]]]].
    rewrite Hstep.
    destruct (IH (S a) (Some (failure_message (net s (n_http s)))) s') as [R1 R2].
    { intros i Hi. rewrite Hnet, Hhttp.
      replace (S (n_http s) + i)%nat with (n_http s + S i)%nat by lia.
      apply Hfail. lia. }
    split.
    + rewrite R1. destruct n as [|n']; [now rewrite Nat.add_0_r|].
      rewrite Hnet, Hhttp.
      now replace (S (n_http s) + n')%nat with (n_http s + S n')%nat by lia.
    + rewrite R2, Htrace. cbn [flat_map]. now rewrite <- app_assoc.
Qed.

(** X1. When every one of the [MAX_RETRIES + 1] attempts ends in the
    [except] branch (the call raised, or a 2xx body that looks like JSON did
    not parse), [_request] returns [(None, message)] with the message of the
    last failure, or ["unknown error"] when that message is empty; it has made
    [MAX_RETRIES + 1] calls and slept after each but the last. *)
Theorem request_exhausted (method endpoint : string) (params : option Params)
    (data : option string) (binary_id : option string)
    (s s1 : State) (base_url : string) :
  resolve_target binary_id s = (inl base_url, s1) ->
  (forall i, (i <= MAX_RETRIES)%nat ->
     attempt_result (net s1 (n_http s1 + i)) = None) ->
  let ev := attempt_event method (base_url +:+ "/" +:+ endpoint) params data in
  let msg := failure_message (net s1 (n_http s1 + MAX_RETRIES)) in
  let out := _request method endpoint params data binary_id s in
  fst out = (PNone, Some (if String.eqb msg "" then "unknown error" else msg)) /\
  trace (snd out)
    = trace s1 ++ [ev; EvSleep (RETRY_BACKOFF_BASE * 1); ev;
                   EvSleep (RETRY_BACKOFF_BASE * 2); ev] /\
  http_count [ev; EvSleep (RETRY_BACKOFF_BASE * 1); ev;
              EvSleep (RETRY_BACKOFF_BASE * 2); ev] = (MAX_RETRIES + 1)%nat.
Proof.
  intros Hres Hfail ev msg out. subst out. unfold _request, bind. rewrite Hres.
  destruct (request_attempts_all_fail
              {| session_timeout := Some (CONNECT_TIMEOUT, READ_TIMEOUT) |}
              method (base_url +:+ "/" +:+ endpoint) params data
              (MAX_RETRIES + 1) 0 None s1) as [R1 R2].
  { intros i Hi. apply Hfail. lia. }
  split; [exact R1|]. split; [exact R2|].
  unfold http_count, ev, attempt_event. destruct (String.eqb method "GET"); reflexivity.
Qed.
End ExhaustionFacts.

(** ** Discovery: throttle, sweep and liveness *)

Lemma discover_servers_fresh (s : State) :
  (wall_clock s (n_wall s) - last_discovery (server_registry s)
     < discovery_interval (server_registry s))%Q ->
  discover_servers s = (tt, snd (time_time s)).
Proof.
  intros Hfresh. unfold discover_servers, bind, time_time. cbv beta iota.
  cbn [server_registry snd].
  destruct (Qlt_le_dec _ _) as [_|Hle]; [reflexivity|].
  exfalso. exact (Qlt_not_le _ _ Hfresh Hle).
Qed.

Lemma probe_port_state (now : Q) (i : nat) (d : list (string * ServerInfo)) (s : State) :
  snd (probe_port now i d s) = snd (http_call (probe_event i) s).
Proof. reflexivity. Qed.

Lemma probe_ports_frame (now : Q) (n : nat) :
  forall (a : nat) (d : list (string * ServerInfo)) (s : State),
  let s' := snd (probe_ports now (seq a n) d s) in
  trace s' = trace s ++ map probe_event (seq a n) /\
  n_http s' = (n_http s + n)%nat /\
  net s' = net s /\
  wall_clock s' = wall_clock s /\ n_wall s' = n_wall s /\
  mono_clock s' = mono_clock s /\ n_mono s' = n_mono s /\
  server_registry s' = server_registry s /\
  ttl_cache s' = ttl_cache s.
Proof.
  induction n as [|n IH]; intros a d s; cbn [seq probe_ports map].
  - cbn. rewrite app_nil_r, Nat.add_0_r. repeat split.
  - unfold bind. pose proof (probe_port_state now a d s) as Hst.
    destruct (probe_port now a d s) as [d' s1]. cbn [snd] in Hst. subst s1.
    destruct (IH (S a) d' (snd (http_call (probe_event a) s)))
      as [T [N [E [W1 [W2 [M1 [M2 [R C]]]]]]]].
    cbv zeta.
    split; [rewrite T; cbn [http_call snd trace]; now rewrite <- app_assoc|].
    split; [rewrite N; cbn [http_call snd n_http]; lia|].
    split; [now rewrite E|]. split; [now rewrite W1|]. split; [now rewrite W2|].
    split; [now rewrite M1|]. split; [now rewrite M2|]. split; [now rewrite R|].
    now rewrite C.
Qed.

(** X2. Within [discovery_interval] of the last sweep the registry answers
    from the mapping it holds: [discover_servers] only reads the clock, and
    [get_servers], [get_server_by_id] and [get_default_server] probe no port
    and leave the mapping and [last_discovery] as they are. *)
Theorem registry_reads_within_interval (s : State) :
  (wall_clock s (n_wall s) - last_discovery (server_registry s)
     < discovery_interval (server_registry s))%Q ->
  discover_servers s = (tt, snd (time_time s)) /\
  get_servers s = (servers (server_registry s), snd (time_time s)) /\
  (forall id,
     let out := get_server_by_id id s in
     fst out = dict_get id (servers (server_registry s)) /\
     trace (snd out) = trace s ++ [EvGetServerById id] /\
     n_http (snd out) = n_http s /\
     server_registry (snd out) = server_registry s) /\
  (let out := get_default_server s in
   fst out = head (dict_values (servers (server_registry s))) /\
   trace (snd out) = trace s ++ [EvGetDefaultServer] /\
   n_http (snd out) = n_http s /\
   server_registry (snd out) = server_registry s).
Proof.
  intros Hfresh.
  assert (Hd : discover_servers s = (tt, snd (time_time s)))
    by now apply discover_servers_fresh.
  split; [exact Hd|]. split; [|split].
  - unfold get_servers, bind. now rewrite Hd.
  - intros id out. subst out. unfold get_server_by_id, bind. cbv beta iota.
    rewrite (discover_servers_fresh (log_event (EvGetServerById id) s) Hfresh).
    repeat split.
  - unfold get_default_server, get_servers, bind, ret. cbv beta iota.
    rewrite (discover_servers_fresh (log_event EvGetDefaultServer s) Hfresh).
    repeat split.
Qed.

Lemma discover_servers_stale_trace (s : State) :
  (discovery_interval (server_registry s)
     <= wall_clock s (n_wall s) - last_discovery (server_registry s))%Q ->
  trace (snd (discover_servers s)) = trace s ++ map probe_event (seq 0 MAX_SERVERS).
Proof.
  intros Hstale. unfold discover_servers, bind, time_time. cbv beta iota.
  cbn [server_registry].
  destruct (Qlt_le_dec _ _) as [Hlt|_].
  { exfalso. exact (Qlt_not_le _ _ Hlt Hstale). }
  match goal with |- context [probe_ports ?now ?l ?d ?s0] =>
    pose proof (probe_ports_frame now MAX_SERVERS 0 d s0) as Hf;
    destruct (probe_ports now l d s0) as [discovered s1] end.
  cbn [snd] in *. destruct Hf as [T _]. cbn [trace] in T. exact T.
Qed.

(** X3. A sweep probes every port of [BINJA_BASE_PORT .. BINJA_BASE_PORT +
    MAX_SERVERS - 1] once, in ascending order and with a 2 s timeout each,
    whatever the probes answer; it replaces the mapping by what it found,
    whatever the mapping held, stamps [last_discovery] with the time read at
    its start and leaves the cache alone; and a refresh that follows before
    [discovery_interval] has passed does nothing. *)
Theorem discover_servers_sweep (s : State) :
  let now := wall_clock s (n_wall s) in
  (discovery_interval (server_registry s)
     <= now - last_discovery (server_registry s))%Q ->
  let s' := snd (discover_servers s) in
  trace s' = trace s ++ map probe_event (seq 0 MAX_SERVERS) /\
  n_http s' = (n_http s + MAX_SERVERS)%nat /\
  servers (server_registry s')
    = sweep_from now (fun i => net s (n_http s + i)%nat) 0 MAX_SERVERS /\
  last_discovery (server_registry s') = now /\
  discovery_interval (server_registry s') = discovery_interval (server_registry s) /\
  ttl_cache s' = ttl_cache s /\
  ((wall_clock s (S (n_wall s)) - now < discovery_interval (server_registry s))%Q ->
   discover_servers s' = (tt, snd (time_time s'))).
Proof.
  intros now Hstale s'.
  assert (Hsw := discover_servers_stale s Hstale). fold now in Hsw. fold s' in Hsw.
  subst s'. revert Hsw. unfold discover_servers, bind, time_time. cbv beta iota.
  cbn [server_registry]. fold now.
  destruct (Qlt_le_dec _ _) as [Hlt|_].
  { exfalso. exact (Qlt_not_le _ _ Hlt Hstale). }
  match goal with |- context [probe_ports now ?l ?d ?s0] =>
    pose proof (probe_ports_frame now MAX_SERVERS 0 d s0) as Hf;
    destruct (probe_ports now l d s0) as [discovered s1] end.
  cbn [snd] in *.
  destruct Hf as [T [N [E [W1 [W2 [M1 [M2 [R C]]]]]]]].
  cbn [trace n_http wall_clock n_wall ttl_cache] in T, N, W1, W2, C.
  intros Hsw.
  split; [exact T|]. split; [exact N|]. split; [exact Hsw|].
  split; [reflexivity|]. split; [reflexivity|]. split; [exact C|].
  intros Hnext. apply discover_servers_fresh.
  cbn [set_registry wall_clock n_wall server_registry last_discovery discovery_interval].
  rewrite W1, W2. exact Hnext.
Qed.

Lemma in_sweep_from (now : Q) (n : nat) :
  forall (o : nat -> HttpOutcome) (a : nat) (e : string * ServerInfo),
  In e (sweep_from now o a n) <->
  exists i st, (i < n)%nat /\ live_status (o i) = Some st /\
               e = server_record now (a + i) st.
Proof.
  induction n as [|n IH]; intros o a e; cbn [sweep_from].
  - split; [intros [] | intros [i [st [Hi _]]]; lia].
  - rewrite in_app_iff, IH. split.
    + intros [Hhead | [i [st [Hi [Hl ->]]]]].
      * destruct (live_status (o 0%nat)) as [st|] eqn:E0; [|destruct Hhead].
        destruct Hhead as [<-|[]]. exists 0%nat, st. rewrite Nat.add_0_r.
        repeat split; [lia | exact E0].
      * exists (S i), st. repeat split; [lia | exact Hl | f_equal; lia].
    + intros [[|i] [st [Hi [Hl ->]]]].
      * left. rewrite Hl, Nat.add_0_r. now left.
      * right. exists i, st. repeat split; [lia | exact Hl | f_equal; lia].
Qed.

Lemma dict_get_sweep_from (now : Q) (n : nat) :
  forall (o : nat -> HttpOutcome) (a i : nat) (st0 : list (string * pyval)),
  (i < n)%nat ->
  dict_get (fst (server_record now (a + i) st0)) (sweep_from now o a n)
    = option_map (fun st => snd (server_record now (a + i) st)) (live_status (o i)).
Proof.
  induction n as [|n IH]; intros o a i st0 Hi; [lia|]. cbn [sweep_from].
  assert (Hrest : forall j, (a < j)%nat ->
            forall st1, dict_get (fst (server_record now a st1))
                          (sweep_from now (fun k => o (S k)) j n) = None).
  { intros j Hj st1. apply dict_get_absent. intros k' v Hin E.
    apply in_sweep_from in Hin as [i' [st' [_ [_ Heq]]]].
    assert (Hk : k' = fst (server_record now (j + i') st')) by now rewrite <- Heq.
    rewrite Hk in E. apply server_record_key_inj in E. lia. }
  destruct i as [|i].
  - rewrite Nat.add_0_r.
    destruct (live_status (o 0%nat)) as [st|]; cbn [app option_map].
    + cbn [dict_get server_record fst snd]. now rewrite String.eqb_refl.
    + apply Hrest. lia.
  - replace (a + S i)%nat with (S a + i)%nat by lia.
    destruct (live_status (o 0%nat)) as [st|]; cbn [app].
    + cbn [dict_get server_record fst snd].
      match goal with |- context [String.eqb ?x ?y] =>
        destruct (String.eqb_spec x y) as [E|_] end.
      * exfalso. apply (server_record_key_inj now now (S a + i) a st0 st0) in E. lia.
      * apply (IH (fun k => o (S k)) (S a) i st0). lia.
    + apply (IH (fun k => o (S k)) (S a) i st0). lia.
Qed.

Lemma sweep_from_keys_nodup (now : Q) (n : nat) :
  forall (o : nat -> HttpOutcome) (a : nat), NoDup (map fst (sweep_from now o a n)).
Proof.
  induction n as [|n IH]; intros o a; cbn [sweep_from map].
  - constructor.
  - destruct (live_status (o 0%nat)) as [st|]; cbn [app map]; [|apply IH].
    constructor; [|apply IH].
    intros Hin. apply list_elem_of_In, in_map_iff in Hin as [e [E Hin]].
    apply in_sweep_from in Hin as [i [st' [_ [_ ->]]]].
    apply server_record_key_inj in E. lia.
Qed.

(** X4. After a sweep the registry holds exactly the ports whose probe
    answered 200 with a JSON object and a truthy [loaded]: each under its id
    [port_<port>], in ascending port order and with distinct ids; a lookup by
    that id returns the port's record when the port is live, and [None] when
    its probe failed, whatever the registry held before the sweep. *)
Theorem registry_after_sweep (s : State) :
  let now := wall_clock s (n_wall s) in
  let outcome := fun i => net s (n_http s + i)%nat in
  (discovery_interval (server_registry s)
     <= now - last_discovery (server_registry s))%Q ->
  let svs := fst (get_servers s) in
  (forall e, In e svs <->
     exists i st, (i < MAX_SERVERS)%nat /\ live_status (outcome i) = Some st /\
                  e = server_record now i st) /\
  NoDup (map fst svs) /\
  (forall i st0, (i < MAX_SERVERS)%nat ->
     fst (get_server_by_id (fst (server_record now i st0)) s)
       = option_map (fun st => snd (server_record now i st)) (live_status (outcome i))).
Proof.
  intros now outcome Hstale svs.
  assert (Hsvs : svs = sweep_from now outcome 0 MAX_SERVERS).
  { subst svs. unfold get_servers, bind. cbv beta iota.
    pose proof (discover_servers_stale s Hstale) as Hd.
    destruct (discover_servers s) as [[] s']. exact Hd. }
  split; [|split].
  - intros e. rewrite Hsvs. apply in_sweep_from.
  - rewrite Hsvs. apply sweep_from_keys_nodup.
  - intros i st0 Hi. unfold get_server_by_id, bind. cbv beta iota.
    pose proof (discover_servers_stale (log_event (EvGetServerById
                   (fst (server_record now i st0))) s) Hstale) as Hd.
    destruct (discover_servers (log_event _ s)) as [[] s']. cbn [fst snd] in *.
    rewrite Hd. cbn [log_event wall_clock n_wall net n_http].
    exact (dict_get_sweep_from now MAX_SERVERS outcome 0 i st0 Hi).
Qed.

(** ** Targets that cannot be resolved *)

Section TargetFacts.
Context {py : PyRuntime}.

(** X5. With an explicit [binary_id] that the registry, refreshed, does not
    hold, [_request] returns [(None, "Binary server '<id>' not found")] from
    the lookup's own state: it issues no session call and does not fall back
    to the default instance.  With no [binary_id] and an empty registry it
    returns [(None, "No Binary Ninja servers available")] likewise. *)
Theorem request_unresolved_target (method endpoint : string) (params : option Params)
    (data : option string) (s : State) :
  (forall bid, bid <> "" -> fst (get_server_by_id bid s) = None ->
     _request method endpoint params data (Some bid) s
       = ((PNone, Some ("Binary server '" +:+ bid +:+ "' not found")),
          snd (get_server_by_id bid s)) /\
     exists evs, trace (snd (get_server_by_id bid s)) = trace s ++ evs /\
                 Forall (fun e => e = EvGetServerById bid \/ exists i, e = probe_event i) evs) /\
  (fst (get_default_server s) = None ->
     _request method endpoint params data None s
       = ((PNone, Some "No Binary Ninja servers available"),
          snd (get_default_server s))).
Proof.
  split.
  - intros bid Hid Hnone. split.
    + unfold _request, resolve_target, bind. cbn [str_truthy default from_option id].
      destruct (String.eqb_spec bid "") as [->|_]; [contradiction|]. cbn [negb].
      destruct (get_server_by_id bid s) as [[i|] s']; [discriminate|]. reflexivity.
    + unfold get_server_by_id, bind. cbv beta iota.
      destruct (Qlt_le_dec
                  (wall_clock s (n_wall s) - last_discovery (server_registry s))
                  (discovery_interval (server_registry s))) as [Hfresh|Hstale].
      * rewrite (discover_servers_fresh (log_event (EvGetServerById bid) s) Hfresh).
        exists [EvGetServerById bid]. split; [reflexivity|]. constructor; [now left | constructor].
      * pose proof (discover_servers_stale_trace (log_event (EvGetServerById bid) s) Hstale)
          as T.
        destruct (discover_servers (log_event (EvGetServerById bid) s)) as [[] s'].
        cbn [snd] in *. rewrite T. cbn [log_event trace]. rewrite <- app_assoc.
        eexists. split; [reflexivity|]. constructor; [now left|].
        apply Forall_forall. intros e He. apply list_elem_of_In, in_map_iff in He as [i [<- _]].
        right. now exists i.
  - intros Hnone. unfold _request, resolve_target, bind. cbn [str_truthy].
    destruct (get_default_server s) as [[i|] s']; [discriminate|]. reflexivity.
Qed.
End TargetFacts.

(** ** The selector on a filename that is no string *)

Section SelectorEdgeFacts.
Context {py : PyRuntime}.

Lemma collect_matches_nonstring (q : string) (l1 l2 : list (string * ServerInfo))
    (id : string) (info : ServerInfo) :
  forall acc,
  (forall id' info', In (id', info') l1 -> exists fn, filename info' = PStr fn) ->
  (forall fn, filename info <> PStr fn) ->
  collect_matches q (l1 ++ (id, info) :: l2) acc
    = inr ("'" +:+ type_name (filename info) +:+ "' object has no attribute 'lower'").
Proof.
  induction l1 as [|[id' info'] l1 IH]; intros acc Hstr Hbad; cbn [app collect_matches].
  - destruct (filename info) as [| | | |fn| |]; try reflexivity.
    now destruct (Hbad fn).
  - destruct (Hstr id' info' (or_introl eq_refl)) as [fn Hfn]. rewrite Hfn.
    apply IH; [|exact Hbad]. intros id0 info0 Hin. apply (Hstr id0 info0). now right.
Qed.

(** X6. When a record of the snapshot carries a filename that is not a
    string (the status payload had [null], a number, ...),
    [select_binary_by_filename] fails for every query, matching or not: the
    result is [{ok: False, error: "'<type>' object has no attribute 'lower'"}]
    for the first such record, with no candidate list. *)
Theorem select_binary_nonstring_filename (q : string) (s : State)
    (l1 l2 : list (string * ServerInfo)) (id : string) (info : ServerInfo) :
  fst (get_servers s) = l1 ++ (id, info) :: l2 ->
  (forall id' info', In (id', info') l1 -> exists fn, filename info' = PStr fn) ->
  (forall fn, filename info <> PStr fn) ->
  fst (select_binary_by_filename q s)
    = PDict [("ok", PBool false);
             ("error", PStr ("'" +:+ type_name (filename info)
                             +:+ "' object has no attribute 'lower'"))].
Proof.
  intros Hsvs Hstr Hbad. unfold select_binary_by_filename, bind.
  destruct (get_servers s) as [svs s']. cbn [fst] in Hsvs. subst svs.
  now rewrite (collect_matches_nonstring q l1 l2 id info [] Hstr Hbad).
Qed.
End SelectorEdgeFacts.

(** ** Cache slots *)

(** X7. The cache is per key and expiry is lazy: a [set] or a [get] under
    one key, whether the [get] hits, misses or evicts, leaves every entry
    under another key as it is, expired or not; and a [set] replaces the
    value and the timestamp held under its key. *)
Theorem TTLCache_other_keys (name : string) (params : Params) (v : pyval)
    (c : TTLCache) (s : State) (k : string * list (string * qval)) :
  let c_set := fst (TTLCache_set name params v c s) in
  let c_get := snd (fst (TTLCache_get name params c s)) in
  (k <> TTLCache__key name params ->
     store c_set !! k = store c !! k /\ store c_get !! k = store c !! k) /\
  store c_set !! TTLCache__key name params = Some (mono_clock s (n_mono s), v) /\
  ttl c_set = ttl c /\ ttl c_get = ttl c.
Proof.
  intros c_set c_get. subst c_set c_get. split; [|split; [|split]].
  - intros Hk. split.
    + unfold TTLCache_set, bind, ret. cbn [fst _now store]. now apply lookup_insert_ne.
    + unfold TTLCache_get.
      destruct (store c !! TTLCache__key name params) as [[t v0]|]; [|reflexivity].
      unfold bind, ret, _now. cbv beta iota.
      destruct (Qlt_le_dec _ _); cbn [fst snd store]; [|reflexivity].
      now apply lookup_delete_ne.
  - unfold TTLCache_set, bind, ret. cbn [fst _now store]. apply lookup_insert_eq.
  - reflexivity.
  - unfold TTLCache_get.
    destruct (store c !! TTLCache__key name params) as [[t v0]|]; [|reflexivity].
    unfold bind, ret, _now. cbv beta iota. destruct (Qlt_le_dec _ _); reflexivity.
Qed.

(** X8. Two calls of [_list_endpoint] on one endpoint share a cache slot
    exactly when they name the same target, no target, the empty id and the
    literal id ["default"] all denoting the slot of the default instance, and
    carry the same parameter items in any order. *)
Theorem list_cache_slot_shared (endpoint : string) (b1 b2 : option string)
    (p1 p2 : Params) :
  NoDup (map fst p1) ->
  (TTLCache__key (endpoint +:+ "_" +:+ str_or b1 "default") p1
     = TTLCache__key (endpoint +:+ "_" +:+ str_or b2 "default") p2
   <-> str_or b1 "default" = str_or b2 "default" /\ Permutation p1 p2).
Proof.
  intros Hnd. unfold TTLCache__key. split.
  - intros [= Hname Hsorted]. split.
    + apply (inj (String.append endpoint)) in Hname.
      now apply (inj (String.append "_")) in Hname.
    + rewrite <- (py_sorted_perm item_le p1), <- (py_sorted_perm item_le p2).
      now rewrite Hsorted.
  - intros [Hname Hperm]. rewrite Hname. f_equal. now apply sorted_items_perm.
Qed.


(** ** Frames and invariants through the monad *)

Lemma keeps_ret {A B : Type} (f : State -> B) (a : A) : keeps f (ret a).
Proof. intros s. reflexivity. Qed.

Lemma keeps_bind {A B C : Type} (f : State -> C) (m : M A) (k : A -> M B) :
  keeps f m -> (forall a, keeps f (k a)) -> keeps f (bind m k).
Proof.
  intros Hm Hk s. unfold bind. specialize (Hm s).
  destruct (m s) as [a s1]. cbn [snd] in Hm. now rewrite Hk.
Qed.

Lemma hoare_ret {A : Type} (Inv : State -> Prop) (P : Event -> Prop) (Q : A -> Prop) (a : A) :
  Q a -> hoare Inv P (ret a) Q.
Proof.
  intros Ha s Hs. cbn. split; [exact Hs|]. split; [exact Ha|].
  exists []. now rewrite app_nil_r.
Qed.

Lemma hoare_bind {A B : Type} (Inv : State -> Prop) (P : Event -> Prop)
    (m : M A) (k : A -> M B) (Q1 : A -> Prop) (Q2 : B -> Prop) :
  hoare Inv P m Q1 -> (forall a, Q1 a -> hoare Inv P (k a) Q2) -> hoare Inv P (bind m k) Q2.
Proof.
  intros Hm Hk s Hs. unfold bind. destruct (Hm s Hs) as [I1 [Qa [e1 [E1 F1]]]].
  destruct (m s) as [a s1]. cbn [fst snd] in *.
  destruct (Hk a Qa s1 I1) as [I2 [Qb [e2 [E2 F2]]]].
  split; [exact I2|]. split; [exact Qb|].
  exists (e1 ++ e2). split; [now rewrite E2, E1, app_assoc | now apply Forall_app].
Qed.

Lemma hoare_weaken {A : Type} (Inv : State -> Prop) (P : Event -> Prop)
    (m : M A) (Q1 Q2 : A -> Prop) :
  (forall a, Q1 a -> Q2 a) -> hoare Inv P m Q1 -> hoare Inv P m Q2.
Proof.
  intros HQ Hm s Hs. destruct (Hm s Hs) as [I1 [Qa Ev]]. auto.
Qed.

(** A computation that appends events of kind [P] and keeps what the
    invariant reads. *)
Lemma hoare_frame {A B : Type} (f : State -> B) (Inv : State -> Prop) (P : Event -> Prop)
    (m : M A) :
  (forall s s', f s' = f s -> Inv s -> Inv s') ->
  keeps f m -> emits P m -> hoare Inv P m (fun _ => True).
Proof.
  intros Hf Hk He s Hs. split; [exact (Hf s _ (Hk s) Hs)|]. split; [exact I|]. apply He.
Qed.

Lemma time_time_keeps {B : Type} (f : State -> B) :
  (forall s, f (snd (time_time s)) = f s) -> keeps f time_time.
Proof. intros Hf s. apply Hf. Qed.

Lemma discover_servers_keeps_cache : keeps ttl_cache discover_servers.
Proof.
  intros s. unfold discover_servers, bind, time_time. cbv beta iota.
  destruct (Qlt_le_dec _ _); [reflexivity|].
  match goal with |- context [probe_ports ?now ?l ?d ?s0] =>
    pose proof (probe_ports_frame now MAX_SERVERS 0 d s0) as Hf;
    destruct (probe_ports now l d s0) as [discovered s1] end.
  cbn [snd] in *. now destruct Hf as [_ [_ [_ [_ [_ [_ [_ [_ C]]]]]]]].
Qed.

Lemma get_servers_keeps_cache : keeps ttl_cache get_servers.
Proof.
  unfold get_servers. apply keeps_bind; [apply discover_servers_keeps_cache|].
  intros _ s. reflexivity.
Qed.

Lemma get_server_by_id_keeps_cache (id : string) : keeps ttl_cache (get_server_by_id id).
Proof.
  unfold get_server_by_id. apply keeps_bind; [intros s; reflexivity|]. intros _.
  apply keeps_bind; [apply discover_servers_keeps_cache|]. intros _ s. reflexivity.
Qed.

Lemma get_default_server_keeps_cache : keeps ttl_cache get_default_server.
Proof.
  unfold get_default_server. apply keeps_bind; [intros s; reflexivity|]. intros _.
  apply keeps_bind; [apply get_servers_keeps_cache|]. intros svs. apply keeps_ret.
Qed.

Section FrameFacts.
Context {py : PyRuntime}.

(** The retry loop touches the network and the trace only. *)
Lemma request_attempts_frame (sess : Session) (method u : string)
    (params : option Params) (data : option string) (attempts : list nat) :
  forall (last_err : option string) (s : State),
  let s' := snd (request_attempts sess method u params data attempts last_err s) in
  server_registry s' = server_registry s /\ ttl_cache s' = ttl_cache s /\
  n_mono s' = n_mono s /\ mono_clock s' = mono_clock s /\
  n_wall s' = n_wall s /\ wall_clock s' = wall_clock s /\ net s' = net s.
Proof.
  induction attempts as [|a rest IH]; intros last_err s.
  - cbn. repeat split.
  - pose proof (request_attempts_cons sess method u params data a rest last_err s) as Hc.
    cbn zeta in Hc. cbv zeta.
    destruct (attempt_result (net s (n_http s))) as [res|].
    + rewrite Hc. cbn. repeat split.
    + destruct Hc as [e Hc]. rewrite Hc.
      match goal with |- context [request_attempts _ _ _ _ _ rest (Some e) ?s'] =>
        destruct (IH (Some e) s') as [R [C [M1 [M2 [W1 [W2 N]]]]]] end.
      rewrite R, C, M1, M2, W1, W2, N.
      destruct (a <? MAX_RETRIES)%nat; cbn; repeat split.
Qed.

Lemma resolve_target_keeps_cache (binary_id : option string) :
  keeps ttl_cache (resolve_target binary_id).
Proof.
  unfold resolve_target. destruct (str_truthy binary_id).
  - apply keeps_bind; [apply get_server_by_id_keeps_cache | intros a; apply keeps_ret].
  - apply keeps_bind; [apply get_default_server_keeps_cache | intros a; apply keeps_ret].
Qed.

Lemma request_keeps_cache (method endpoint : string) (params : option Params)
    (data : option string) (binary_id : option string) :
  keeps ttl_cache (_request method endpoint params data binary_id).
Proof.
  unfold _request. apply keeps_bind; [apply resolve_target_keeps_cache|].
  intros [base_url|e]; [|apply keeps_ret]. intros s.
  apply (request_attempts_frame _ method _ params data _ None s).
Qed.
End FrameFacts.

(** ** Dictionaries *)

Lemma dict_get_set_same {V : Type} (k : string) (v : V) (d : list (string * V)) :
  dict_get k (dict_set k v d) = Some v.
Proof.
  induction d as [|[k0 v0] d IH]; cbn [dict_set dict_get].
  - now rewrite String.eqb_refl.
  - destruct (String.eqb k k0) eqn:E; cbn [dict_get]; now rewrite E.
Qed.




Lemma dict_get_In {V : Type} (k : string) (v : V) (d : list (string * V)) :
  dict_get k d = Some v -> In (k, v) d.
Proof.
  induction d as [|[k0 v0] d IH]; cbn [dict_get]; [discriminate|].
  destruct (String.eqb_spec k k0) as [->|_].
  - intros [= ->]. now left.
  - intros Hd. right. now apply IH.
Qed.

(** ** The data items of [list_data] *)

Section DataItemFacts.
Context {py : PyRuntime}.




End DataItemFacts.

(** ** The cache holds envelopes *)

Lemma hoare_intro {A : Type} (Inv : State -> Prop) (P : Event -> Prop) (m : M A)
    (Q : A -> Prop) :
  (forall s, Inv s -> Inv (snd (m s))) ->
  (forall s, Inv s -> Q (fst (m s))) ->
  emits P m -> hoare Inv P m Q.
Proof. intros HI HQ He s Hs. split; [now apply HI|]. split; [now apply HQ | apply He]. Qed.

Lemma cache_ok_same (s s' : State) : ttl_cache s' = ttl_cache s -> cache_ok s -> cache_ok s'.
Proof. intros E Hs k t v. rewrite E. apply Hs. Qed.

Lemma error_envelope_ok (e : string) :
  is_envelope (PDict [("ok", PBool false); ("error", PStr e);
                      ("items", PList []); ("hasMore", PBool false)]).
Proof.
  exists [("ok", PBool false); ("error", PStr e); ("items", PList []); ("hasMore", PBool false)],
    false, false, (PList []).
  repeat split. intros _. now exists e.
Qed.

Lemma result_envelope_ok (items : pyval) (has_more : bool) :
  is_envelope (PDict [("ok", PBool true); ("items", items); ("hasMore", PBool has_more)]).
Proof.
  exists [("ok", PBool true); ("items", items); ("hasMore", PBool has_more)],
    true, has_more, items.
  repeat split. discriminate.
Qed.

Lemma ttl_cache_get_envelope (name : string) (params : Params) :
  hoare cache_ok (fun _ => True) (ttl_cache_get name params)
        (fun v => v = PNone \/ is_envelope v).
Proof.
  apply hoare_intro.
  - intros s Hs k t v. unfold ttl_cache_get, TTLCache_get.
    destruct (store (ttl_cache s) !! TTLCache__key name params) as [[t0 v0]|];
      [|apply Hs].
    unfold bind, ret, _now. cbv beta iota.
    destruct (Qlt_le_dec _ _); cbn [snd set_cache ttl_cache store]; [|apply Hs].
    rewrite lookup_delete_Some. intros [_ Hk]. exact (Hs k t v Hk).
  - intros s Hs. unfold ttl_cache_get, TTLCache_get.
    destruct (store (ttl_cache s) !! TTLCache__key name params) as [[t0 v0]|] eqn:E;
      [|now left].
    unfold bind, ret, _now. cbv beta iota.
    destruct (Qlt_le_dec _ _); cbn [fst]; [now left|]. right. exact (Hs _ t0 v0 E).
  - apply emits_silent. intros s. unfold ttl_cache_get, TTLCache_get.
    destruct (store (ttl_cache s) !! TTLCache__key name params) as [[t v]|];
      [|reflexivity].
    unfold bind, _now, ret. cbv beta iota. destruct (Qlt_le_dec _ _); reflexivity.
Qed.

Lemma ttl_cache_set_envelope (name : string) (params : Params) (v : pyval) :
  is_envelope v ->
  hoare cache_ok (fun _ => True) (ttl_cache_set name params v) (fun _ => True).
Proof.
  intros Hv. apply hoare_intro.
  - intros s Hs k t v0. unfold ttl_cache_set, TTLCache_set, bind, ret, _now.
    cbn [snd set_cache ttl_cache store]. rewrite lookup_insert_Some.
    intros [[_ [= _ <-]] | [_ Hk]]; [exact Hv | exact (Hs k t v0 Hk)].
  - intros s _. exact I.
  - now apply emits_silent.
Qed.

Section EnvelopeFacts.
Context {py : PyRuntime}.

Lemma request_envelope (method endpoint : string) (params : option Params)
    (data : option string) (binary_id : option string) :
  hoare cache_ok (fun _ => True) (_request method endpoint params data binary_id)
        (fun r => snd r <> Some "").
Proof.
  apply hoare_intro.
  - intros s. apply cache_ok_same. apply request_keeps_cache.
  - intros s _. apply request_error_nonempty.
  - eapply emits_weaken; [|apply request_emits]. auto.
Qed.

Lemma list_endpoint_envelope_kept (endpoint : string) (offset limit : Z)
    (extra : option Params) (binary_id : option string) :
  hoare cache_ok (fun _ => True) (_list_endpoint endpoint offset limit extra binary_id)
        is_envelope.
Proof.
  unfold _list_endpoint.
  eapply hoare_bind; [apply ttl_cache_get_envelope|].
  intros cached Hc.
  destruct cached;
    try (apply hoare_ret; destruct Hc as [Hc|Hc]; [discriminate | exact Hc]).
  eapply hoare_bind; [apply request_envelope|].
  intros [data err] Hne. cbn [snd] in Hne.
  destruct (str_truthy err) eqn:Herr.
  - destruct err as [e|]; [|discriminate]. cbn [opt_str_py].
    eapply hoare_bind; [apply ttl_cache_set_envelope, error_envelope_ok|].
    intros _ _. apply hoare_ret, error_envelope_ok.
  - match goal with |- context [let '(_, _) := ?x in _] => destruct x as [items has_more] end.
    eapply hoare_bind; [apply ttl_cache_set_envelope, result_envelope_ok|].
    intros _ _. apply hoare_ret, result_envelope_ok.
Qed.

Lemma enhance_result_envelope (result result' : pyval) :
  is_envelope result -> enhance_result result = inl result' -> is_envelope result'.
Proof.
  intros [d [b [h [items [-> [Hok [Hitems [Hmore Herr]]]]]]]]. cbn [enhance_result].
  destruct (truthy (dict_get_default "ok" PNone d)
            && truthy (dict_get_default "items" PNone d)).
  - unfold dict_get_default. rewrite Hitems.
    assert (Hsame : is_envelope (PDict d)) by (exists d, b, h, items; auto).
    destruct items as [| | | | |l|d0]; try discriminate; intros [= <-]; try exact Hsame.
    exists (dict_set "items" (PList (map fill_item_defaults l)) d), b, h,
      (PList (map fill_item_defaults l)).
    split; [reflexivity|]. split; [now rewrite dict_get_set_other|].
    split; [apply dict_get_set_same|]. split; [now rewrite dict_get_set_other|].
    intros Hb. destruct (Herr Hb) as [e He]. exists e. now rewrite dict_get_set_other.
  - intros [= <-]. exists d, b, h, items. auto.
Qed.

Lemma list_data_envelope (offset limit : Z) (query filter_type : string)
    (binary_id : option string) :
  hoare cache_ok (fun _ => True) (list_data offset limit query filter_type binary_id)
        is_envelope.
Proof.
  unfold list_data. destruct (_clamp_paging (Some offset) (Some limit)) as [o l].
  eapply hoare_bind; [apply list_endpoint_envelope_kept|].
  intros result Henv.
  destruct (enhance_result result) as [result'|e] eqn:He;
    [|apply hoare_ret, error_envelope_ok].
  assert (Henv' : is_envelope result') by exact (enhance_result_envelope _ _ Henv He).
  apply hoare_intro.
  - intros s Hs k t v. cbn [snd set_cache ttl_cache store].
    rewrite lookup_alter_Some.
    intros [[_ [x [_ [= _ ->]]]] | [_ Hk]]; [exact Henv' | exact (Hs k t v Hk)].
  - intros s _. exact Henv'.
  - now apply emits_silent.
Qed.

Lemma list_entities_envelope (kind : string) (offset limit : Z) (query : string)
    (binary_id : option string) :
  hoare cache_ok (fun _ => True) (list_entities kind offset limit query binary_id)
        is_envelope.
Proof.
  unfold list_entities.
  destruct (negb (existsb (String.eqb kind) valid_kinds));
    [apply hoare_ret, error_envelope_ok|].
  destruct (_clamp_paging (Some offset) (Some limit)) as [o l].
  destruct (negb (String.eqb query "") && String.eqb kind "methods");
    apply list_endpoint_envelope_kept.
Qed.

Ltac keep_cache :=
  repeat first
    [ apply keeps_ret
    | apply request_keeps_cache
    | apply get_servers_keeps_cache
    | apply get_server_by_id_keeps_cache
    | match goal with
      | |- keeps _ (if ?b then _ else _) => destruct b
      | |- keeps _ (let '(_, _) := ?x in _) => destruct x
      | |- keeps _ (match ?x with _ => _ end) => destruct x
      | |- keeps _ (bind _ _) => apply keeps_bind; [|intros ?]
      end ].

Lemma list_servers_loop_keeps_cache (svs : list (string * ServerInfo)) :
  forall acc, keeps ttl_cache (list_servers_loop svs acc).
Proof.
  induction svs as [|[binary_id info] rest IH]; intros acc; cbn [list_servers_loop].
  - apply keeps_ret.
  - apply keeps_bind; [apply request_keeps_cache|]. intros [binary_info err]. apply IH.
Qed.

(** X10. The TTL cache only ever holds envelopes: from a state whose cache
    holds envelopes (an empty cache does), [list_entities] and [list_data]
    return an envelope, with boolean [ok] and [hasMore], an [items] field and
    a string [error] whenever [ok] is false, and leave a cache of envelopes;
    no other tool reads or writes the cache. *)
Theorem cache_holds_envelopes :
  (forall s, store (ttl_cache s) = ∅ -> cache_ok s) /\
  (forall kind offset limit query binary_id,
     hoare cache_ok (fun _ => True) (list_entities kind offset limit query binary_id)
           is_envelope) /\
  (forall offset limit query filter_type binary_id,
     hoare cache_ok (fun _ => True) (list_data offset limit query filter_type binary_id)
           is_envelope) /\
  (forall binary_id, keeps ttl_cache (health binary_id)) /\
  (forall name address binary_id, keeps ttl_cache (get_data_item name address binary_id)) /\
  (forall address size format binary_id,
     keeps ttl_cache (read_memory address size format binary_id)) /\
  (forall address pattern binary_id,
     keeps ttl_cache (search_data_references address pattern binary_id)) /\
  (forall name binary_id, keeps ttl_cache (decompile_function name binary_id)) /\
  (forall binary_id, keeps ttl_cache (overview binary_id)) /\
  (forall binary_id, keeps ttl_cache (get_binary_status binary_id)) /\
  (forall q, keeps ttl_cache (select_binary_by_filename q)) /\
  keeps ttl_cache list_binary_servers /\
  (forall binary_id, keeps ttl_cache (get_binary_info binary_id)).
Proof.
  split; [|split; [|split]].
  - intros s Hs k t v. rewrite Hs, lookup_empty. discriminate.
  - apply list_entities_envelope.
  - apply list_data_envelope.
  - repeat split; intros.
    + unfold health. keep_cache.
    + unfold get_data_item. keep_cache.
    + unfold read_memory. keep_cache.
    + unfold search_data_references. keep_cache.
    + unfold decompile_function. keep_cache.
    + unfold overview. keep_cache.
    + unfold get_binary_status. keep_cache.
    + unfold select_binary_by_filename. keep_cache.
    + unfold list_binary_servers.
      apply keeps_bind; [apply get_servers_keeps_cache|]. intros svs.
      apply keeps_bind; [apply list_servers_loop_keeps_cache|]. intros l. apply keeps_ret.
    + unfold get_binary_info. keep_cache.
Qed.
End EnvelopeFacts.

(** ** Where the bridge connects to *)

Lemma registry_ok_same (s s' : State) :
  server_registry s' = server_registry s -> registry_ok s -> registry_ok s'.
Proof. intros E Hs id info. rewrite E. apply Hs. Qed.

Lemma probe_event_local (i : nat) : (i < MAX_SERVERS)%nat -> local_call (probe_event i).
Proof.
  intros Hi m u p d t [= _ <- _ _ _]. exists i, "status". split; [exact Hi | reflexivity].
Qed.

Lemma discover_servers_local :
  hoare registry_ok local_call discover_servers (fun _ => True).
Proof.
  intros s Hs.
  destruct (Qlt_le_dec
              (wall_clock s (n_wall s) - last_discovery (server_registry s))
              (discovery_interval (server_registry s))) as [Hfresh|Hstale].
  - rewrite (discover_servers_fresh s Hfresh). split; [exact Hs|]. split; [exact I|].
    exists []. cbn. now rewrite app_nil_r.
  - pose proof (discover_servers_stale_trace s Hstale) as T.
    pose proof (discover_servers_stale s Hstale) as Hsw. cbv zeta in Hsw.
    split; [|split; [exact I|]].
    + intros id info. rewrite Hsw. intros Hin.
      apply in_sweep_from in Hin as [i [st [Hi [_ Heq]]]].
      injection Heq as -> ->. exists i. cbn [port url]. repeat split. exact Hi.
    + eexists. split; [exact T|]. apply Forall_forall. intros e He.
      apply list_elem_of_In, in_map_iff in He as [i [<- Hi]].
      apply probe_event_local. apply in_seq in Hi. lia.
Qed.

Lemma registry_step_local {A : Type} (f : State -> A * State) (e : Event) :
  (forall s, server_registry (snd (f s)) = server_registry s) ->
  (forall s, trace (snd (f s)) = trace s ++ [e]) ->
  local_call e ->
  hoare registry_ok local_call f (fun _ => True).
Proof.
  intros Hr Ht He s Hs. split; [exact (registry_ok_same _ _ (Hr s) Hs)|].
  split; [exact I|]. exists [e]. split; [apply Ht | now constructor].
Qed.

Lemma registry_read_local {A : Type} (f : State -> A) (Q : A -> Prop) :
  (forall s, registry_ok s -> Q (f s)) ->
  hoare registry_ok local_call (fun s => (f s, s)) Q.
Proof.
  intros HQ s Hs. cbn. split; [exact Hs|]. split; [now apply HQ|].
  exists []. now rewrite app_nil_r.
Qed.

Lemma get_servers_local :
  hoare registry_ok local_call get_servers
        (fun svs => forall id info, In (id, info) svs -> local_record info).
Proof.
  unfold get_servers. eapply hoare_bind; [apply discover_servers_local|]. intros _ _.
  apply registry_read_local. intros s Hs id info Hin.
  destruct (Hs id info Hin) as [i [Hi [_ [Hu _]]]]. now exists i.
Qed.

Lemma get_server_by_id_local (id : string) :
  hoare registry_ok local_call (get_server_by_id id)
        (fun r => forall info, r = Some info -> local_record info).
Proof.
  unfold get_server_by_id.
  eapply hoare_bind;
    [apply (registry_step_local _ (EvGetServerById id));
       [reflexivity | reflexivity | intros m u p d t; discriminate]|].
  intros _ _. eapply hoare_bind; [apply discover_servers_local|]. intros _ _.
  apply registry_read_local. intros s Hs info Hget. apply dict_get_In in Hget.
  destruct (Hs id info Hget) as [i [Hi [_ [Hu _]]]]. now exists i.
Qed.

Lemma get_default_server_local :
  hoare registry_ok local_call get_default_server
        (fun r => forall info, r = Some info -> local_record info).
Proof.
  unfold get_default_server.
  eapply hoare_bind;
    [apply (registry_step_local _ EvGetDefaultServer);
       [reflexivity | reflexivity | intros m u p d t; discriminate]|].
  intros _ _. eapply hoare_bind; [apply get_servers_local|]. intros svs Hsvs.
  apply hoare_ret. intros info Hhead.
  destruct svs as [|[id0 info0] svs]; [discriminate|]. cbn in Hhead. injection Hhead as <-.
  apply (Hsvs id0 info0). now left.
Qed.

Section LocalCallFacts.
Context {py : PyRuntime}.

Lemma resolve_target_local (binary_id : option string) :
  hoare registry_ok local_call (resolve_target binary_id)
        (fun target => forall base_url, target = inl base_url ->
           exists i, (i < MAX_SERVERS)%nat /\
             base_url = BINJA_BASE_URL +:+ ":" +:+ str_of_Z (BINJA_BASE_PORT + Z.of_nat i)).
Proof.
  unfold resolve_target. destruct (str_truthy binary_id).
  - eapply hoare_bind; [apply get_server_by_id_local|]. intros [info|] Hr.
    + apply hoare_ret. intros base_url [= <-]. exact (Hr info eq_refl).
    + apply hoare_ret. discriminate.
  - eapply hoare_bind; [apply get_default_server_local|]. intros [info|] Hr.
    + apply hoare_ret. intros base_url [= <-]. exact (Hr info eq_refl).
    + apply hoare_ret. discriminate.
Qed.

Lemma request_local (method endpoint : string) (params : option Params)
    (data : option string) (binary_id : option string) :
  hoare registry_ok local_call (_request method endpoint params data binary_id)
        (fun _ => True).
Proof.
  unfold _request. eapply hoare_bind; [apply resolve_target_local|].
  intros [base_url|e] Hbase; [|now apply hoare_ret].
  destruct (Hbase base_url eq_refl) as [i [Hi ->]].
  intros s Hs.
  destruct (request_attempts_emits
              {| session_timeout := Some (CONNECT_TIMEOUT, READ_TIMEOUT) |} method
              ((BINJA_BASE_URL +:+ ":" +:+ str_of_Z (BINJA_BASE_PORT + Z.of_nat i))
                 +:+ "/" +:+ endpoint) params data (seq 0 (MAX_RETRIES + 1)) None s)
    as [evs [E [F _]]].
  split.
  - eapply registry_ok_same; [|exact Hs].
    apply (request_attempts_frame _ method _ params data _ None s).
  - split; [exact I|]. exists evs. split; [exact E|].
    eapply List.Forall_impl; [|exact F].
    intros e [-> | [d ->]] m u p d' t; [|discriminate].
    unfold attempt_event. destruct (String.eqb method "GET");
      intros [= _ <- _ _ _]; exists i, endpoint; (split; [exact Hi | reflexivity]).
Qed.

Lemma cache_step_local {A : Type} (m : M A) :
  keeps server_registry m -> (forall s, trace (snd (m s)) = trace s) ->
  hoare registry_ok local_call m (fun _ => True).
Proof.
  intros Hk Ht s Hs. split; [exact (registry_ok_same _ _ (Hk s) Hs)|].
  split; [exact I|]. exists []. now rewrite Ht, app_nil_r.
Qed.

Lemma ttl_cache_get_keeps_registry (name : string) (params : Params) :
  keeps server_registry (ttl_cache_get name params).
Proof.
  intros s. unfold ttl_cache_get, TTLCache_get.
  destruct (store (ttl_cache s) !! TTLCache__key name params) as [[t v]|]; [|reflexivity].
  unfold bind, _now, ret. cbv beta iota. destruct (Qlt_le_dec _ _); reflexivity.
Qed.

Lemma list_endpoint_local (endpoint : string) (offset limit : Z)
    (extra : option Params) (binary_id : option string) :
  hoare registry_ok local_call (_list_endpoint endpoint offset limit extra binary_id)
        (fun _ => True).
Proof.
  unfold _list_endpoint.
  eapply hoare_bind;
    [apply cache_step_local; [apply ttl_cache_get_keeps_registry | apply ttl_cache_get_trace]|].
  intros cached _. destruct cached; try now apply hoare_ret.
  eapply hoare_bind; [apply request_local|]. intros [data err] _.
  destruct (str_truthy err).
  - eapply hoare_bind; [apply cache_step_local; [intros s; reflexivity | reflexivity]|].
    intros _ _. now apply hoare_ret.
  - match goal with |- context [let '(_, _) := ?x in _] => destruct x as [items has_more] end.
    eapply hoare_bind; [apply cache_step_local; [intros s; reflexivity | reflexivity]|].
    intros _ _. now apply hoare_ret.
Qed.

Ltac local_calls :=
  repeat first
    [ now apply hoare_ret
    | apply request_local
    | apply list_endpoint_local
    | match goal with
      | |- hoare _ _ (if ?b then _ else _) _ => destruct b
      | |- hoare _ _ (let '(_, _) := ?x in _) _ => destruct x
      | |- hoare _ _ (match ?x with _ => _ end) _ => destruct x
      | |- hoare _ _ (bind _ _) _ => eapply hoare_bind; [|intros ? _]
      end
    | (apply cache_step_local; [intros ?; reflexivity | reflexivity]) ].

Lemma list_servers_loop_local (svs : list (string * ServerInfo)) :
  forall acc, hoare registry_ok local_call (list_servers_loop svs acc) (fun _ => True).
Proof.
  induction svs as [|[binary_id info] rest IH]; intros acc; cbn [list_servers_loop].
  - now apply hoare_ret.
  - eapply hoare_bind; [apply request_local|]. intros [binary_info err] _. apply IH.
Qed.

(** X11. The bridge talks to [http://localhost] on the ports
    [BINJA_BASE_PORT .. BINJA_BASE_PORT + MAX_SERVERS - 1] and nowhere else:
    a registry whose records are records of those ports (the empty one is)
    stays such under every tool, and every HTTP call a tool issues, probe or
    request, goes to one of those ports. *)
Theorem bridge_calls_stay_local :
  (forall s, servers (server_registry s) = [] -> registry_ok s) /\
  (forall binary_id, hoare registry_ok local_call (health binary_id) (fun _ => True)) /\
  (forall kind offset limit query binary_id,
     hoare registry_ok local_call (list_entities kind offset limit query binary_id)
           (fun _ => True)) /\
  (forall offset limit query filter_type binary_id,
     hoare registry_ok local_call (list_data offset limit query filter_type binary_id)
           (fun _ => True)) /\
  (forall name address binary_id,
     hoare registry_ok local_call (get_data_item name address binary_id) (fun _ => True)) /\
  (forall address size format binary_id,
     hoare registry_ok local_call (read_memory address size format binary_id)
           (fun _ => True)) /\
  (forall address pattern binary_id,
     hoare registry_ok local_call (search_data_references address pattern binary_id)
           (fun _ => True)) /\
  (forall name binary_id,
     hoare registry_ok local_call (decompile_function name binary_id) (fun _ => True)) /\
  (forall binary_id, hoare registry_ok local_call (overview binary_id) (fun _ => True)) /\
  (forall binary_id,
     hoare registry_ok local_call (get_binary_status binary_id) (fun _ => True)) /\
  (forall q, hoare registry_ok local_call (select_binary_by_filename q) (fun _ => True)) /\
  hoare registry_ok local_call list_binary_servers (fun _ => True) /\
  (forall binary_id, hoare registry_ok local_call (get_binary_info binary_id) (fun _ => True)).
Proof.
  split.
  { intros s Hs id info. rewrite Hs. intros []. }
  repeat match goal with |- _ /\ _ => split end; intros.
  - unfold health. local_calls.
  - unfold list_entities. local_calls.
  - unfold list_data. local_calls.
  - unfold get_data_item. local_calls.
  - unfold read_memory. local_calls.
  - unfold search_data_references. local_calls.
  - unfold decompile_function. local_calls.
  - unfold overview. local_calls.
  - unfold get_binary_status. local_calls.
  - unfold select_binary_by_filename.
    eapply hoare_bind; [apply get_servers_local|]. intros svs _. now apply hoare_ret.
  - unfold list_binary_servers.
    eapply hoare_bind; [apply get_servers_local|]. intros svs _.
    eapply hoare_bind; [apply list_servers_loop_local|]. intros l _. now apply hoare_ret.
  - unfold get_binary_info.
    destruct (String.eqb binary_id ""); [now apply hoare_ret|].
    eapply hoare_bind; [apply get_server_by_id_local|]. intros [info|] _; local_calls.
Qed.
End LocalCallFacts.

(** ** The plugin's port allocation *)

Lemma dict_get_del_other {V : Type} (k k' : string) (d : list (string * V)) :
  k' <> k -> dict_get k' (dict_del k d) = dict_get k' d.
Proof.
  intros Hne. induction d as [|[k0 v0] d IH]; cbn [dict_get dict_del]; [reflexivity|].
  destruct (String.eqb_spec k k0) as [->|Hk].
  - destruct (String.eqb_spec k' k0) as [->|_]; [contradiction | reflexivity].
  - cbn [dict_get]. destruct (String.eqb k' k0); [reflexivity | exact IH].
Qed.

Lemma dict_get_not_key {V : Type} (k : string) (d : list (string * V)) :
  ~ In k (map fst d) -> dict_get k d = None.
Proof.
  intros Hk. apply dict_get_absent. intros k' v Hin ->. apply Hk.
  apply in_map_iff. now exists (k, v).
Qed.

Lemma dict_get_key {V : Type} (k : string) (d : list (string * V)) :
  In k (map fst d) -> exists v, dict_get k d = Some v.
Proof.
  induction d as [|[k0 v0] d IH]; cbn [map fst In dict_get]; [intros []|].
  destruct (String.eqb_spec k k0) as [->|Hk]; [now exists v0|].
  intros [E|Hin]; [now symmetry in E | now apply IH].
Qed.

Lemma dict_del_keys {V : Type} (k k' : string) (d : list (string * V)) :
  In k' (map fst (dict_del k d)) -> In k' (map fst d).
Proof.
  induction d as [|[k0 v0] d IH]; cbn [dict_del map fst In]; [intros []|].
  destruct (String.eqb k k0); cbn [map fst In]; [now right|].
  intros [E|Hin]; [now left | right; now apply IH].
Qed.

Lemma dict_del_nodup {V : Type} (k : string) (d : list (string * V)) :
  NoDup (map fst d) -> NoDup (map fst (dict_del k d)).
Proof.
  induction d as [|[k0 v0] d IH]; cbn [dict_del map fst]; [intros Hd; exact Hd|].
  intros Hd. inversion Hd as [|? ? Hk0 Hd']; subst.
  destruct (String.eqb k k0); [exact Hd'|]. cbn [map fst]. constructor; [|now apply IH].
  intros Hin. apply Hk0. apply list_elem_of_In. apply list_elem_of_In in Hin.
  now apply dict_del_keys in Hin.
Qed.

Lemma dict_get_del_same {V : Type} (k : string) (d : list (string * V)) :
  NoDup (map fst d) -> dict_get k (dict_del k d) = None.
Proof.
  induction d as [|[k0 v0] d IH]; cbn [dict_del map fst]; [reflexivity|].
  intros Hd. inversion Hd as [|? ? Hk0 Hd']; subst.
  destruct (String.eqb_spec k k0) as [->|Hk].
  - apply dict_get_not_key. intros Hin. apply Hk0. now apply list_elem_of_In.
  - cbn [dict_get]. destruct (String.eqb_spec k k0); [contradiction | now apply IH].
Qed.

Lemma dict_set_keys {V : Type} (k : string) (v : V) (d : list (string * V)) :
  map fst (dict_set k v d) =
  if dict_mem k d then map fst d else map fst d ++ [k].
Proof.
  unfold dict_mem.
  induction d as [|[k0 v0] d IH]; cbn [dict_set dict_get map fst app]; [reflexivity|].
  destruct (String.eqb k k0); cbn [map fst]; [reflexivity|].
  rewrite IH. now destruct (dict_get k d).
Qed.

Lemma dict_set_nodup {V : Type} (k : string) (v : V) (d : list (string * V)) :
  NoDup (map fst d) -> NoDup (map fst (dict_set k v d)).
Proof.
  intros Hd. rewrite dict_set_keys. unfold dict_mem.
  destruct (dict_get k d) as [x|] eqn:E; [exact Hd|].
  apply NoDup_ListNoDup. apply NoDup_ListNoDup in Hd.
  apply List.NoDup_app; [exact Hd | repeat constructor; intros [] |].
  intros k' Hin [<-|[]]. apply dict_get_key in Hin as [x Hx]. congruence.
Qed.

Lemma map_nodup_by_key {A B : Type} (g : A * B -> Z) (d : list (A * B)) :
  NoDup (map fst d) ->
  (forall x y, In x d -> In y d -> g x = g y -> fst x = fst y) ->
  NoDup (map g d).
Proof.
  induction d as [|x d IH]; cbn [map]; [constructor|].
  intros Hd Hg. inversion Hd as [|? ? Hx Hd']; subst.
  constructor.
  - intros Hin. apply list_elem_of_In, in_map_iff in Hin as [y [E Hy]].
    apply Hx. apply list_elem_of_In, in_map_iff. exists y. split; [|exact Hy].
    apply Hg; [now right | now left | exact E].
  - apply IH; [exact Hd'|]. intros a b Ha Hb. apply Hg; now right.
Qed.

Lemma dict_get_of_In {V : Type} (k : string) (v : V) (d : list (string * V)) :
  NoDup (map fst d) -> In (k, v) d -> dict_get k d = Some v.
Proof.
  induction d as [|[k0 v0] d IH]; cbn [map fst dict_get]; [intros _ []|].
  intros Hd Hin. inversion Hd as [|? ? Hk0 Hd']; subst.
  destruct Hin as [[= -> ->]|Hin].
  - now rewrite String.eqb_refl.
  - destruct (String.eqb_spec k k0) as [->|_]; [|now apply IH].
    exfalso. apply Hk0. apply list_elem_of_In, in_map_iff. now exists (k0, v).
Qed.

Section PortFacts.
Context {View Server : Type}.
Variable view_truthy : View -> bool.
Variable view_filename : View -> string.

Lemma next_port_loop_spec (config : Plugin.MultiBinaryServerConfig) (fuel : nat) :
  forall reg : @Plugin.MultiBinaryRegistry View Server,
    (Plugin.max_servers config - Plugin._next_port_index reg <= Z.of_nat fuel)%Z ->
    exists r reg',
      Plugin.next_port_loop fuel config reg = Some (r, reg') /\
      Plugin._servers reg' = Plugin._servers reg /\
      Plugin._port_to_binary reg' = Plugin._port_to_binary reg /\
      match r with
      | inl p =>
          exists j, (Plugin._next_port_index reg <= j < Plugin.max_servers config)%Z /\
            p = (Plugin.base_port config + j)%Z /\
            Plugin._next_port_index reg' = (j + 1)%Z /\
            Plugin.is_port_available p reg = true /\
            forall i, (Plugin._next_port_index reg <= i < j)%Z ->
              Plugin.is_port_available (Plugin.base_port config + i) reg = false
      | inr msg =>
          msg = "No available ports (max " +:+ str_of_Z (Plugin.max_servers config)
                  +:+ " servers)" /\
          Plugin._next_port_index reg' =
            Z.max (Plugin._next_port_index reg) (Plugin.max_servers config) /\
          forall i, (Plugin._next_port_index reg <= i < Plugin.max_servers config)%Z ->
            Plugin.is_port_available (Plugin.base_port config + i) reg = false
      end.
Proof.
  induction fuel as [|fuel IH]; intros reg Hfuel; cbn [Plugin.next_port_loop].
  - destruct (Z.ltb_spec (Plugin._next_port_index reg) (Plugin.max_servers config)); [lia|].
    eexists _, _. split; [reflexivity|]. repeat split; [lia | intros i Hi; lia].
  - destruct (Z.ltb_spec (Plugin._next_port_index reg) (Plugin.max_servers config)) as [Hlt|Hge].
    + unfold Plugin.get_port_for_index.
      destruct (Plugin.is_port_available
                  (Plugin.base_port config + Plugin._next_port_index reg) reg) eqn:Hav.
      * eexists _, _. split; [reflexivity|]. cbn. repeat split.
        exists (Plugin._next_port_index reg). repeat split; try lia. exact Hav.
      * match goal with |- context [Plugin.next_port_loop fuel config ?r] =>
          destruct (IH r) as [r' [reg' [E [Hs [Hp Hr]]]]]; [cbn; lia|]
        end.
        exists r', reg'. split; [exact E|]. cbn in Hs, Hp. split; [exact Hs|].
        split; [exact Hp|]. unfold Plugin.is_port_available in *. cbn in Hr.
        destruct r' as [p|msg].
        -- destruct Hr as [j [Hj [-> [Hn [Hpa Hbelow]]]]]. exists j.
           repeat split; try lia; [exact Hpa|]. intros i Hi.
           destruct (Z.eq_dec i (Plugin._next_port_index reg)) as [->|Hne];
             [exact Hav | apply Hbelow; lia].
        -- destruct Hr as [-> [Hn Hall]]. repeat split; [lia|]. intros i Hi.
           destruct (Z.eq_dec i (Plugin._next_port_index reg)) as [->|Hne];
             [exact Hav | apply Hall; lia].
    + eexists _, _. split; [reflexivity|]. repeat split; [lia | intros i Hi; lia].
Qed.

(** X12. [get_next_port] always comes back, and allocates first-fit from
    its counter: it returns the port of the first index at or after
    [_next_port_index] and below [max_servers] whose port is not reserved and
    leaves the counter just past that index; when there is no such index it
    raises [No available ports (max <n> servers)] with the counter at
    [max_servers] (or where it was, when already beyond). The two
    dictionaries are not touched. *)
Theorem get_next_port_first_fit (config : Plugin.MultiBinaryServerConfig) (reg : @Plugin.MultiBinaryRegistry View Server) :
  exists r reg',
    Plugin.get_next_port config reg = Some (r, reg') /\
    Plugin._servers reg' = Plugin._servers reg /\
    Plugin._port_to_binary reg' = Plugin._port_to_binary reg /\
    match r with
    | inl p =>
        exists j, (Plugin._next_port_index reg <= j < Plugin.max_servers config)%Z /\
          p = (Plugin.base_port config + j)%Z /\
          Plugin._next_port_index reg' = (j + 1)%Z /\
          Plugin.is_port_available p reg = true /\
          forall i, (Plugin._next_port_index reg <= i < j)%Z ->
            Plugin.is_port_available (Plugin.base_port config + i) reg = false
    | inr msg =>
        msg = "No available ports (max " +:+ str_of_Z (Plugin.max_servers config)
                +:+ " servers)" /\
        Plugin._next_port_index reg' =
          Z.max (Plugin._next_port_index reg) (Plugin.max_servers config) /\
        forall i, (Plugin._next_port_index reg <= i < Plugin.max_servers config)%Z ->
          Plugin.is_port_available (Plugin.base_port config + i) reg = false
    end.
Proof. unfold Plugin.get_next_port. apply next_port_loop_spec. lia. Qed.

Lemma next_port_loop_index (config : Plugin.MultiBinaryServerConfig) (fuel : nat) :
  forall (reg : @Plugin.MultiBinaryRegistry View Server) r reg',
    Plugin.next_port_loop fuel config reg = Some (r, reg') ->
    (Plugin._next_port_index reg <= Plugin._next_port_index reg')%Z /\
    forall p, r = inl p ->
      (Plugin.base_port config + Plugin._next_port_index reg <= p
         < Plugin.base_port config + Plugin._next_port_index reg')%Z.
Proof.
  induction fuel as [|fuel IH]; intros reg r reg'; cbn [Plugin.next_port_loop];
    destruct (Z.ltb_spec (Plugin._next_port_index reg) (Plugin.max_servers config));
    try discriminate.
  - intros [= <- <-]. split; [lia | discriminate].
  - unfold Plugin.get_port_for_index. destruct (Plugin.is_port_available _ reg).
    + intros [= <- <-]. cbn. split; [lia|]. intros p [= <-]. lia.
    + intros E. apply IH in E as [Hle Hp]. cbn in Hle, Hp. split; [lia|].
      intros p Ep. specialize (Hp p Ep). lia.
  - intros [= <- <-]. split; [lia | discriminate].
Qed.

Lemma run_call_index (config : Plugin.MultiBinaryServerConfig)
    (c : @RegistryCall View Server) (reg : @Plugin.MultiBinaryRegistry View Server) :
  (Plugin._next_port_index reg
     <= Plugin._next_port_index (run_call view_truthy view_filename config c reg))%Z.
Proof.
  destruct c as [binary_id bv srv p|binary_id|]; cbn [run_call].
  - cbn. lia.
  - unfold Plugin.unregister_binary. destruct (dict_get binary_id (Plugin._servers reg));
      cbn; lia.
  - destruct (Plugin.get_next_port config reg) as [[r reg']|] eqn:E; [|lia].
    now apply next_port_loop_index in E as [Hle _].
Qed.

Lemma run_calls_index (config : Plugin.MultiBinaryServerConfig)
    (calls : list (@RegistryCall View Server)) :
  forall reg : @Plugin.MultiBinaryRegistry View Server,
    (Plugin._next_port_index reg
       <= Plugin._next_port_index (run_calls view_truthy view_filename config calls reg))%Z.
Proof.
  unfold run_calls. induction calls as [|c calls IH]; intros reg; cbn [fold_left]; [lia|].
  etransitivity; [apply (run_call_index config c)|]. apply IH.
Qed.

(** X13. A port is handed out once: after [get_next_port] has returned a
    port, no later call of it returns that port again, whatever registrations
    and unregistrations happen in between, also when the port has been freed;
    and once the counter has reached [max_servers], every later call raises,
    however many binaries are unregistered. *)
Theorem ports_are_not_reissued (config : Plugin.MultiBinaryServerConfig) (reg : @Plugin.MultiBinaryRegistry View Server)
    (calls : list (@RegistryCall View Server)) :
  let later := fun reg1 => run_calls view_truthy view_filename config calls reg1 in
  (forall p reg1, Plugin.get_next_port config reg = Some (inl p, reg1) ->
     forall q reg2, Plugin.get_next_port config (later reg1) = Some (inl q, reg2) ->
       (p < q)%Z) /\
  ((Plugin.max_servers config <= Plugin._next_port_index reg)%Z ->
     Plugin.get_next_port config (later reg) =
     Some (inr ("No available ports (max " +:+ str_of_Z (Plugin.max_servers config)
                +:+ " servers)"), later reg)).
Proof.
  intros later. split.
  - intros p reg1 E1 q reg2 E2.
    apply next_port_loop_index in E1 as [_ Hp]. specialize (Hp p eq_refl).
    apply next_port_loop_index in E2 as [_ Hq]. specialize (Hq q eq_refl).
    pose proof (run_calls_index config calls reg1) as Hle. fold (later reg1) in Hle. lia.
  - intros Hfull.
    pose proof (run_calls_index config calls reg) as Hle. fold (later reg) in Hle.
    unfold Plugin.get_next_port.
    destruct (Z.to_nat _) as [|fuel]; cbn [Plugin.next_port_loop];
      destruct (Z.ltb_spec (Plugin._next_port_index (later reg)) (Plugin.max_servers config));
      try lia; reflexivity.
Qed.
End PortFacts.

(** ** The plugin's two dictionaries *)

Section RegistryFacts.
Context {View Server : Type}.
Variable view_truthy : View -> bool.
Variable view_filename : View -> string.

Lemma register_binary_consistent (binary_id : string) (bv : View) (server_instance : Server)
    (p : Z) (reg : @Plugin.MultiBinaryRegistry View Server) :
  registry_consistent reg ->
  Plugin.get_binary_info binary_id reg = None ->
  Plugin.is_port_available p reg = true ->
  registry_consistent
    (Plugin.register_binary view_truthy view_filename binary_id bv server_instance p reg).
Proof.
  intros [Hd [Ha Hb]] Hfresh Hfree. unfold Plugin.get_binary_info in Hfresh.
  unfold Plugin.is_port_available in Hfree.
  destruct (Plugin._port_to_binary reg !! p) as [x|] eqn:Hp; [discriminate|].
  unfold registry_consistent, Plugin.register_binary.
  cbn [Plugin._servers Plugin._port_to_binary]. split; [now apply dict_set_nodup|]. split.
  - intros id' e' Hget. destruct (String.eqb_spec id' binary_id) as [->|Hne].
    + rewrite dict_get_set_same in Hget. injection Hget as <-. cbn [Plugin.port].
      apply lookup_insert_eq.
    + rewrite dict_get_set_other in Hget by exact Hne. pose proof (Ha _ _ Hget) as Hown.
      rewrite lookup_insert_ne; [exact Hown|]. intros E. rewrite <- E in Hown. congruence.
  - intros q id' Hq. destruct (Z.eq_dec p q) as [<-|Hne].
    + rewrite lookup_insert_eq in Hq. injection Hq as <-.
      eexists. split; [apply dict_get_set_same | reflexivity].
    + rewrite lookup_insert_ne in Hq by exact Hne.
      destruct (Hb _ _ Hq) as [e [He Hport]]. exists e. split; [|exact Hport].
      rewrite dict_get_set_other; [exact He|]. intros ->. congruence.
Qed.

Lemma unregister_binary_consistent (binary_id : string)
    (reg : @Plugin.MultiBinaryRegistry View Server) :
  registry_consistent reg -> registry_consistent (Plugin.unregister_binary binary_id reg).
Proof.
  intros Hreg. unfold Plugin.unregister_binary.
  destruct (dict_get binary_id (Plugin._servers reg)) as [info|] eqn:Hinfo; [|exact Hreg].
  destruct Hreg as [Hd [Ha Hb]]. unfold registry_consistent.
  cbn [Plugin._servers Plugin._port_to_binary]. split; [now apply dict_del_nodup|]. split.
  - intros id' e' Hget. destruct (String.eqb_spec id' binary_id) as [->|Hne].
    + rewrite dict_get_del_same in Hget by exact Hd. discriminate Hget.
    + rewrite dict_get_del_other in Hget by exact Hne. pose proof (Ha _ _ Hget) as Hown.
      rewrite lookup_delete_ne; [exact Hown|]. intros E. rewrite <- E in Hown.
      rewrite (Ha _ _ Hinfo) in Hown. congruence.
  - intros q id' Hq. apply lookup_delete_Some in Hq as [Hne Hq].
    destruct (Hb _ _ Hq) as [e [He Hport]]. exists e. split; [|exact Hport].
    rewrite dict_get_del_other; [exact He|]. intros ->. congruence.
Qed.

(** X14. The registry's two dictionaries stay in step under the way the
    manager uses them. They agree at the start; registering a binary that is
    not registered on a port that is free, in particular on the port
    [get_next_port] has just returned, keeps them in agreement, and so do
    [unregister_binary] and [get_next_port]. While they agree,
    [list_binaries] shows each binary once and no port twice,
    [get_binary_by_port] finds exactly the listed pairs, and a port is
    available exactly when no listed binary has it. *)
Theorem registry_stays_consistent (config : Plugin.MultiBinaryServerConfig)
    (reg : @Plugin.MultiBinaryRegistry View Server) :
  registry_consistent (@Plugin.MultiBinaryRegistry_init View Server) /\
  (registry_consistent reg ->
   (forall binary_id bv server_instance p,
      Plugin.get_binary_info binary_id reg = None ->
      Plugin.is_port_available p reg = true ->
      registry_consistent
        (Plugin.register_binary view_truthy view_filename binary_id bv server_instance p
           reg)) /\
   (forall binary_id bv server_instance p reg',
      Plugin.get_binary_info binary_id reg = None ->
      Plugin.get_next_port config reg = Some (inl p, reg') ->
      registry_consistent
        (Plugin.register_binary view_truthy view_filename binary_id bv server_instance p
           reg')) /\
   (forall binary_id, registry_consistent (Plugin.unregister_binary binary_id reg)) /\
   (forall r reg', Plugin.get_next_port config reg = Some (r, reg') ->
      registry_consistent reg') /\
   NoDup (map (fun b => fst (fst b)) (Plugin.list_binaries reg)) /\
   NoDup (map snd (Plugin.list_binaries reg)) /\
   (forall p binary_id,
      Plugin.get_binary_by_port p reg = Some binary_id <->
      exists f, In (binary_id, f, p) (Plugin.list_binaries reg)) /\
   (forall p,
      Plugin.is_port_available p reg = true <->
      ~ In p (map snd (Plugin.list_binaries reg)))).
Proof.
  split.
  { unfold registry_consistent. cbn. split; [constructor|]. split.
    - intros binary_id e E. discriminate E.
    - intros p binary_id E. rewrite lookup_empty in E. discriminate E. }
  intros Hreg.
  assert (Hnext : forall r reg', Plugin.get_next_port config reg = Some (r, reg') ->
            Plugin._servers reg' = Plugin._servers reg /\
            Plugin._port_to_binary reg' = Plugin._port_to_binary reg /\
            forall p, r = inl p -> Plugin.is_port_available p reg = true).
  { intros r reg' E.
    destruct (next_port_loop_spec config
                (Z.to_nat (Plugin.max_servers config - Plugin._next_port_index reg)) reg)
      as [r0 [reg0 [E0 [Hs [Hp Hr]]]]]; [lia|].
    unfold Plugin.get_next_port in E. rewrite E in E0. injection E0 as <- <-. split; [exact Hs|]. split; [exact Hp|].
    intros p ->. destruct Hr as [j [_ [_ [_ [Hav _]]]]]. exact Hav. }
  assert (Hsame : forall reg' : @Plugin.MultiBinaryRegistry View Server,
            Plugin._servers reg' = Plugin._servers reg ->
            Plugin._port_to_binary reg' = Plugin._port_to_binary reg ->
            registry_consistent reg').
  { intros reg' Hs Hp. unfold registry_consistent. rewrite Hs, Hp. exact Hreg. }
  assert (Hlisted : forall p binary_id,
            Plugin.get_binary_by_port p reg = Some binary_id <->
            exists f, In (binary_id, f, p) (Plugin.list_binaries reg)).
  { destruct Hreg as [Hd [Ha Hb]]. intros p binary_id.
    unfold Plugin.get_binary_by_port, Plugin.list_binaries. split.
    - intros Hp. destruct (Hb _ _ Hp) as [e [He <-]]. exists (Plugin.filename e).
      apply in_map_iff. exists (binary_id, e). split; [reflexivity|]. now apply dict_get_In.
    - intros [f Hin]. apply in_map_iff in Hin as [[id' e] [E Hin]].
      cbn [fst snd] in E. injection E as -> _ <-. apply Ha. now apply dict_get_of_In. }
  repeat match goal with |- _ /\ _ => split end.
  - intros binary_id bv server_instance p. now apply register_binary_consistent.
  - intros binary_id bv server_instance p reg' Hfresh E.
    destruct (Hnext _ _ E) as [Hs [Hp Hav]].
    apply register_binary_consistent.
    + now apply Hsame.
    + unfold Plugin.get_binary_info in *. now rewrite Hs.
    + unfold Plugin.is_port_available in *. rewrite Hp. now apply Hav.
  - intros binary_id. now apply unregister_binary_consistent.
  - intros r reg' E. destruct (Hnext _ _ E) as [Hs [Hp _]]. now apply Hsame.
  - unfold Plugin.list_binaries. rewrite map_map. cbn [fst]. apply Hreg.
  - unfold Plugin.list_binaries. rewrite map_map. cbn [snd].
    destruct Hreg as [Hd [Ha Hb]]. apply map_nodup_by_key; [exact Hd|].
    intros [id1 e1] [id2 e2] H1 H2 E. cbn [fst snd] in *.
    apply (dict_get_of_In _ _ _ Hd), Ha in H1. apply (dict_get_of_In _ _ _ Hd), Ha in H2.
    rewrite E in H1. congruence.
  - exact Hlisted.
  - intros p. unfold Plugin.is_port_available.
    pose proof (Hlisted p) as Hl. unfold Plugin.get_binary_by_port in Hl.
    destruct (Plugin._port_to_binary reg !! p) as [id0|] eqn:Hp.
    + split; [discriminate|]. intros Hnot. exfalso. apply Hnot.
      destruct (proj1 (Hl id0) eq_refl) as [f Hin]. apply in_map_iff.
      now exists (id0, f, p).
    + split; [|reflexivity]. intros _ Hin. apply in_map_iff in Hin as [[[id0 f] q] [E Hin]].
      cbn [snd] in E. subst q. assert (None = Some id0) as C; [|discriminate C].
      apply Hl. now exists f.
Qed.
End RegistryFacts.

(** ** What the tools send and list *)



Section ToolFacts.
Context {py : PyRuntime}.



End ToolFacts.

(** ** The single-binary bridge *)

Lemma hoare_silent {A : Type} (Inv : State -> Prop) (P : Event -> Prop) (m : M A) :
  (forall s, Inv s -> Inv (snd (m s))) -> (forall s, trace (snd (m s)) = trace s) ->
  hoare Inv P m (fun _ => True).
Proof.
  intros Hi Ht s Hs. split; [now apply Hi|]. split; [exact I|].
  exists []. now rewrite Ht, app_nil_r.
Qed.

Section SingleFacts.
Context {py : PyRuntime}.
Variable R : BinaryServerRegistry.

Lemma single_request_calls (method endpoint : string) (params : option Params)
    (data : option string) :
  hoare (fun s => server_registry s = R) single_call
        (Single._request method endpoint params data) (fun _ => True).
Proof.
  unfold Single._request. intros s Hs.
  destruct (request_attempts_emits
              {| session_timeout := Some (CONNECT_TIMEOUT, READ_TIMEOUT) |} method
              (Single.BINJA_URL +:+ "/" +:+ endpoint) params data
              (seq 0 (MAX_RETRIES + 1)) None s) as [evs [E [F _]]].
  split.
  - rewrite <- Hs. apply (request_attempts_frame _ method _ params data _ None s).
  - split; [exact I|]. exists evs. split; [exact E|].
    eapply List.Forall_impl; [|exact F].
    intros e [-> | [d ->]]; [right | left; now exists d].
    unfold attempt_event. destruct (String.eqb method "GET"); now eexists _, endpoint, _, _.
Qed.

Lemma single_list_endpoint_calls (endpoint : string) (offset limit : Z)
    (extra : option Params) :
  hoare (fun s => server_registry s = R) single_call
        (Single._list_endpoint endpoint offset limit extra) (fun _ => True).
Proof.
  unfold Single._list_endpoint.
  eapply hoare_bind.
  { apply hoare_silent; [|apply ttl_cache_get_trace].
    intros s <-. apply ttl_cache_get_keeps_registry. }
  intros cached _. destruct cached; try now apply hoare_ret.
  eapply hoare_bind; [apply single_request_calls|]. intros [data err] _.
  destruct (str_truthy err).
  - eapply hoare_bind; [apply hoare_silent; [intros s Hs; exact Hs | reflexivity]|].
    intros _ _. now apply hoare_ret.
  - match goal with |- context [let '(_, _) := ?x in _] => destruct x as [items has_more] end.
    eapply hoare_bind; [apply hoare_silent; [intros s Hs; exact Hs | reflexivity]|].
    intros _ _. now apply hoare_ret.
Qed.

Ltac single_calls :=
  repeat first
    [ now apply hoare_ret
    | apply single_request_calls
    | apply single_list_endpoint_calls
    | match goal with
      | |- hoare _ _ (if ?b then _ else _) _ => destruct b
      | |- hoare _ _ (let '(_, _) := ?x in _) _ => destruct x
      | |- hoare _ _ (match ?x with _ => _ end) _ => destruct x
      | |- hoare _ _ (bind _ _) _ => eapply hoare_bind; [|intros ? _]
      end ].

(** X17. The single-binary bridge knows one backend: whatever its tools
    are asked, they call [http://localhost:9009/<endpoint>] and nothing
    else, pass no timeout to a call, sleep between attempts, and neither read
    nor change the registry of instances. Its [_request] is the multi-binary
    [_request] from the point where that one has resolved its target to the
    same address. *)
Theorem single_bridge_one_backend :
  hoare (fun s => server_registry s = R) single_call Single.health (fun _ => True) /\
  (forall kind offset limit query,
     hoare (fun s => server_registry s = R) single_call
           (Single.list_entities kind offset limit query) (fun _ => True)) /\
  (forall name,
     hoare (fun s => server_registry s = R) single_call
           (Single.decompile_function name) (fun _ => True)) /\
  hoare (fun s => server_registry s = R) single_call Single.overview (fun _ => True) /\
  hoare (fun s => server_registry s = R) single_call Single.get_binary_status
        (fun _ => True) /\
  (forall method endpoint params data binary_id s s1,
     resolve_target binary_id s = (inl Single.BINJA_URL, s1) ->
     _request method endpoint params data binary_id s =
     Single._request method endpoint params data s1).
Proof.
  repeat match goal with |- _ /\ _ => split end; intros.
  - unfold Single.health. single_calls.
  - unfold Single.list_entities. single_calls.
  - unfold Single.decompile_function. single_calls.
  - unfold Single.overview. single_calls.
  - unfold Single.get_binary_status. single_calls.
  - unfold _request, Single._request, bind.
    match goal with H : resolve_target _ _ = _ |- _ => now rewrite H end.
Qed.
End SingleFacts.

(** ** The shape of the tools' answers *)




Section AnswerFacts.
Context {py : PyRuntime}.


End AnswerFacts.

(** ** Paging *)

(** X19. Clamping a page is clamping it once: a clamped page passes
    through [_clamp_paging] unchanged, so a caller may clamp what a tool will
    clamp again. The clamped offset grows with the offset; the clamped limit
    grows with any limit that is not zero, while zero, like a missing
    limit, stands for [DEFAULT_LIMIT]. *)
Theorem clamp_paging_idempotent (offset limit : option Z) :
  let page := _clamp_paging offset limit in
  _clamp_paging (Some (fst page)) (Some (snd page)) = page /\
  (forall o o' l l' : Z, (o <= o')%Z -> (l <= l')%Z -> l <> 0%Z -> l' <> 0%Z ->
     (fst (_clamp_paging (Some o) (Some l)) <= fst (_clamp_paging (Some o') (Some l')))%Z /\
     (snd (_clamp_paging (Some o) (Some l)) <= snd (_clamp_paging (Some o') (Some l')))%Z) /\
  (forall o : option Z,
     snd (_clamp_paging o (Some 0%Z)) = DEFAULT_LIMIT /\
     snd (_clamp_paging o None) = DEFAULT_LIMIT).
Proof.
  cbv zeta. unfold _clamp_paging, int_or, MAX_LIMIT, DEFAULT_LIMIT. cbn [fst snd].
  split; [|split].
  - destruct offset as [o|], limit as [l|];
      repeat match goal with |- context [Z.eqb ?x 0] => destruct (Z.eqb_spec x 0) end;
      f_equal; lia.
  - intros o o' l l' Ho Hl Hz Hz'.
    repeat match goal with |- context [Z.eqb ?x 0] => destruct (Z.eqb_spec x 0) end; lia.
  - intros o. split; reflexivity.
Qed.

(** ** Registering a binary twice *)

Section ReregistrationFacts.
Context {View Server : Type}.
Variable view_truthy : View -> bool.
Variable view_filename : View -> string.

(** X20. [register_binary] does not release what an id held before: when
    a registered binary is registered again on another port, its entry moves
    to the new port but the old port stays reserved for it; a following
    [unregister_binary] removes the entry and frees the new port only, so the
    old port is reserved for an id that is registered no more, and the two
    dictionaries disagree from then on. *)
Theorem reregistered_port_stays_reserved (binary_id : string) (bv : View)
    (server_instance : Server) (p : Z) (reg : @Plugin.MultiBinaryRegistry View Server)
    (e : @Plugin.ServerEntry View Server) :
  registry_consistent reg ->
  Plugin.get_binary_info binary_id reg = Some e ->
  Plugin.port e <> p ->
  let reg1 :=
    Plugin.register_binary view_truthy view_filename binary_id bv server_instance p reg in
  let reg2 := Plugin.unregister_binary binary_id reg1 in
  option_map Plugin.port (Plugin.get_binary_info binary_id reg1) = Some p /\
  Plugin.get_binary_by_port p reg1 = Some binary_id /\
  Plugin.get_binary_by_port (Plugin.port e) reg1 = Some binary_id /\
  Plugin.get_binary_info binary_id reg2 = None /\
  Plugin.is_port_available p reg2 = true /\
  Plugin.is_port_available (Plugin.port e) reg2 = false /\
  Plugin.get_binary_by_port (Plugin.port e) reg2 = Some binary_id /\
  ~ registry_consistent reg2.
Proof.
  intros [Hd [Ha Hb]] He Hp reg1 reg2. unfold Plugin.get_binary_info in He.
  pose proof (Ha _ _ He) as Hold.
  assert (H1 : dict_get binary_id (Plugin._servers reg1) <> None /\
               option_map Plugin.port (dict_get binary_id (Plugin._servers reg1)) = Some p).
  { subst reg1. unfold Plugin.register_binary. cbn [Plugin._servers].
    rewrite dict_get_set_same. split; [discriminate | reflexivity]. }
  assert (Hold1 : Plugin._port_to_binary reg1 !! Plugin.port e = Some binary_id).
  { subst reg1. unfold Plugin.register_binary. cbn [Plugin._port_to_binary].
    rewrite lookup_insert_ne; [exact Hold | intros E; now apply Hp]. }
  assert (Hd1 : NoDup (map fst (Plugin._servers reg1))).
  { subst reg1. unfold Plugin.register_binary. cbn [Plugin._servers].
    now apply dict_set_nodup. }
  assert (H2 : Plugin._servers reg2 = dict_del binary_id (Plugin._servers reg1) /\
               Plugin._port_to_binary reg2 = delete p (Plugin._port_to_binary reg1)).
  { subst reg2. unfold Plugin.unregister_binary. destruct H1 as [_ H1].
    destruct (dict_get binary_id (Plugin._servers reg1)) as [e1|]; [|discriminate H1].
    cbn in H1. injection H1 as ->. split; reflexivity. }
  destruct H2 as [Hs2 Hp2].
  assert (Hgone : dict_get binary_id (Plugin._servers reg2) = None).
  { rewrite Hs2. now apply dict_get_del_same. }
  assert (Hold2 : Plugin._port_to_binary reg2 !! Plugin.port e = Some binary_id).
  { rewrite Hp2. rewrite lookup_delete_ne; [exact Hold1 | intros E; now apply Hp]. }
  unfold Plugin.get_binary_info, Plugin.get_binary_by_port, Plugin.is_port_available.
  repeat match goal with |- _ /\ _ => split end.
  - apply H1.
  - subst reg1. unfold Plugin.register_binary. cbn [Plugin._port_to_binary].
    apply lookup_insert_eq.
  - exact Hold1.
  - exact Hgone.
  - rewrite Hp2, lookup_delete_eq. reflexivity.
  - now rewrite Hold2.
  - exact Hold2.
  - intros [_ [_ Hb2]]. destruct (Hb2 _ _ Hold2) as [e2 [E2 _]]. congruence.
Qed.
End ReregistrationFacts.

(** * Further worked examples *)

(** One live instance, and a backend that refuses every connection after
    the sweep. *)
Lemma request_exhausted_witness :
  let s := process_with one_live in
  let s1 := snd (resolve_target None s) in
  let out := _request (py:=ascii_runtime) "GET" "methods" None None None s in
  resolve_target None s = (inl "http://localhost:9009", s1) /\
  (forall i, (i <= MAX_RETRIES)%nat ->
     attempt_result (py:=ascii_runtime) (net s1 (n_http s1 + i)) = None) /\
  fst out = (PNone, Some "Connection refused").
Proof.
  intros s s1 out.
  assert (Hres : resolve_target None s = (inl "http://localhost:9009", s1))
    by (vm_compute; reflexivity).
  assert (Hfail : forall i, (i <= MAX_RETRIES)%nat ->
            attempt_result (py:=ascii_runtime) (net s1 (n_http s1 + i)) = None).
  { intros i Hi. unfold MAX_RETRIES in Hi.
    destruct i as [|[|[|i]]]; [vm_compute; reflexivity .. | lia]. }
  split; [exact Hres|]. split; [exact Hfail|].
  destruct (request_exhausted (py:=ascii_runtime) "GET" "methods" None None None
              s s1 "http://localhost:9009" Hres Hfail) as [R _].
  etransitivity; [exact R | vm_compute; reflexivity].
Defined.

(** After a sweep at 1000 s, the clock reads 1001 s. *)
Lemma registry_reads_within_interval_witness :
  let s := snd (discover_servers (process_with one_live)) in
  (wall_clock s (n_wall s) - last_discovery (server_registry s)
     < discovery_interval (server_registry s))%Q /\
  n_http (snd (get_default_server s)) = n_http s /\
  get_servers s = (servers (server_registry s), snd (time_time s)).
Proof.
  intros s.
  assert (H : (wall_clock s (n_wall s) - last_discovery (server_registry s)
                 < discovery_interval (server_registry s))%Q)
    by (vm_compute; reflexivity).
  split; [exact H|].
  destruct (registry_reads_within_interval s H) as [_ [G [_ [_ [_ [N _]]]]]].
  split; [exact N | exact G].
Defined.

(** The first sweep of a fresh process. *)
Lemma discover_servers_sweep_witness :
  let s := process_with one_live in
  let s' := snd (discover_servers s) in
  (discovery_interval (server_registry s)
     <= wall_clock s (n_wall s) - last_discovery (server_registry s))%Q /\
  n_http s' = (n_http s + MAX_SERVERS)%nat /\
  trace s' = trace s ++ map probe_event (seq 0 MAX_SERVERS).
Proof.
  intros s s'.
  assert (H : (discovery_interval (server_registry s)
                 <= wall_clock s (n_wall s) - last_discovery (server_registry s))%Q)
    by (vm_compute; intros E; discriminate E).
  split; [exact H|].
  destruct (discover_servers_sweep s H) as [T [N _]].
  split; [exact N | exact T].
Defined.

(** Ports 9009 and 9011 live, 9010 answering 503. *)
Lemma registry_after_sweep_witness :
  let s := process_with (loaded "a.exe" :: reply 503 "Service Unavailable" None
                           :: loaded "c.exe" :: repeat refused 7) in
  (discovery_interval (server_registry s)
     <= wall_clock s (n_wall s) - last_discovery (server_registry s))%Q /\
  NoDup (map fst (fst (get_servers s))) /\
  fst (get_server_by_id "port_9010" s) = None.
Proof.
  intros s.
  assert (H : (discovery_interval (server_registry s)
                 <= wall_clock s (n_wall s) - last_discovery (server_registry s))%Q)
    by (vm_compute; intros E; discriminate E).
  split; [exact H|].
  destruct (registry_after_sweep s H) as [_ [Hd Hlook]].
  split; [exact Hd|].
  specialize (Hlook 1%nat [] ltac:(unfold MAX_SERVERS; lia)).
  etransitivity; [exact Hlook | vm_compute; reflexivity].
Defined.

(** An id of a port that is not live, and a process without instances. *)
Lemma request_unresolved_target_witness :
  let s := process_with one_live in
  let s0 := process_with [] in
  fst (get_server_by_id "port_9015" s) = None /\
  fst (_request (py:=ascii_runtime) "GET" "methods" None None (Some "port_9015") s)
    = (PNone, Some "Binary server 'port_9015' not found") /\
  fst (get_default_server s0) = None /\
  fst (_request (py:=ascii_runtime) "GET" "methods" None None None s0)
    = (PNone, Some "No Binary Ninja servers available").
Proof.
  intros s s0.
  assert (H1 : fst (get_server_by_id "port_9015" s) = None) by (vm_compute; reflexivity).
  assert (H0 : fst (get_default_server s0) = None) by (vm_compute; reflexivity).
  assert (Hne : "port_9015" <> "") by discriminate.
  split; [exact H1|].
  split.
  - destruct (proj1 (request_unresolved_target (py:=ascii_runtime)
                       "GET" "methods" None None s) "port_9015" Hne H1) as [R _].
    exact (f_equal fst R).
  - split; [exact H0|].
    exact (f_equal fst (proj2 (request_unresolved_target (py:=ascii_runtime)
                                 "GET" "methods" None None s0) H0)).
Defined.

(** An instance that reports [filename: null]. *)
Lemma select_binary_nonstring_filename_witness :
  let s := process_with (reply 200 "OK" (Some (PDict [("loaded", PBool true);
                                                       ("filename", PNone)]))
                           :: repeat refused 9) in
  let info := {| url := "http://localhost:9009"; port := 9009; filename := PNone;
                 status := PDict [("loaded", PBool true); ("filename", PNone)];
                 last_seen := inject_Z 1000 |} in
  fst (get_servers s) = [] ++ ("port_9009", info) :: [] /\
  fst (select_binary_by_filename (py:=ascii_runtime) "a.exe" s)
    = PDict [("ok", PBool false);
             ("error", PStr "'NoneType' object has no attribute 'lower'")].
Proof.
  intros s info.
  assert (H : fst (get_servers s) = [] ++ ("port_9009", info) :: [])
    by (vm_compute; reflexivity).
  split; [exact H|].
  refine (select_binary_nonstring_filename (py:=ascii_runtime) "a.exe" s [] []
            "port_9009" info H _ _).
  - intros id' info' [].
  - intros fn E. discriminate E.
Defined.

(** A slot of [classes] beside a [set] and a [get] of [methods]. *)
Lemma TTLCache_other_keys_witness :
  let c := {| ttl := CACHE_TTL; store := ∅ |} in
  let v := PDict [("ok", PBool true); ("items", numbers); ("hasMore", PBool false)] in
  let params := [("offset", QInt 0); ("limit", QInt 100)] in
  let c1 := fst (TTLCache_set "classes_default" params v c (process 1000 0 [])) in
  let k := TTLCache__key "classes_default" params in
  k <> TTLCache__key "methods_default" params /\
  store (fst (TTLCache_set "methods_default" params PNone c1 (process 1000 1 []))) !! k
    = store c1 !! k /\
  store (snd (fst (TTLCache_get "methods_default" params c1 (process 1000 9 [])))) !! k
    = store c1 !! k.
Proof.
  intros c v params c1 k.
  assert (Hk : k <> TTLCache__key "methods_default" params)
    by (vm_compute; intros E; discriminate E).
  split; [exact Hk|]. split.
  - exact (proj1 (proj1 (TTLCache_other_keys "methods_default" params PNone c1
                           (process 1000 1 []) k) Hk)).
  - exact (proj2 (proj1 (TTLCache_other_keys "methods_default" params v c1
                           (process 1000 9 []) k) Hk)).
Defined.

(** The same page with its parameters in either order, for the default
    instance named by nothing and by the empty id. *)
Lemma list_cache_slot_shared_witness :
  let p1 := [("offset", QInt 0); ("limit", QInt 100)] in
  let p2 := [("limit", QInt 100); ("offset", QInt 0)] in
  NoDup (map fst p1) /\
  TTLCache__key ("methods" +:+ "_" +:+ str_or None "default") p1
    = TTLCache__key ("methods" +:+ "_" +:+ str_or (Some "") "default") p2.
Proof.
  intros p1 p2.
  assert (Hnd : NoDup (map fst p1)).
  { apply NoDup_ListNoDup. repeat constructor; cbn; intuition discriminate. }
  split; [exact Hnd|].
  apply (proj2 (list_cache_slot_shared "methods" None (Some "") p1 p2 Hnd)).
  split; [reflexivity | apply perm_swap].
Defined.


(** The first listing of a process whose cache is empty. *)
Lemma cache_holds_envelopes_witness :
  let s := process_with (one_live ++ [reply 200 "OK" (Some numbers)]) in
  store (ttl_cache s) = ∅ /\
  is_envelope (fst (list_entities (py:=ascii_runtime) "methods" 0 10 "" None s)) /\
  cache_ok (snd (list_entities (py:=ascii_runtime) "methods" 0 10 "" None s)).
Proof.
  intros s.
  assert (H : store (ttl_cache s) = ∅) by reflexivity.
  split; [exact H|].
  destruct (cache_holds_envelopes (py:=ascii_runtime)) as [Hempty [Hlist _]].
  destruct (Hlist "methods" 0%Z 10%Z "" None s (Hempty s H)) as [Hc [He _]].
  split; [exact He | exact Hc].
Defined.

(** A health check from a process that knows no instance yet. *)
Lemma bridge_calls_stay_local_witness :
  let s := process_with one_live in
  servers (server_registry s) = [] /\
  registry_ok (snd (health (py:=ascii_runtime) None s)) /\
  exists evs, trace (snd (health (py:=ascii_runtime) None s)) = trace s ++ evs /\
              Forall local_call evs.
Proof.
  intros s.
  assert (H : servers (server_registry s) = []) by reflexivity.
  split; [exact H|].
  destruct (bridge_calls_stay_local (py:=ascii_runtime)) as [Hempty [Hhealth _]].
  destruct (Hhealth None s (Hempty s H)) as [Hr [_ He]].
  split; [exact Hr | exact He].
Defined.

(** Two allocations with a registration and an unregistration in between. *)
Lemma ports_are_not_reissued_witness :
  let config := Plugin.MultiBinaryServerConfig_default in
  let reg := @Plugin.MultiBinaryRegistry_init unit unit in
  let reg1 := {| Plugin._servers := []; Plugin._port_to_binary := ∅;
                 Plugin._next_port_index := 1 |} in
  let calls := [CallRegister "a" tt tt 9009; CallUnregister "a"] in
  let later := run_calls (fun _ => true) (fun _ => "a.exe") config calls reg1 in
  let reg2 := {| Plugin._servers := []; Plugin._port_to_binary := ∅;
                 Plugin._next_port_index := 2 |} in
  Plugin.get_next_port config reg = Some (inl 9009%Z, reg1) /\
  Plugin.is_port_available 9009 later = true /\
  Plugin.get_next_port config later = Some (inl 9010%Z, reg2) /\
  (9009 < 9010)%Z.
Proof.
  intros config reg reg1 calls later reg2.
  assert (H1 : Plugin.get_next_port config reg = Some (inl 9009%Z, reg1))
    by (vm_compute; reflexivity).
  assert (H2 : Plugin.get_next_port config later = Some (inl 9010%Z, reg2))
    by (vm_compute; reflexivity).
  split; [exact H1|]. split; [vm_compute; reflexivity|]. split; [exact H2|].
  exact (proj1 (ports_are_not_reissued (fun _ => true) (fun _ => "a.exe") config reg calls)
           9009%Z reg1 H1 9010%Z reg2 H2).
Defined.

(** The manager's sequence on a fresh registry: allocate, then register. *)
Lemma registry_stays_consistent_witness :
  let config := Plugin.MultiBinaryServerConfig_default in
  let reg := @Plugin.MultiBinaryRegistry_init unit unit in
  let reg1 := {| Plugin._servers := []; Plugin._port_to_binary := ∅;
                 Plugin._next_port_index := 1 |} in
  Plugin.get_binary_info "a" reg = None /\
  Plugin.get_next_port config reg = Some (inl 9009%Z, reg1) /\
  registry_consistent
    (Plugin.register_binary (fun _ => true) (fun _ => "a.exe") "a" tt tt 9009 reg1).
Proof.
  intros config reg reg1.
  assert (H0 : Plugin.get_binary_info "a" reg = None) by reflexivity.
  assert (H1 : Plugin.get_next_port config reg = Some (inl 9009%Z, reg1))
    by (vm_compute; reflexivity).
  split; [exact H0|]. split; [exact H1|].
  destruct (registry_stays_consistent (fun _ => true) (fun _ => "a.exe") config reg)
    as [Hinit Hkeep].
  exact (proj1 (proj2 (Hkeep Hinit)) "a" tt tt 9009%Z reg1 H0 H1).
Defined.


(** The single bridge against the multi bridge with port 9009 live. *)
Lemma single_bridge_one_backend_witness :
  let s := process_with (one_live ++ [reply 200 "OK" (Some numbers)]) in
  let s1 := snd (resolve_target None s) in
  resolve_target None s = (inl Single.BINJA_URL, s1) /\
  _request (py:=ascii_runtime) "GET" "methods" None None None s
    = Single._request (py:=ascii_runtime) "GET" "methods" None None s1 /\
  server_registry (snd (Single.health (py:=ascii_runtime) s1)) = server_registry s1.
Proof.
  intros s s1.
  assert (H : resolve_target None s = (inl Single.BINJA_URL, s1))
    by (vm_compute; reflexivity).
  split; [exact H|].
  destruct (single_bridge_one_backend (py:=ascii_runtime) (server_registry s1))
    as [Hh [_ [_ [_ [_ Heq]]]]].
  split; [exact (Heq "GET" "methods" None None None s s1 H)|].
  exact (proj1 (Hh s1 eq_refl)).
Defined.

(** Pages 3 and 7 of ten items, and two limits on either side of zero. *)
Lemma clamp_paging_idempotent_witness :
  (30 <= 70)%Z /\ (-5 <= 10)%Z /\
  (fst (_clamp_paging (Some 30%Z) (Some (-5)%Z))
     <= fst (_clamp_paging (Some 70%Z) (Some 10%Z)))%Z /\
  (snd (_clamp_paging (Some 30%Z) (Some (-5)%Z))
     <= snd (_clamp_paging (Some 70%Z) (Some 10%Z)))%Z.
Proof.
  assert (Ho : (30 <= 70)%Z) by lia.
  assert (Hl : (-5 <= 10)%Z) by lia.
  split; [exact Ho|]. split; [exact Hl|].
  apply (proj1 (proj2 (clamp_paging_idempotent None None)) 30%Z 70%Z (-5)%Z 10%Z Ho Hl);
    lia.
Defined.

(** A binary registered on 9009 and again on 9010, then unregistered. *)
Lemma reregistered_port_stays_reserved_witness :
  let truthy_view := fun _ : unit => true in
  let name_of := fun _ : unit => "a.exe" in
  let reg := Plugin.register_binary truthy_view name_of "a" tt tt 9009
               (@Plugin.MultiBinaryRegistry_init unit unit) in
  let e := {| Plugin.binary_view := tt; Plugin.server := tt; Plugin.port := 9009%Z;
              Plugin.filename := Some "a.exe" |} in
  let reg2 := Plugin.unregister_binary "a"
                (Plugin.register_binary truthy_view name_of "a" tt tt 9010 reg) in
  registry_consistent reg /\
  Plugin.get_binary_info "a" reg = Some e /\
  Plugin.get_binary_info "a" reg2 = None /\
  Plugin.is_port_available 9009 reg2 = false.
Proof.
  intros truthy_view name_of reg e reg2.
  assert (Hc : registry_consistent reg).
  { unfold registry_consistent. split; [|split].
    - apply NoDup_ListNoDup. repeat constructor. intros [].
    - intros binary_id e0. subst reg. cbn [Plugin.register_binary Plugin._servers
        Plugin.MultiBinaryRegistry_init dict_set dict_get Plugin._port_to_binary].
      destruct (String.eqb_spec binary_id "a") as [->|_]; [|discriminate].
      intros [= <-]. cbn [Plugin.port]. apply lookup_insert_eq.
    - intros p binary_id. subst reg. cbn [Plugin.register_binary Plugin._servers
        Plugin.MultiBinaryRegistry_init dict_set dict_get Plugin._port_to_binary].
      intros Hp. apply lookup_insert_Some in Hp as [[<- <-]|[_ Hp]].
      + eexists. split; reflexivity.
      + rewrite lookup_empty in Hp. discriminate Hp. }
  assert (He : Plugin.get_binary_info "a" reg = Some e) by reflexivity.
  assert (Hp : Plugin.port e <> 9010%Z) by (cbn; lia).
  split; [exact Hc|]. split; [exact He|].
  destruct (reregistered_port_stays_reserved truthy_view name_of "a" tt tt 9010%Z reg e
              Hc He Hp) as [_ [_ [_ [G [_ [A _]]]]]].
  split; [exact G | exact A].
Defined.
